(** * a8-manpower: the data-access hooks of the recruitment front-end

    A shallow embedding of the hooks that talk to the hosted relational
    service ([useShortlists], [useJobDescriptions], [SearchTab],
    [saveProfile]) and the properties their specification states.

    Every hook is an asynchronous function that awaits one remote call
    after the other, so the embedding is sequential: a computation takes
    the world (the relations of the backing store, the behaviour of the
    transport, the query cache, the effect log) and returns either a value
    or a thrown error together with the new world. *)

From Stdlib Require Import Ascii String ZArith List Permutation Sorted Lia.
From stdpp Require Import base option list strings pretty gmap fin_maps.

Local Open Scope string_scope.
Local Open Scope list_scope.

(** ** JavaScript values the hooks branch on *)
Module Js.

(** [!!s] for a string: only the empty string is falsy. *)
Definition truthy_string (s : string) : bool :=
  match s with
  | EmptyString => false
  | String _ _ => true
  end.

(** [!!x] for [x : string | null]. *)
Definition truthy (x : option string) : bool :=
  match x with
  | Some s => truthy_string s
  | None => false
  end.

(** What an [async] handler of the hooks resolves to: [true], [false],
    or [undefined] (a bare [return;]). *)
Inductive ret : Type :=
| RTrue
| RFalse
| RUndefined.

Definition is_boolean (r : ret) : bool :=
  match r with
  | RTrue | RFalse => true
  | RUndefined => false
  end.

End Js.

(** ** Errors, replies and the effect log *)

Inductive Err : Type :=
| TransportError (message : string)   (* the service answered with [error] *)
| PostgresError (code : string)       (* the database rejected the statement *)
| JsError (message : string).         (* an [Error] with this message:
                                         [new Error(message)], or an error
                                         object of a client library *)

(** The [{ data, error }] object every call of the client resolves to. *)
Record Reply (A : Type) : Type := mkReply {
  data : option A;
  error : option Err
}.
Arguments mkReply {A} _ _.
Arguments data {A} _.
Arguments error {A} _.

(** SQL values of the columns the filters look at. *)
Inductive sqlval : Type :=
| SNull
| SText (s : string)
| SInt (z : Z)
| SBool (b : bool).

(** The filters the hooks put on their queries:
    [.eq(col, v)], [.not(col, 'is', null)], [.ilike(col, pattern)]. *)
Inductive Filter : Type :=
| F_eq (col value : string)
| F_not_is_null (col : string)
| F_ilike (col pattern : string).

Inductive Cardinality : Type := Many | Single | MaybeSingle.

(** The statements the hooks send; kept in the log as they were built. *)
Inductive Statement : Type :=
| Delete (where_ : Filter)
| Update (columns : list string) (where_ : Filter)
| Insert (columns : list string)
| Select (columns : string) (where_ : list Filter)
         (order_desc : option string) (limit : option nat)
         (card : Cardinality).

Inductive Event : Type :=
| Request (relation : string) (stmt : Statement)
| AuthGetUser
| Toast (title description : string) (destructive : bool)
| ConsoleError (label : string)
| ConfirmPrompt (message : string)
| InvalidateQueries (key : string)
| ClearMatchesCore.

(** ** The relations of the backing store

    One record per relation, with the columns the hooks read or write
    under the names the source gives them.  A nullable column is an
    [option]; timestamps are instants on the database clock. *)

Class Relation (Row : Type) : Type :=
  column : Row -> string -> sqlval.

Definition text_or_null (x : option string) : sqlval :=
  match x with
  | Some s => SText s
  | None => SNull
  end.

Module CvMatch.
(** [cv_match]: the hooks only ever name [id] and [user_id]. *)
Record t : Type := mk {
  id : string;
  user_id : option string;
  other : list (string * sqlval)
}.

Fixpoint assoc (c : string) (kvs : list (string * sqlval)) : sqlval :=
  match kvs with
  | [] => SNull
  | (k, v) :: kvs' => if String.eqb k c then v else assoc c kvs'
  end.

#[global] Instance relation : Relation t := fun r c =>
  if String.eqb c "id" then SText (id r)
  else if String.eqb c "user_id" then text_or_null (user_id r)
  else assoc c (other r).
End CvMatch.

Module JobDescription.
(** [job_descriptions], the [JobDescription] interface plus [user_id]. *)
Record t : Type := mk {
  id : string;
  user_id : option string;
  job_title : string;
  company_name : string;
  location : string;
  original_text : string;
  job_requirements : string;
  benefits : string;
  employer_profile_id : option string;
  agent_id : option string;
  created_at : Z
}.

#[global] Instance relation : Relation t := fun r c =>
  if String.eqb c "id" then SText (id r)
  else if String.eqb c "user_id" then text_or_null (user_id r)
  else if String.eqb c "job_title" then SText (job_title r)
  else if String.eqb c "company_name" then SText (company_name r)
  else if String.eqb c "location" then SText (location r)
  else if String.eqb c "original_text" then SText (original_text r)
  else if String.eqb c "job_requirements" then SText (job_requirements r)
  else if String.eqb c "benefits" then SText (benefits r)
  else if String.eqb c "employer_profile_id"
       then text_or_null (employer_profile_id r)
  else if String.eqb c "agent_id" then text_or_null (agent_id r)
  else if String.eqb c "created_at" then SInt (created_at r)
  else SNull.
End JobDescription.

Module EmployerProfile.
Record AlternateContact : Type := mkAlt {
  alt_name : option string;
  alt_designation : option string;
  alt_email : option string;
  alt_phone : option string
}.

(** [employer_profiles], the [EmployerProfile] interface. *)
Record t : Type := mk {
  id : string;
  user_id : option string;
  company_name : string;
  registration_number : string;
  country : string;
  state : string;
  industry : string;
  sub_industry : string;
  sub_sub_industry : string;
  contact_person : string;
  designation : string;
  email : string;
  phone : string;
  alternate_contact : option AlternateContact;
  is_verified : bool;
  is_approved : bool;
  profile_completion : Z;
  created_at : option Z;
  updated_at : option Z
}.

#[global] Instance relation : Relation t := fun r c =>
  if String.eqb c "id" then SText (id r)
  else if String.eqb c "user_id" then text_or_null (user_id r)
  else if String.eqb c "company_name" then SText (company_name r)
  else if String.eqb c "registration_number"
       then SText (registration_number r)
  else if String.eqb c "country" then SText (country r)
  else if String.eqb c "state" then SText (state r)
  else if String.eqb c "industry" then SText (industry r)
  else if String.eqb c "sub_industry" then SText (sub_industry r)
  else if String.eqb c "sub_sub_industry" then SText (sub_sub_industry r)
  else if String.eqb c "contact_person" then SText (contact_person r)
  else if String.eqb c "designation" then SText (designation r)
  else if String.eqb c "email" then SText (email r)
  else if String.eqb c "phone" then SText (phone r)
  else if String.eqb c "is_verified" then SBool (is_verified r)
  else if String.eqb c "is_approved" then SBool (is_approved r)
  else if String.eqb c "profile_completion" then SInt (profile_completion r)
  else if String.eqb c "created_at"
       then match created_at r with Some z => SInt z | None => SNull end
  else if String.eqb c "updated_at"
       then match updated_at r with Some z => SInt z | None => SNull end
  else SNull.
End EmployerProfile.

Module CvMetadata.
(** [cv_metadata], the columns of [DatabaseResult]. *)
Record t : Type := mk {
  id : string;
  name : option string;
  experience : option Z;
  location : option string;
  skills : sqlval
}.

#[global] Instance relation : Relation t := fun r c =>
  if String.eqb c "id" then SText (id r)
  else if String.eqb c "name" then text_or_null (name r)
  else if String.eqb c "experience"
       then match experience r with Some n => SInt n | None => SNull end
  else if String.eqb c "location" then text_or_null (location r)
  else if String.eqb c "skills" then skills r
  else SNull.
End CvMetadata.

Record Db : Type := mkDb {
  cv_match : list CvMatch.t;
  job_descriptions : list JobDescription.t;
  employer_profiles : list EmployerProfile.t;
  cv_metadata : list CvMetadata.t;
  generated : nat                 (* row ids generated so far *)
}.

(** ** Pattern matching of the database: [LIKE] and [ILIKE]

    In a pattern [%] stands for any run of characters, [_] for any one
    character, and a backslash takes the next character literally.  The
    REST layer in front of the database also reads [*] as [%].  [ILIKE]
    is [LIKE] after folding both sides to lower case.  A pattern that
    ends in a lone backslash is refused by the database; here it matches
    nothing (the search never builds one: its pattern ends in [%]).
    Text is taken as ASCII: one character per byte, and only the letters
    A to Z have another case. *)
Module Like.

Definition lower (c : ascii) : ascii :=
  let n := nat_of_ascii c in
  if (65 <=? n)%nat && (n <=? 90)%nat then ascii_of_nat (n + 32) else c.

Fixpoint lower_string (s : string) : string :=
  match s with
  | EmptyString => EmptyString
  | String c s' => String (lower c) (lower_string s')
  end.

Definition is_percent (c : ascii) : bool :=
  Ascii.eqb c "%"%char || Ascii.eqb c "*"%char.
Definition is_underscore (c : ascii) : bool := Ascii.eqb c "_"%char.
Definition is_escape (c : ascii) : bool := Ascii.eqb c "\"%char.

Definition is_meta (c : ascii) : bool :=
  is_percent c || is_underscore c || is_escape c.

Fixpoint like (p s : string) {struct p} : bool :=
  match p with
  | EmptyString =>
      match s with EmptyString => true | String _ _ => false end
  | String c p' =>
      if is_percent c then
        (fix any (s : string) : bool :=
           like p' s ||
           match s with
           | EmptyString => false
           | String _ s' => any s'
           end) s
      else if is_underscore c then
        match s with
        | EmptyString => false
        | String _ s' => like p' s'
        end
      else if is_escape c then
        match p' with
        | EmptyString => false
        | String c' p'' =>
            match s with
            | EmptyString => false
            | String d s' => Ascii.eqb c' d && like p'' s'
            end
        end
      else
        match s with
        | EmptyString => false
        | String d s' => Ascii.eqb c d && like p' s'
        end
  end.

Definition ilike (p s : string) : bool :=
  like (lower_string p) (lower_string s).

(** [t] occurs in [s] as a substring. *)
Definition infix (t s : string) : Prop :=
  exists pre post : string, s = pre +:+ t +:+ post.

(** ... compared without regard to case. *)
Definition infix_ci (t s : string) : Prop :=
  infix (lower_string t) (lower_string s).

Fixpoint has_meta (s : string) : bool :=
  match s with
  | EmptyString => false
  | String c s' => is_meta c || has_meta s'
  end.

End Like.

(** ** Evaluating a filter on a row *)

Definition holds {Row : Type} `{Relation Row} (f : Filter) (r : Row) : bool :=
  match f with
  | F_eq c v =>
      match column r c with
      | SText s => String.eqb s v
      | _ => false
      end
  | F_not_is_null c =>
      match column r c with
      | SNull => false
      | _ => true
      end
  | F_ilike c p =>
      match column r c with
      | SText s => Like.ilike p s
      | _ => false
      end
  end.

(** [DELETE ... WHERE f] keeps the rows on which [f] does not hold. *)
Definition delete_where {Row : Type} `{Relation Row}
    (f : Filter) (rows : list Row) : list Row :=
  List.filter (fun r => negb (holds f r)) rows.

(** [SELECT ... WHERE f]. *)
Definition select_where {Row : Type} `{Relation Row}
    (f : Filter) (rows : list Row) : list Row :=
  List.filter (holds f) rows.

(** [UPDATE ... SET ... WHERE f]: the rows on which [f] holds are rewritten
    where they stand. *)
Definition update_where {Row : Type} `{Relation Row}
    (f : Filter) (set : Row -> Row) (rows : list Row) : list Row :=
  List.map (fun r => if holds f r then set r else r) rows.

(** ** The world a hook runs in *)

Module JobDescriptionView.
(** A row as the list query returns it: every column of the job
    description, and under [employer_profiles] the four columns of the
    profile that [employer_profile_id] points to. *)
Record EmployerContact : Type := mkContact {
  company_name : string;
  contact_person : string;
  email : string;
  phone : string
}.

Record t : Type := mk {
  item : JobDescription.t;
  employer_profiles : option EmployerContact
}.
End JobDescriptionView.

Module Query.
(** A list the query cache holds: the data it last fetched, and whether
    it has been invalidated since. *)
Record t : Type := mk {
  data : list JobDescriptionView.t;
  isInvalidated : bool
}.

Definition invalidate (q : t) : t := mk (data q) true.
End Query.

(** What the transport does with one request: hand it to the database,
    answer with a non-null [error], or reject the promise. *)
Inductive Transport : Type :=
| Deliver
| Fail (e : Err)
| Reject (e : Err).

Record World : Type := mkWorld {
  db : Db;
  session : option string;        (* the user the identity service knows *)
  net : list Transport;           (* one entry per request to come;
                                     requests past its end are delivered *)
  operator : list bool;           (* answers to the confirm prompts to
                                     come; past its end: dismissed *)
  now : Z;                        (* [new Date()] *)
  uuid : nat -> string;           (* the n-th row id the database makes *)
  queryCache : gmap string Query.t;
                                  (* ['jobDescriptions', userId]: the
                                     lists of the mounted hooks *)
  log : list Event                (* effects so far, oldest first *)
}.

Definition with_db (d : Db) (w : World) : World :=
  mkWorld d (session w) (net w) (operator w) (now w) (uuid w)
    (queryCache w) (log w).
Definition with_net (n : list Transport) (w : World) : World :=
  mkWorld (db w) (session w) n (operator w) (now w) (uuid w)
    (queryCache w) (log w).
Definition with_operator (o : list bool) (w : World) : World :=
  mkWorld (db w) (session w) (net w) o (now w) (uuid w)
    (queryCache w) (log w).
Definition with_queryCache (c : gmap string Query.t) (w : World) : World :=
  mkWorld (db w) (session w) (net w) (operator w) (now w) (uuid w)
    c (log w).
Definition with_log (l : list Event) (w : World) : World :=
  mkWorld (db w) (session w) (net w) (operator w) (now w) (uuid w)
    (queryCache w) l.

(** An awaited computation completes with a value or with a thrown error
    (a rejected promise). *)
Inductive Completion (A : Type) : Type :=
| Returned (a : A)
| Thrown (e : Err).
Arguments Returned {A} _.
Arguments Thrown {A} _.

Definition Async (A : Type) : Type := World -> Completion A * World.

#[export] Instance Async_ret : MRet Async := fun A a w => (Returned a, w).

#[export] Instance Async_bind : MBind Async := fun A B k m w =>
  match m w with
  | (Returned a, w') => k a w'
  | (Thrown e, w') => (Thrown e, w')
  end.

Definition throw {A : Type} (e : Err) : Async A := fun w => (Thrown e, w).

(** [try { body } catch (e) { handler e }] *)
Definition try_catch {A : Type} (body : Async A) (handler : Err -> Async A)
    : Async A := fun w =>
  match body w with
  | (Returned a, w') => (Returned a, w')
  | (Thrown e, w') => handler e w'
  end.

Definition emit (e : Event) : Async unit := fun w =>
  (Returned tt, with_log (log w ++ [e]) w).

Definition toast (title description : string) (destructive : bool)
    : Async unit := emit (Toast title description destructive).

Definition console_error (label : string) : Async unit :=
  emit (ConsoleError label).

(** [confirm(message)]: the blocking prompt of the browser. *)
Definition confirm (message : string) : Async bool := fun w =>
  let w1 := with_log (log w ++ [ConfirmPrompt message]) w in
  match operator w1 with
  | [] => (Returned false, w1)
  | b :: rest => (Returned b, with_operator rest w1)
  end.

(** The refetch of the lists on screen, one after the other; a refetch
    that fails does not stop the others. *)
Fixpoint refetch_each (refetch : string -> Async unit) (keys : list string)
    : Async unit :=
  match keys with
  | [] => mret tt
  | k :: keys' =>
      try_catch (refetch k) (fun _ => mret tt);;
      refetch_each refetch keys'
  end.

(** The user ids the cache holds a list for. *)
Definition cached_keys (w : World) : list string :=
  (map_to_list (queryCache w)).*1.

Definition mark_invalidated : Async unit := fun w =>
  (Returned tt, with_queryCache (Query.invalidate <$> queryCache w) w).

Definition invalidate_and_refetch (refetch : string -> Async unit)
    : Async unit :=
  fun w => (mark_invalidated;; refetch_each refetch (cached_keys w)) w.

(** [await queryClient.invalidateQueries({ queryKey: [key] })]: every
    cached list under the key is marked invalidated and keeps its data;
    the lists on screen are then refetched, and the call resolves when
    they have settled, whether they succeeded or not.  [refetch] is the
    refetch of the list of one user id. *)
Definition invalidateQueries (key : string) (refetch : string -> Async unit)
    : Async unit :=
  emit (InvalidateQueries key);;
  invalidate_and_refetch refetch.

(** One request to the relational service.  [exec] is what the database
    does with the statement when it gets it. *)
Definition request {A : Type} (relation : string) (stmt : Statement)
    (exec : Db -> Reply A * Db) : Async (Reply A) := fun w =>
  let w1 := with_log (log w ++ [Request relation stmt]) w in
  match net w1 with
  | [] | Deliver :: _ =>
      let '(r, d) := exec (db w1) in
      (Returned r, with_db d (with_net (tail (net w1)) w1))
  | Fail e :: rest => (Returned (mkReply None (Some e)), with_net rest w1)
  | Reject e :: rest => (Thrown e, with_net rest w1)
  end.

(** Running a hook: the value it completes with, and the world it leaves. *)
Definition result {A : Type} (m : Async A) (w : World) : Completion A :=
  fst (m w).
Definition after {A : Type} (m : Async A) (w : World) : World :=
  snd (m w).

(** The transport delivers every request. *)
Definition fault_free (w : World) : Prop :=
  Forall (fun t => t = Deliver) (net w).

(** The events a hook added to the log. *)
Definition events {A : Type} (m : Async A) (w : World) : list Event :=
  drop (length (log w)) (log (after m w)).

Definition with_cv_match (rows : list CvMatch.t) (d : Db) : Db :=
  mkDb rows (job_descriptions d) (employer_profiles d) (cv_metadata d)
       (generated d).
Definition with_job_descriptions (rows : list JobDescription.t) (d : Db) : Db :=
  mkDb (cv_match d) rows (employer_profiles d) (cv_metadata d) (generated d).
Definition with_employer_profiles (rows : list EmployerProfile.t) (d : Db)
    : Db :=
  mkDb (cv_match d) (job_descriptions d) rows (cv_metadata d) (generated d).
Definition with_generated (n : nat) (d : Db) : Db :=
  mkDb (cv_match d) (job_descriptions d) (employer_profiles d)
       (cv_metadata d) n.

(** ** [useShortlists] *)
Module useShortlists.

(** The scope [handleClearMatches] gives its delete:
    [if (userId) query.eq('user_id', userId)
     else query.not('id', 'is', null)]. *)
Definition clear_filter (userId : option string) : Filter :=
  match userId with
  | Some u =>
      if Js.truthy_string u then F_eq "user_id" u else F_not_is_null "id"
  | None => F_not_is_null "id"
  end.

Definition exec_clear (f : Filter) (d : Db) : Reply unit * Db :=
  (mkReply None None, with_cv_match (delete_where f (cv_match d)) d).

(** [handleClearMatchesCore] is the reset of the matching state kept by
    [useMatchingLogic]; here it is the event [ClearMatchesCore]. *)
Definition handleClearMatches (userId : option string) : Async unit :=
  try_catch
    (let query := clear_filter userId in
     r ← request "cv_match" (Delete query) (exec_clear query);
     match error r with
     | Some e => throw e
     | None =>
         emit ClearMatchesCore;;
         toast "Matches cleared"
           "All your matches have been cleared from the table and database."
           false
     end)
    (fun _ =>
       console_error "Error clearing matches:";;
       toast "Error" "Failed to clear matches. Please try again." true).

(** The matches the relation holds for one user. *)
Definition matches_of (u : string) (d : Db) : list CvMatch.t :=
  List.filter (fun r => bool_decide (CvMatch.user_id r = Some u))
    (cv_match d).

(** The text and its setter live in [useJobDescriptionData]; they are
    taken as a state with a getter and a setter. *)
Section Mount.
Variable State : Type.
Variable jobDescription : State -> string.
Variable setJobDescription : string -> State -> State.

(** One render of the hook: the [jobDescription] it returns to the view. *)
Definition render (s : State) : string := jobDescription s.

(** The mount effect, [useEffect(() => setJobDescription(empty string), ...)]. *)
Definition on_mount (s : State) : State := setJobDescription EmptyString s.

(** Mounting the hook.  An effect runs after the render that declared it
    has been committed: the hook is rendered with the state it finds, then
    the mount effect runs, and the state it leaves is rendered in turn.
    The result is what the renders returned, in order, and the state the
    mount leaves. *)
Definition mount (s : State) : list string * State :=
  let s' := on_mount s in
  ([render s; render s'], s').
End Mount.

End useShortlists.

(** ** [useJobDescriptions] *)
Module useJobDescriptions.

(** [ORDER BY created_at DESC]: insertion into a list that is already
    in descending order. *)
Fixpoint insert_desc (r : JobDescription.t) (l : list JobDescription.t)
    : list JobDescription.t :=
  match l with
  | [] => [r]
  | x :: l' =>
      if (JobDescription.created_at x <=? JobDescription.created_at r)%Z
      then r :: x :: l'
      else x :: insert_desc r l'
  end.

Definition order_desc (l : list JobDescription.t) : list JobDescription.t :=
  List.fold_right insert_desc [] l.

(** [employer_profiles:employer_profile_id (company_name, contact_person,
    email, phone)]: the profile the foreign key points to, if any. *)
Definition embed (d : Db) (r : JobDescription.t) : JobDescriptionView.t :=
  JobDescriptionView.mk r
    (match JobDescription.employer_profile_id r with
     | None => None
     | Some pid =>
         match select_where (F_eq "id" pid) (employer_profiles d) with
         | [] => None
         | p :: _ =>
             Some (JobDescriptionView.mkContact
                     (EmployerProfile.company_name p)
                     (EmployerProfile.contact_person p)
                     (EmployerProfile.email p)
                     (EmployerProfile.phone p))
         end
     end).

Definition list_select (u : string) : Statement :=
  Select "*, employer_profiles:employer_profile_id (company_name, contact_person, email, phone)"
    [F_eq "user_id" u] (Some "created_at") None Many.

(** What the database answers to [list_select u]. *)
Definition listing (u : string) (d : Db) : list JobDescriptionView.t :=
  List.map (embed d)
    (order_desc (select_where (F_eq "user_id" u) (job_descriptions d))).

Definition exec_list (u : string) (d : Db)
    : Reply (list JobDescriptionView.t) * Db :=
  (mkReply (Some (listing u d)) None, d).

(** [{ ...item, employer_profile_id: item.employer_profile_id,
       agent_id: item.agent_id }] *)
Definition transform (v : JobDescriptionView.t) : JobDescriptionView.t :=
  let item := JobDescriptionView.item v in
  JobDescriptionView.mk
    (JobDescription.mk
       (JobDescription.id item) (JobDescription.user_id item)
       (JobDescription.job_title item) (JobDescription.company_name item)
       (JobDescription.location item) (JobDescription.original_text item)
       (JobDescription.job_requirements item) (JobDescription.benefits item)
       (JobDescription.employer_profile_id item)
       (JobDescription.agent_id item)
       (JobDescription.created_at item))
    (JobDescriptionView.employer_profiles v).

(** The [queryFn] of the list query. *)
Definition queryFn (userId : option string)
    : Async (list JobDescriptionView.t) :=
  match userId with
  | None => mret []
  | Some u =>
      if negb (Js.truthy_string u) then mret []
      else
        r ← request "job_descriptions" (list_select u) (exec_list u);
        match error r with
        | Some e => throw e
        | None =>
            match data r with
            | Some rows => mret (List.map transform rows)
            | None => throw (JsError "Cannot read properties of null")
            end
        end
  end.

(** [enabled: !!userId] *)
Definition enabled (userId : option string) : bool := Js.truthy userId.

(** One run of the query function for the list of [u]: the rows it
    returns become the data of the list, which is fresh again; when it
    throws, the cache keeps what it had.  (The retries of the query
    library are not told apart: the transport says how the fetch ends,
    retries included, and the log records the fetch as one request.) *)
Definition fetch (u : string) : Async (option (list JobDescriptionView.t)) :=
  fun w =>
    match queryFn (Some u) w with
    | (Returned rows, w') =>
        (Returned (Some rows),
         with_queryCache (<[u := Query.mk rows false]> (queryCache w')) w')
    | (Thrown _, w') => (Returned None, w')
    end.

(** The refetch of a list on screen; a disabled query is not refetched. *)
Definition refetch (u : string) : Async unit :=
  if enabled (Some u) then fetch u;; mret tt else mret tt.

(** [const { data: jobDescriptions = [] } = useQuery(...)]: a disabled
    query has no data; an enabled one shows the data of the list the
    cache holds under its key, invalidated or not; when the cache has
    none the list is fetched, and a fetch that throws leaves the data
    undefined. *)
Definition jobDescriptions (userId : option string)
    : Async (list JobDescriptionView.t) :=
  match userId with
  | Some u =>
      if enabled userId then
        fun w =>
          match queryCache w !! u with
          | Some q => (Returned (Query.data q), w)
          | None => (rows ← fetch u; mret (default [] rows)) w
          end
      else mret []
  | None => mret []
  end.

Definition exec_delete (jobId : string) (d : Db) : Reply unit * Db :=
  (mkReply None None,
   with_job_descriptions
     (delete_where (F_eq "id" jobId) (job_descriptions d)) d).

Definition handleDelete (jobId : string) : Async Js.ret :=
  ok ← confirm "Are you sure you want to delete this job description?";
  if negb ok then mret Js.RUndefined
  else
    try_catch
      (r ← request "job_descriptions" (Delete (F_eq "id" jobId))
             (exec_delete jobId);
       match error r with
       | Some _ =>
           console_error "Delete error:";;
           toast "Error" "Failed to delete job description" true;;
           mret Js.RUndefined
       | None =>
           toast "Success" "Job description deleted successfully" false;;
           invalidateQueries "jobDescriptions" refetch;;
           mret Js.RTrue
       end)
      (fun _ =>
         console_error "Delete error:";;
         toast "Error" "Failed to delete job description" true;;
         mret Js.RFalse).

(** [updateData]: the six columns [handleUpdate] sends. *)
Definition updateData_columns : list string :=
  ["job_title"; "company_name"; "location"; "original_text";
   "job_requirements"; "benefits"].

Definition apply_updateData (jobDescription r : JobDescription.t)
    : JobDescription.t :=
  JobDescription.mk
    (JobDescription.id r) (JobDescription.user_id r)
    (JobDescription.job_title jobDescription)
    (JobDescription.company_name jobDescription)
    (JobDescription.location jobDescription)
    (JobDescription.original_text jobDescription)
    (JobDescription.job_requirements jobDescription)
    (JobDescription.benefits jobDescription)
    (JobDescription.employer_profile_id r) (JobDescription.agent_id r)
    (JobDescription.created_at r).

Definition exec_update (jobDescription : JobDescription.t) (d : Db)
    : Reply (list JobDescription.t) * Db :=
  let f := F_eq "id" (JobDescription.id jobDescription) in
  let rows :=
    update_where f (apply_updateData jobDescription) (job_descriptions d) in
  (mkReply (Some (select_where f rows)) None,
   with_job_descriptions rows d).

Definition handleUpdate (jobDescription : JobDescription.t)
    : Async Js.ret :=
  try_catch
    (r ← request "job_descriptions"
           (Update updateData_columns
              (F_eq "id" (JobDescription.id jobDescription)))
           (exec_update jobDescription);
     match error r with
     | Some _ =>
         console_error "Update error:";;
         toast "Error" "Failed to update job description" true;;
         mret Js.RFalse
     | None =>
         toast "Success" "Job description updated successfully" false;;
         invalidateQueries "jobDescriptions" refetch;;
         mret Js.RTrue
     end)
    (fun _ =>
       console_error "Update error:";;
       toast "Error" "Failed to update job description" true;;
       mret Js.RFalse).

End useJobDescriptions.

(** ** [SearchTab] *)
Module SearchTab.

Definition search_pattern (searchTerm : string) : string :=
  "%" +:+ searchTerm +:+ "%".

Definition search_select (searchTerm : string) : Statement :=
  Select "id, name, experience, location, skills"
    [F_ilike "name" (search_pattern searchTerm)] None (Some 10%nat) Many.

Definition exec_search (searchTerm : string) (d : Db)
    : Reply (list CvMetadata.t) * Db :=
  (mkReply
     (Some (List.firstn 10
              (select_where (F_ilike "name" (search_pattern searchTerm))
                 (cv_metadata d))))
     None,
   d).

Definition searchCandidates (searchTerm : string)
    : Async (list CvMetadata.t) :=
  if negb (Js.truthy_string searchTerm)
  then throw (JsError "Please enter a search query")
  else
    r ← request "cv_metadata" (search_select searchTerm)
           (exec_search searchTerm);
    match error r with
    | Some e => console_error "Supabase error:";; throw e
    | None => mret (default [] (data r))
    end.

End SearchTab.

(** ** [profileFormUtils] *)
Module profileFormUtils.

Record ProfileFormData : Type := mkForm {
  company_name : string;
  registration_number : string;
  country : string;
  state : string;
  industry : string;
  sub_industry : string;
  sub_sub_industry : string;
  contact_person : string;
  designation : string;
  email : string;
  phone : string;
  alternate_contact : option EmployerProfile.AlternateContact
}.

Definition profileData_columns : list string :=
  ["user_id"; "company_name"; "registration_number"; "country"; "state";
   "industry"; "sub_industry"; "sub_sub_industry"; "contact_person";
   "designation"; "email"; "phone"; "alternate_contact"; "is_verified";
   "is_approved"; "profile_completion"].

(** [supabase.auth.getUser()].  Without a session the client sends
    nothing and answers with its error for a missing session (an [Error]
    whose message is "Auth session missing!"); with one, it asks the
    identity service for the user of the session. *)
Definition getUser : Async (Reply string) := fun w =>
  match session w with
  | None =>
      (Returned (mkReply None (Some (JsError "Auth session missing!"))), w)
  | Some user =>
      let w1 := with_log (log w ++ [AuthGetUser]) w in
      match net w1 with
      | [] => (Returned (mkReply (Some user) None), w1)
      | Deliver :: rest =>
          (Returned (mkReply (Some user) None), with_net rest w1)
      | Fail e :: rest =>
          (Returned (mkReply None (Some e)), with_net rest w1)
      | Reject e :: rest => (Thrown e, with_net rest w1)
      end
  end.

(** [new Date().toISOString()] *)
Definition timestamp_now : Async Z := fun w => (Returned (now w), w).

(** [{ ...profileData, updated_at: timestamp }] written over a row. *)
Definition apply_profileData (user : string) (values : ProfileFormData)
    (timestamp : Z) (r : EmployerProfile.t) : EmployerProfile.t :=
  EmployerProfile.mk
    (EmployerProfile.id r) (Some user)
    (company_name values) (registration_number values) (country values)
    (state values) (industry values) (sub_industry values)
    (sub_sub_industry values) (contact_person values) (designation values)
    (email values) (phone values) (alternate_contact values)
    false false 100%Z
    (EmployerProfile.created_at r) (Some timestamp).

(** [{ ...profileData, created_at: timestamp, updated_at: timestamp }]
    as a new row; the database supplies its id. *)
Definition new_profile (id user : string) (values : ProfileFormData)
    (timestamp : Z) : EmployerProfile.t :=
  EmployerProfile.mk
    id (Some user)
    (company_name values) (registration_number values) (country values)
    (state values) (industry values) (sub_industry values)
    (sub_sub_industry values) (contact_person values) (designation values)
    (email values) (phone values) (alternate_contact values)
    false false 100%Z
    (Some timestamp) (Some timestamp).

(** How many profiles a user has. *)
Definition count_user (u : string) (rows : list EmployerProfile.t) : nat :=
  length (List.filter
            (fun r => bool_decide (EmployerProfile.user_id r = Some u))
            rows).

(** The unique constraint on [employer_profiles.user_id], the one the
    source looks up an existing profile for
    ("to handle the unique constraint"). *)
Definition unique_user_id (rows : list EmployerProfile.t) : bool :=
  forallb
    (fun r =>
       match EmployerProfile.user_id r with
       | None => true
       | Some u => (count_user u rows <=? 1)%nat
       end)
    rows.

(** A statement that would break the constraint is rejected as a whole
    (SQLSTATE 23505) and changes nothing. *)
Definition commit (rows' : list EmployerProfile.t) (d : Db)
    : Reply unit * Db :=
  if unique_user_id rows'
  then (mkReply None None, with_employer_profiles rows' d)
  else (mkReply None (Some (PostgresError "23505")), d).

Definition exec_update (id user : string) (values : ProfileFormData)
    (timestamp : Z) (d : Db) : Reply unit * Db :=
  commit
    (update_where (F_eq "id" id) (apply_profileData user values timestamp)
       (employer_profiles d))
    d.

Definition exec_insert (uuid : nat -> string) (user : string)
    (values : ProfileFormData) (timestamp : Z) (d : Db)
    : Reply unit * Db :=
  let rows' :=
    (employer_profiles d ++
     [new_profile (uuid (generated d)) user values timestamp])%list in
  if unique_user_id rows'
  then (mkReply None None,
        with_generated (S (generated d)) (with_employer_profiles rows' d))
  else (mkReply None (Some (PostgresError "23505")), d).

(** [.select('*').eq('user_id', user).maybeSingle()] *)
Definition exec_maybeSingle (user : string) (d : Db)
    : Reply EmployerProfile.t * Db :=
  match select_where (F_eq "user_id" user) (employer_profiles d) with
  | [] => (mkReply None None, d)
  | [r] => (mkReply (Some r) None, d)
  | _ :: _ :: _ => (mkReply None (Some (PostgresError "PGRST116")), d)
  end.

(** [.select('*').eq('user_id', user).single()] *)
Definition exec_single (user : string) (d : Db)
    : Reply EmployerProfile.t * Db :=
  match select_where (F_eq "user_id" user) (employer_profiles d) with
  | [r] => (mkReply (Some r) None, d)
  | _ => (mkReply None (Some (PostgresError "PGRST116")), d)
  end.

(** [profile?.id] *)
Definition profile_id (profile : option EmployerProfile.t)
    : option string :=
  match profile with
  | Some p =>
      if Js.truthy_string (EmployerProfile.id p)
      then Some (EmployerProfile.id p) else None
  | None => None
  end.

Definition update_stmt (id : string) : Statement :=
  Update (profileData_columns ++ ["updated_at"]) (F_eq "id" id).
Definition insert_stmt : Statement :=
  Insert (profileData_columns ++ ["created_at"; "updated_at"]).
Definition lookup_stmt (user : string) (card : Cardinality) : Statement :=
  Select "*" [F_eq "user_id" user] None None card.

(** The [if (profile?.id) ... else ...] block that sets [result]. *)
Definition write_profile (user : string) (values : ProfileFormData)
    (timestamp : Z) (profile : option EmployerProfile.t)
    : Async (Reply unit) :=
  match profile_id profile with
  | Some id =>
      request "employer_profiles" (update_stmt id)
        (exec_update id user values timestamp)
  | None =>
      existingProfile ←
        request "employer_profiles" (lookup_stmt user MaybeSingle)
          (exec_maybeSingle user);
      match data existingProfile with
      | Some existing =>
          request "employer_profiles"
            (update_stmt (EmployerProfile.id existing))
            (exec_update (EmployerProfile.id existing) user
               values timestamp)
      | None =>
          fun w =>
            request "employer_profiles" insert_stmt
              (exec_insert (uuid w) user values timestamp) w
      end
  end.

Definition saveProfile (values : ProfileFormData)
    (profile : option EmployerProfile.t) : Async (Reply EmployerProfile.t) :=
  try_catch
    (timestamp ← timestamp_now;
     u ← getUser;
     match error u with
     | Some userError => throw userError
     | None =>
     match data u with
     | None => throw (JsError "You must be logged in to create a profile")
     | Some user =>
         result ← write_profile user values timestamp profile;
         match error result with
         | Some e => console_error "Error saving profile:";; throw e
         | None =>
             updatedProfile ←
               request "employer_profiles" (lookup_stmt user Single)
                 (exec_single user);
             match error updatedProfile with
             | Some fetchError =>
                 console_error "Error fetching updated profile:";;
                 throw fetchError
             | None => mret (mkReply (data updatedProfile) None)
             end
         end
     end
     end)
    (fun e =>
       console_error "Error in saveProfile:";;
       mret (mkReply None (Some e))).

End profileFormUtils.

(** ** [useJobDescriptions]: resolving the user *)
Module useJobDescriptionsAuth.

(** [supabase.auth.getSession()]: [data.session.user.id], when there is a
    session. *)
Definition getSession : Async (Reply string) := fun w =>
  match net w with
  | [] => (Returned (mkReply (session w) None), w)
  | Deliver :: rest => (Returned (mkReply (session w) None), with_net rest w)
  | Fail e :: rest => (Returned (mkReply None (Some e)), with_net rest w)
  | Reject e :: rest => (Thrown e, with_net rest w)
  end.

(** [fetchUserId], from the [userId] state it finds to the one it leaves. *)
Definition fetchUserId (userId : option string) : Async (option string) :=
  r ← getSession;
  match error r with
  | Some _ => console_error "Error fetching user session:";; mret userId
  | None =>
      match data r with
      | Some id => mret (Some id)
      | None => mret userId
      end
  end.

(** The [userId] state once the mount effect has run: the call is not
    awaited, so a rejection leaves the state as it was. *)
Definition userId_after_mount (w : World) : option string :=
  match result (fetchUserId None) w with
  | Returned userId => userId
  | Thrown _ => None
  end.

End useJobDescriptionsAuth.

(** ** [useEmployerProfile] *)
Module useEmployerProfile.

(** [ORDER BY created_at DESC]; the database puts nulls first when the
    order is descending. *)
Definition not_older (a b : option Z) : bool :=
  match a, b with
  | None, _ => true
  | Some _, None => false
  | Some x, Some y => (y <=? x)%Z
  end.

Fixpoint insert_desc (r : EmployerProfile.t) (l : list EmployerProfile.t)
    : list EmployerProfile.t :=
  match l with
  | [] => [r]
  | x :: l' =>
      if not_older (EmployerProfile.created_at r)
           (EmployerProfile.created_at x)
      then r :: x :: l'
      else x :: insert_desc r l'
  end.

Definition order_desc (l : list EmployerProfile.t) : list EmployerProfile.t :=
  List.fold_right insert_desc [] l.

Definition list_select : Statement :=
  Select "*" [] (Some "created_at") None Many.

Definition exec_list (d : Db) : Reply (list EmployerProfile.t) * Db :=
  (mkReply (Some (order_desc (employer_profiles d))) None, d).

(** The [map] over the rows: [created_at || new Date()],
    [updated_at || new Date()], [profile_completion || 0],
    [is_verified || false], [is_approved || false]; the alternate contact
    goes through JSON and comes back as it was. *)
Definition transform (today : Z) (profile : EmployerProfile.t)
    : EmployerProfile.t :=
  EmployerProfile.mk
    (EmployerProfile.id profile) (EmployerProfile.user_id profile)
    (EmployerProfile.company_name profile)
    (EmployerProfile.registration_number profile)
    (EmployerProfile.country profile) (EmployerProfile.state profile)
    (EmployerProfile.industry profile) (EmployerProfile.sub_industry profile)
    (EmployerProfile.sub_sub_industry profile)
    (EmployerProfile.contact_person profile)
    (EmployerProfile.designation profile)
    (EmployerProfile.email profile) (EmployerProfile.phone profile)
    (EmployerProfile.alternate_contact profile)
    (if EmployerProfile.is_verified profile then true else false)
    (if EmployerProfile.is_approved profile then true else false)
    (if (EmployerProfile.profile_completion profile =? 0)%Z
     then 0%Z else EmployerProfile.profile_completion profile)
    (Some (default today (EmployerProfile.created_at profile)))
    (Some (default today (EmployerProfile.updated_at profile))).

Definition queryFn : Async (list EmployerProfile.t) :=
  r ← request "employer_profiles" list_select exec_list;
  match error r with
  | Some e => throw e
  | None =>
      match data r with
      | None => mret []
      | Some profiles =>
          fun w => (Returned (List.map (transform (now w)) profiles), w)
      end
  end.

End useEmployerProfile.

(** ** [profileFormUtils]: the schema and the default values *)
Module profileSchema.

(** [z.string().min(n)] *)
Definition min (n : nat) (s : string) : bool := (n <=? String.length s)%nat.

(** [.optional()]: an absent value passes. *)
Definition optional {A : Type} (check : A -> bool) (x : option A) : bool :=
  match x with
  | Some a => check a
  | None => true
  end.

Section Schema.
(** [z.string().email()], the one check whose pattern the source does not
    spell out. *)
Variable is_email : string -> bool.

Definition alternate_contact_ok (a : EmployerProfile.AlternateContact)
    : bool :=
  optional (fun _ => true) (EmployerProfile.alt_name a)
  && optional (fun _ => true) (EmployerProfile.alt_designation a)
  && optional is_email (EmployerProfile.alt_email a)
  && optional (min 10) (EmployerProfile.alt_phone a).

(** [profileSchema.safeParse(values).success] *)
Definition accepts (values : profileFormUtils.ProfileFormData) : bool :=
  min 2 (profileFormUtils.company_name values)
  && min 1 (profileFormUtils.registration_number values)
  && min 1 (profileFormUtils.country values)
  && min 1 (profileFormUtils.state values)
  && min 1 (profileFormUtils.industry values)
  && min 1 (profileFormUtils.sub_industry values)
  && min 1 (profileFormUtils.sub_sub_industry values)
  && min 2 (profileFormUtils.contact_person values)
  && min 2 (profileFormUtils.designation values)
  && is_email (profileFormUtils.email values)
  && min 10 (profileFormUtils.phone values)
  && optional alternate_contact_ok (profileFormUtils.alternate_contact values).
End Schema.

(** [getDefaultFormValues]: the profile's own values, or the blank form. *)
Definition getDefaultFormValues (profile : option EmployerProfile.t)
    : profileFormUtils.ProfileFormData :=
  match profile with
  | Some p =>
      profileFormUtils.mkForm
        (EmployerProfile.company_name p)
        (EmployerProfile.registration_number p)
        (EmployerProfile.country p) (EmployerProfile.state p)
        (EmployerProfile.industry p) (EmployerProfile.sub_industry p)
        (EmployerProfile.sub_sub_industry p)
        (EmployerProfile.contact_person p) (EmployerProfile.designation p)
        (EmployerProfile.email p) (EmployerProfile.phone p)
        (EmployerProfile.alternate_contact p)
  | None =>
      profileFormUtils.mkForm
        EmptyString EmptyString EmptyString EmptyString EmptyString
        EmptyString EmptyString EmptyString EmptyString EmptyString
        EmptyString
        (Some (EmployerProfile.mkAlt (Some EmptyString) (Some EmptyString)
                 (Some EmptyString) (Some EmptyString)))
  end.

End profileSchema.

(** ** [ProfileForm]: the submit handler *)
Module ProfileForm.

Definition profileData_columns : list string :=
  ["company_name"; "registration_number"; "country"; "state"; "industry";
   "sub_industry"; "sub_sub_industry"; "contact_person"; "designation";
   "email"; "phone"; "alternate_contact"; "user_id"].

Definition update_stmt (id : string) : Statement :=
  Update (profileData_columns ++ ["updated_at"]) (F_eq "id" id).
Definition insert_stmt : Statement :=
  Insert (profileData_columns ++ ["created_at"; "updated_at"]).

(** [{ ...profileData, updated_at: timestamp }] written over a row.  The
    payload has no verification flags and no completion; an absent
    alternate contact is an [undefined] property, which the JSON body
    does not carry, so the column stays. *)
Definition apply_profileData (user : string)
    (values : profileFormUtils.ProfileFormData) (timestamp : Z)
    (r : EmployerProfile.t) : EmployerProfile.t :=
  EmployerProfile.mk
    (EmployerProfile.id r) (Some user)
    (profileFormUtils.company_name values)
    (profileFormUtils.registration_number values)
    (profileFormUtils.country values) (profileFormUtils.state values)
    (profileFormUtils.industry values) (profileFormUtils.sub_industry values)
    (profileFormUtils.sub_sub_industry values)
    (profileFormUtils.contact_person values)
    (profileFormUtils.designation values)
    (profileFormUtils.email values) (profileFormUtils.phone values)
    (match profileFormUtils.alternate_contact values with
     | Some a => Some a
     | None => EmployerProfile.alternate_contact r
     end)
    (EmployerProfile.is_verified r) (EmployerProfile.is_approved r)
    (EmployerProfile.profile_completion r)
    (EmployerProfile.created_at r) (Some timestamp).

Definition exec_update (id user : string)
    (values : profileFormUtils.ProfileFormData) (timestamp : Z) (d : Db)
    : Reply unit * Db :=
  profileFormUtils.commit
    (update_where (F_eq "id" id) (apply_profileData user values timestamp)
       (employer_profiles d))
    d.

Section Form.
(** What the parent keeps about the form, and its [onCancel]. *)
Variable UiState : Type.
Variable onCancel : UiState -> UiState.
(** [error instanceof Error], for the errors of the client. *)
Variable instanceof_Error : Err -> bool.
(** What the database puts in the columns an insert leaves out. *)
Variable default_alternate_contact : option EmployerProfile.AlternateContact.
Variable default_is_verified : bool.
Variable default_is_approved : bool.
Variable default_profile_completion : Z.

(** [{ ...profileData, created_at: timestamp, updated_at: timestamp }]
    as a new row. *)
Definition new_profile (id user : string)
    (values : profileFormUtils.ProfileFormData) (timestamp : Z)
    : EmployerProfile.t :=
  EmployerProfile.mk
    id (Some user)
    (profileFormUtils.company_name values)
    (profileFormUtils.registration_number values)
    (profileFormUtils.country values) (profileFormUtils.state values)
    (profileFormUtils.industry values) (profileFormUtils.sub_industry values)
    (profileFormUtils.sub_sub_industry values)
    (profileFormUtils.contact_person values)
    (profileFormUtils.designation values)
    (profileFormUtils.email values) (profileFormUtils.phone values)
    (match profileFormUtils.alternate_contact values with
     | Some a => Some a
     | None => default_alternate_contact
     end)
    default_is_verified default_is_approved default_profile_completion
    (Some timestamp) (Some timestamp).

Definition exec_insert (uuid : nat -> string) (user : string)
    (values : profileFormUtils.ProfileFormData) (timestamp : Z) (d : Db)
    : Reply unit * Db :=
  let rows' :=
    employer_profiles d ++
    [new_profile (uuid (generated d)) user values timestamp] in
  if profileFormUtils.unique_user_id rows'
  then (mkReply None None,
        with_generated (S (generated d)) (with_employer_profiles rows' d))
  else (mkReply None (Some (PostgresError "23505")), d).

Definition message (e : Err) : string :=
  match e with
  | TransportError m => m
  | PostgresError code => code
  | JsError m => m
  end.

(** [error instanceof Error ? error.message : "Failed to save ..."] *)
Definition describe (e : Err) : string :=
  match e with
  | JsError m => m
  | _ =>
      if instanceof_Error e then message e
      else "Failed to save profile. Please try again."
  end.

(** The [try] block up to and including the write. *)
Definition write (values : profileFormUtils.ProfileFormData)
    (profile : option EmployerProfile.t) : Async unit :=
  timestamp ← profileFormUtils.timestamp_now;
  u ← profileFormUtils.getUser;
  match error u with
  | Some userError => console_error "Error getting user:";; throw userError
  | None =>
  match data u with
  | None =>
      console_error "No user found";;
      throw (JsError "No authenticated user found")
  | Some user =>
      match profileFormUtils.profile_id profile with
      | Some id =>
          r ← request "employer_profiles" (update_stmt id)
                 (exec_update id user values timestamp);
          match error r with
          | Some updateError => console_error "Update error:";; throw updateError
          | None => mret tt
          end
      | None =>
          r ← (fun w =>
                 request "employer_profiles" insert_stmt
                   (exec_insert (uuid w) user values timestamp) w);
          match error r with
          | Some insertError => console_error "Insert error:";; throw insertError
          | None => mret tt
          end
      end
  end
  end.

(** The world holds no list of employer profiles on screen, so there is
    none to mark or to refetch: the invalidation is logged. *)
Definition invalidate_employerProfiles : Async unit :=
  emit (InvalidateQueries "employerProfiles").

Definition success_toast (profile : option EmployerProfile.t) : Event :=
  Toast "Success"
    (match profileFormUtils.profile_id profile with
     | Some _ => "Profile updated successfully"
     | None => "Profile created successfully"
     end)
    false.

Definition onSubmit (values : profileFormUtils.ProfileFormData)
    (profile : option EmployerProfile.t) (ui : UiState) : Async UiState :=
  try_catch
    (write values profile;;
     invalidate_employerProfiles;;
     emit (success_toast profile);;
     mret (onCancel ui))
    (fun e =>
       console_error "Detailed error:";;
       toast "Error" (describe e) true;;
       mret ui).
End Form.

End ProfileForm.

(** ** [UploadJD] *)
Module UploadJD.

(** The text of the panel: a JavaScript string, as its UTF-16 code
    units. *)
Definition Text : Type := list N.

(** An ASCII string as such a text. *)
Definition of_ascii (s : string) : Text :=
  List.map N_of_ascii (list_ascii_of_string s).

Record File : Type := mkFile {
  name : string;
  type : string;
  content : Text                  (* what [file.text()] resolves to *)
}.

(** The three [useState] cells of the component. *)
Record State : Type := mkState {
  file : option File;
  textInput : Text;
  isProcessing : bool
}.

Definition allowedFileTypes : list string :=
  ["application/pdf";
   "application/msword";
   "application/vnd.openxmlformats-officedocument.wordprocessingml.document";
   "text/plain"].

(** [allowedFileTypes.includes(t)] *)
Definition includes (t : string) (l : list string) : bool :=
  existsb (String.eqb t) l.

(** The code units [String.prototype.trim] strips: the white space and
    the line terminators of the language (tab, line feed, vertical tab,
    form feed, carriage return, space, no-break space, U+1680, U+2000 to
    U+200A, U+2028, U+2029, U+202F, U+205F, U+3000 and U+FEFF). *)
Definition is_white_space (c : N) : bool :=
  existsb (N.eqb c)
    [9; 10; 11; 12; 13; 32; 160; 5760; 8232; 8233; 8239; 8287; 12288;
     65279]%N
  || ((8192 <=? c)%N && (c <=? 8202)%N).

(** [s.trim()] *)
Fixpoint trim_start (s : Text) : Text :=
  match s with
  | [] => []
  | c :: s' => if is_white_space c then trim_start s' else s
  end.

Fixpoint trim_end (s : Text) : Text :=
  match s with
  | [] => []
  | c :: s' =>
      match trim_end s' with
      | [] => if is_white_space c then [] else [c]
      | t => c :: t
      end
  end.

Definition trim (s : Text) : Text := trim_end (trim_start s).

(** [!!s] for a text: only the empty one is falsy. *)
Definition truthy (s : Text) : bool :=
  match s with
  | [] => false
  | _ :: _ => true
  end.

Definition set_isProcessing (b : bool) (s : State) : State :=
  mkState (file s) (textInput s) b.

Definition handleFileChange (selectedFile : option File) (s : State)
    : Async State :=
  match selectedFile with
  | None => mret s
  | Some f =>
      if negb (includes (type f) allowedFileTypes) then
        toast "Invalid file type"
          "Please upload a PDF, Word document, or text file" true;;
        mret s
      else mret (mkState (Some f) [] (isProcessing s))
  end.

(** (The handler also empties the file input of the page, which is not
    part of the state.) *)
Definition handleTextInputChange (value : Text) (s : State) : State :=
  mkState None value (isProcessing s).

Section Services.
(** The storage upload and the ingestion of [jobDescriptionService]. *)
Variable uploadFileToStorage : File -> Async unit.
Variable processJobDescription :
  Text -> option string -> option string -> Async unit.

Definition handleUpload (s : State) : Async State :=
  match file s with
  | None =>
      toast "No file selected" "Please select a file to upload" true;;
      mret s
  | Some f =>
      s' ← try_catch
             (uploadFileToStorage f;;
              processJobDescription (content f) (Some (name f))
                (Some (type f));;
              toast "Success" "Job description processed successfully"
                false;;
              mret (mkState None [] true))
             (fun _ =>
                console_error "Upload error:";;
                toast "Error" "Failed to upload and process job description"
                  true;;
                mret (set_isProcessing true s));
      mret (set_isProcessing false s')
  end.

Definition handleTextSubmit (s : State) : Async State :=
  if negb (truthy (trim (textInput s))) then
    toast "No text entered" "Please enter a job description" true;;
    mret s
  else
    s' ← try_catch
           (processJobDescription (textInput s) None None;;
            toast "Success" "Job description processed successfully" false;;
            mret (mkState (file s) [] true))
           (fun _ =>
              console_error "Processing error:";;
              toast "Error" "Failed to process job description" true;;
              mret (set_isProcessing true s));
    mret (set_isProcessing false s').
End Services.

End UploadJD.

(** ** [SearchTab]: the search button and the table rows *)
Module SearchTabView.

Record Candidate : Type := mkCandidate {
  id : string;
  name : string;
  role : string;
  experience : string;
  location : string;
  skills : list string;
  availability : string
}.

(** [searchTerm], [isSearching] and the data of the query. *)
Record State : Type := mkState {
  searchTerm : string;
  isSearching : bool;
  searchResults : option (list CvMetadata.t)
}.

(** [refetch()] of a query with [retry: false]: it runs the query function
    once; a failure sets the error of the query and keeps its data, and
    the promise rejects only when asked to ([throwOnError]). *)
Definition refetch (throwOnError : bool) (s : State) : Async State :=
  fun w =>
    match SearchTab.searchCandidates (searchTerm s) w with
    | (Returned rows, w') =>
        (Returned (mkState (searchTerm s) (isSearching s) (Some rows)), w')
    | (Thrown e, w') =>
        if throwOnError then (Thrown e, w') else (Returned s, w')
    end.

Definition set_isSearching (b : bool) (s : State) : State :=
  mkState (searchTerm s) b (searchResults s).

Section Search.
(** Whether the [refetch] of the query library rejects when the query
    function throws; called without options, as here, current versions
    resolve. *)
Variable throwOnError : bool.
(** [error instanceof Error], for the errors of the client. *)
Variable instanceof_Error : Err -> bool.

Definition handleTalentSearch (s : State) : Async State :=
  if negb (Js.truthy_string (searchTerm s)) then
    toast "Error" "Please enter a search query" true;;
    mret s
  else
    s' ← try_catch
           (s1 ← refetch throwOnError (set_isSearching true s);
            toast "Success" "Search completed successfully" false;;
            mret s1)
           (fun e =>
              toast "Error"
                (match e with
                 | JsError m => m
                 | _ =>
                     if instanceof_Error e then ProfileForm.message e
                     else "Failed to search for talent"
                 end)
                true;;
              mret (set_isSearching true s));
    mret (set_isSearching false s').
End Search.

Section Format.
(** [normalizeSkills] of [candidateUtils]. *)
Variable normalizeSkills : sqlval -> list string.

(** [`${n} years`] *)
Definition years (n : Z) : string := pretty n +:+ " years".

Definition format (r : CvMetadata.t) : Candidate :=
  mkCandidate
    (CvMetadata.id r)
    (match CvMetadata.name r with
     | Some n => if Js.truthy_string n then n else "Unknown"
     | None => "Unknown"
     end)
    "Not specified"
    (match CvMetadata.experience r with
     | Some n => if (n =? 0)%Z then "Not specified" else years n
     | None => "Not specified"
     end)
    (match CvMetadata.location r with
     | Some l => if Js.truthy_string l then l else "Not specified"
     | None => "Not specified"
     end)
    (normalizeSkills (CvMetadata.skills r))
    "Not specified".

(** [searchResults?.map(...) || []] *)
Definition formattedResults (searchResults : option (list CvMetadata.t))
    : list Candidate :=
  match searchResults with
  | Some rows => List.map format rows
  | None => []
  end.
End Format.

End SearchTabView.

(** ** Concrete worlds *)
Module Scenario.

Definition uuid (n : nat) : string := "row-" +:+ pretty n.

Definition match1 : CvMatch.t := CvMatch.mk "m1" (Some "u1") [].
Definition match2 : CvMatch.t := CvMatch.mk "m2" (Some "u2") [].
Definition match3 : CvMatch.t := CvMatch.mk "m3" (Some "u1") [].

Definition profile1 : EmployerProfile.t :=
  EmployerProfile.mk "p1" (Some "u1") "Acme" "R-1" "SG" "SG" "IT" "Software"
    "SaaS" "Ann" "CTO" "ann@acme.example" "6500000000" None
    false false 100%Z (Some 5%Z) (Some 5%Z).

Definition jdA : JobDescription.t :=
  JobDescription.mk "JD-A" (Some "u1") "Senior Engineer" "Acme" "Singapore"
    "text A" "req A" "ben A" (Some "p1") None 10%Z.
Definition jdB : JobDescription.t :=
  JobDescription.mk "JD-B" (Some "u1") "Designer" "Acme" "Singapore"
    "text B" "req B" "ben B" None None 20%Z.
Definition jdC : JobDescription.t :=
  JobDescription.mk "JD-C" (Some "u2") "Analyst" "Globex" "Penang"
    "text C" "req C" "ben C" None None 15%Z.

Definition bob : CvMetadata.t :=
  CvMetadata.mk "c1" (Some "Bob") (Some 4%Z) (Some "Singapore") SNull.
Definition alice : CvMetadata.t :=
  CvMetadata.mk "c2" (Some "Alice Tan") None None SNull.

Definition store : Db :=
  mkDb [match1; match2; match3] [jdA; jdB; jdC] [profile1] [bob; alice] 0.

(** Nobody at the prompt, a transport without faults, an empty cache. *)
Definition world : World :=
  mkWorld store (Some "u1") [] [] 100%Z uuid ∅ [].

Definition values : profileFormUtils.ProfileFormData :=
  profileFormUtils.mkForm "Acme Pte Ltd" "R-1" "SG" "SG" "IT" "Software"
    "SaaS" "Ann" "CTO" "ann@acme.example" "6500000000" None.

(** The same store with user u2 signed in, who has no profile yet. *)
Definition world_u2 : World :=
  mkWorld store (Some "u2") [] [] 100%Z uuid ∅ [].

(** User u1 again, with the lookup of the existing profile lost on the
    way (the call to the identity service before it is delivered). *)
Definition world_lookup_lost : World :=
  with_net [Deliver; Fail (TransportError "timeout")] world.

(** A profile with an alternate contact. *)
Definition profile2 : EmployerProfile.t :=
  EmployerProfile.mk "p2" (Some "u2") "Globex" "R-2" "MY" "Penang" "IT"
    "Hardware" "Chips" "Ben" "COO" "ben@globex.example" "6041234567"
    (Some (EmployerProfile.mkAlt (Some "Cy") None
             (Some "cy@globex.example") (Some "6047654321")))
    true true 80%Z (Some 8%Z) (Some 9%Z).

(** User u2 signed in, with that verified profile as the only row. *)
Definition world_verified : World :=
  mkWorld (mkDb [] [] [profile2] [] 0) (Some "u2") [] [] 100%Z uuid ∅ [].

(** Nobody signed in. *)
Definition world_signed_out : World :=
  mkWorld store None [] [] 100%Z uuid ∅ [].

(** The operator confirms the next prompt. *)
Definition confirming : World := with_operator [true] world.

(** The operator declines it. *)
Definition declining : World := with_operator [false] world.

(** The list of u1 is on screen and the operator is about to confirm;
    the next request will be delivered and the one after it lost. *)
Definition listed : World :=
  after (useJobDescriptions.jobDescriptions (Some "u1")) confirming.
Definition listed_refetch_lost : World :=
  with_net [Deliver; Fail (TransportError "timeout")] listed.

(** The operator confirms and the service answers with an error. *)
Definition confirming_refused : World :=
  with_net [Fail (TransportError "permission denied")] confirming.

End Scenario.

(** ** Vocabulary of the properties *)

(** The notifications of [handleClearMatches]. *)
Definition cleared_toast : Event :=
  Toast "Matches cleared"
    "All your matches have been cleared from the table and database." false.
Definition clear_failed_toast : Event :=
  Toast "Error" "Failed to clear matches. Please try again." true.

(** Newest first by creation time. *)
Definition newer_first (a b : JobDescription.t) : Prop :=
  (JobDescription.created_at b <= JobDescription.created_at a)%Z.

Definition owned_by (u : string) (r : JobDescription.t) : bool :=
  bool_decide (JobDescription.user_id r = Some u).


(** The six columns it does send. *)
Definition same_mutable_columns (src new : JobDescription.t) : Prop :=
  JobDescription.job_title new = JobDescription.job_title src
  /\ JobDescription.company_name new = JobDescription.company_name src
  /\ JobDescription.location new = JobDescription.location src
  /\ JobDescription.original_text new = JobDescription.original_text src
  /\ JobDescription.job_requirements new
     = JobDescription.job_requirements src
  /\ JobDescription.benefits new = JobDescription.benefits src.


(** The rows keyed by the id of [jd] carry its six mutable columns. *)
Definition update_written (jd new : JobDescription.t) : Prop :=
  JobDescription.id new = JobDescription.id jd -> same_mutable_columns jd new.

(** The relations other than [job_descriptions]. *)
Definition same_other_relations (d d' : Db) : Prop :=
  cv_match d' = cv_match d
  /\ employer_profiles d' = employer_profiles d
  /\ cv_metadata d' = cv_metadata d.

(** The events of [handleUpdate] and [handleDelete]. *)
Definition update_request (jd : JobDescription.t) : Event :=
  Request "job_descriptions"
    (Update useJobDescriptions.updateData_columns
       (F_eq "id" (JobDescription.id jd))).
Definition update_ok_toast : Event :=
  Toast "Success" "Job description updated successfully" false.
Definition update_failed_toast : Event :=
  Toast "Error" "Failed to update job description" true.
Definition delete_prompt : Event :=
  ConfirmPrompt "Are you sure you want to delete this job description?".
Definition delete_request (jobId : string) : Event :=
  Request "job_descriptions" (Delete (F_eq "id" jobId)).
Definition delete_ok_toast : Event :=
  Toast "Success" "Job description deleted successfully" false.
Definition delete_failed_toast : Event :=
  Toast "Error" "Failed to delete job description" true.

(** The operator confirms at the next prompt. *)
Definition confirms (w : World) : bool :=
  match operator w with
  | true :: _ => true
  | _ => false
  end.

(** The next request is delivered. *)
Definition delivers (w : World) : bool :=
  match net w with
  | [] | Deliver :: _ => true
  | Fail _ :: _ | Reject _ :: _ => false
  end.

(** A record the candidate search may return for a term: it has a name,
    the name matches the pattern built from the term, and for a term
    without pattern characters that means the name contains the term,
    case ignored. *)
Definition search_hit (searchTerm : string) (r : CvMetadata.t) : Prop :=
  exists name : string,
    CvMetadata.name r = Some name
    /\ Like.ilike (SearchTab.search_pattern searchTerm) name = true
    /\ (Like.has_meta searchTerm = false -> Like.infix_ci searchTerm name).

(** At most one employer profile per user. *)
Definition one_profile_per_user (rows : list EmployerProfile.t) : Prop :=
  forall u : string, (profileFormUtils.count_user u rows <= 1)%nat.

(** What [saveProfile] may have done to [employer_profiles] for the user
    [u]: nothing; an update in place of the rows with the id of the profile
    it was given or, given none, with the id of a row that user already
    had; or the insert of a first row for a user who had none. *)
Inductive profile_write (u : string)
    (values : profileFormUtils.ProfileFormData)
    (profile : option EmployerProfile.t) (w : World)
    (rows' : list EmployerProfile.t) : Prop :=
| NothingWritten :
    rows' = employer_profiles (db w) ->
    profile_write u values profile w rows'
| UpdatedGiven (id : string) :
    profileFormUtils.profile_id profile = Some id ->
    rows' =
      update_where (F_eq "id" id)
        (profileFormUtils.apply_profileData u values (now w))
        (employer_profiles (db w)) ->
    profile_write u values profile w rows'
| UpdatedExisting (existing : EmployerProfile.t) :
    profileFormUtils.profile_id profile = None ->
    In existing (employer_profiles (db w)) ->
    EmployerProfile.user_id existing = Some u ->
    rows' =
      update_where (F_eq "id" (EmployerProfile.id existing))
        (profileFormUtils.apply_profileData u values (now w))
        (employer_profiles (db w)) ->
    profile_write u values profile w rows'
| InsertedFirst :
    profileFormUtils.profile_id profile = None ->
    profileFormUtils.count_user u (employer_profiles (db w)) = 0%nat ->
    rows' =
      employer_profiles (db w) ++
      [profileFormUtils.new_profile (uuid w (generated (db w))) u values
         (now w)] ->
    profile_write u values profile w rows'.

(** The world right after a request was sent, before the database ran it. *)
Definition sent (relation : string) (stmt : Statement) (w : World) : World :=
  with_net (tail (net w)) (with_log (log w ++ [Request relation stmt]) w).

(** The rows [saveProfile] asks the database to end up with, for user [u]
    on a transport that delivers. *)
Definition attempted_write (u : string)
    (values : profileFormUtils.ProfileFormData)
    (profile : option EmployerProfile.t) (w : World)
    : list EmployerProfile.t :=
  let rows := employer_profiles (db w) in
  let set := profileFormUtils.apply_profileData u values (now w) in
  match profileFormUtils.profile_id profile with
  | Some id => update_where (F_eq "id" id) set rows
  | None =>
      match data (fst (profileFormUtils.exec_maybeSingle u (db w))) with
      | Some existing =>
          update_where (F_eq "id" (EmployerProfile.id existing)) set rows
      | None =>
          rows ++
          [profileFormUtils.new_profile (uuid w (generated (db w))) u values
             (now w)]
      end
  end.

(** Every row with this id is a row of user [u]. *)
Definition owns_id (u id : string) (rows : list EmployerProfile.t) : Prop :=
  forall r : EmployerProfile.t,
    In r rows -> EmployerProfile.id r = id ->
    EmployerProfile.user_id r = Some u.

(** The query cache agrees with the store: a list it holds under a user
    id and that has not been invalidated is what the list query would
    fetch for that user now. *)
Definition cache_coherent (w : World) : Prop :=
  forall (u : string) (q : Query.t),
    queryCache w !! u = Some q ->
    Query.isInvalidated q = false ->
    Query.data q = useJobDescriptions.listing u (db w).

(** The list of user [u] as a fetch from store [d] leaves it in the cache. *)
Definition fresh_list (u : string) (d : Db) : Query.t :=
  Query.mk (useJobDescriptions.listing u d) false.

(** The requests by which the lists on screen are refetched after an
    invalidation: one for each cached list whose user id enables the
    query, in the order of the cache. *)
Definition refetch_requests (w : World) : list Event :=
  List.map
    (fun u => Request "job_descriptions" (useJobDescriptions.list_select u))
    (List.filter Js.truthy_string (cached_keys w)).

(** A world with further events in its log. *)
Definition logged (evs : list Event) (w : World) : World :=
  with_log (log w ++ evs) w.

(** The world the invalidation of the lists leaves: every cached list
    marked, the invalidation logged, and the lists on screen refetched. *)
Definition invalidated (w : World) : World :=
  with_queryCache (Query.invalidate <$> queryCache w)
    (logged [InvalidateQueries "jobDescriptions"] w).

Definition refetched (w : World) : World :=
  after (refetch_each useJobDescriptions.refetch (cached_keys w))
    (invalidated w).

(** ** Vocabulary of the further properties *)

(** A match that is not one of user [u]'s. *)
Definition not_of (u : string) (r : CvMatch.t) : bool :=
  negb (bool_decide (CvMatch.user_id r = Some u)).

(** The ids of the job descriptions a list shows, in the order shown. *)
Definition shown_ids (rows : list JobDescriptionView.t) : list string :=
  List.map (fun v => JobDescription.id (JobDescriptionView.item v)) rows.

(** No job description has this id. *)
Definition no_job_with (id : string) (d : Db) : Prop :=
  forall r : JobDescription.t,
    In r (job_descriptions d) -> JobDescription.id r <> id.

(** A profile listed before another shows a creation time that is not
    older. *)
Definition shown_newer_first (a b : EmployerProfile.t) : Prop :=
  match EmployerProfile.created_at a, EmployerProfile.created_at b with
  | Some x, Some y => (y <= x)%Z
  | _, _ => False
  end.

(** No stored creation time lies after [today]. *)
Definition none_created_after (today : Z) (rows : list EmployerProfile.t)
    : Prop :=
  forall (r : EmployerProfile.t) (t : Z),
    In r rows -> EmployerProfile.created_at r = Some t -> (t <= today)%Z.

(** The order the database sorts the stored rows in. *)
Definition stored_newer_first (a b : EmployerProfile.t) : Prop :=
  useEmployerProfile.not_older (EmployerProfile.created_at a)
    (EmployerProfile.created_at b) = true.

(** Events that are neither a notification nor a cache invalidation. *)
Definition quiet (e : Event) : bool :=
  match e with
  | Toast _ _ _ | InvalidateQueries _ => false
  | _ => true
  end.

Section FormVocabulary.
Variable default_alternate_contact : option EmployerProfile.AlternateContact.
Variable default_is_verified : bool.
Variable default_is_approved : bool.
Variable default_profile_completion : Z.

(** The rows the submit handler of the form asks the database for, for
    user [u]: the rows of the profile's id rewritten, or a new row. *)
Definition form_write (u : string)
    (values : profileFormUtils.ProfileFormData)
    (profile : option EmployerProfile.t) (w : World)
    : list EmployerProfile.t :=
  match profileFormUtils.profile_id profile with
  | Some id =>
      update_where (F_eq "id" id)
        (ProfileForm.apply_profileData u values (now w))
        (employer_profiles (db w))
  | None =>
      employer_profiles (db w) ++
      [ProfileForm.new_profile default_alternate_contact default_is_verified
         default_is_approved default_profile_completion
         (uuid w (generated (db w))) u values (now w)]
  end.
End FormVocabulary.

(** What an update leaves alone in a profile: its id, its verification
    and approval, its completion and its creation time. *)
Definition same_standing (old new : EmployerProfile.t) : Prop :=
  EmployerProfile.id new = EmployerProfile.id old
  /\ EmployerProfile.is_verified new = EmployerProfile.is_verified old
  /\ EmployerProfile.is_approved new = EmployerProfile.is_approved old
  /\ EmployerProfile.profile_completion new
     = EmployerProfile.profile_completion old
  /\ EmployerProfile.created_at new = EmployerProfile.created_at old.

(** A profile as [saveProfile] writes it: unverified, unapproved, complete. *)
Definition reset_standing (r : EmployerProfile.t) : Prop :=
  EmployerProfile.is_verified r = false
  /\ EmployerProfile.is_approved r = false
  /\ EmployerProfile.profile_completion r = 100%Z.

(** The state of the upload panel is well formed: a file and a text are
    never held together, and a held file has an allowed type. *)
Definition upload_well_formed (s : UploadJD.State) : Prop :=
  (UploadJD.file s = None \/ UploadJD.textInput s = [])
  /\ forall f : UploadJD.File,
       UploadJD.file s = Some f ->
       UploadJD.includes (UploadJD.type f) UploadJD.allowedFileTypes = true.

(** The white space and the line terminators of JavaScript, as code
    units: the characters of its lexical grammar, then the space
    separators U+2000 to U+200A. *)
Definition white_space : list N :=
  [9; 10; 11; 12; 13; 32; 160; 5760; 8232; 8233; 8239; 8287; 12288;
   65279]%N
  ++ [8192; 8193; 8194; 8195; 8196; 8197; 8198; 8199; 8200; 8201; 8202]%N.

(** A text made of white space only. *)
Definition blank (s : UploadJD.Text) : bool :=
  forallb (fun c => existsb (N.eqb c) white_space) s.

(** The notifications of the upload panel and of the search button. *)
Definition no_file_toast : Event :=
  Toast "No file selected" "Please select a file to upload" true.
Definition no_text_toast : Event :=
  Toast "No text entered" "Please enter a job description" true.
Definition upload_failed_toast : Event :=
  Toast "Error" "Failed to upload and process job description" true.
Definition search_done_toast : Event :=
  Toast "Success" "Search completed successfully" false.
Definition no_query_toast : Event :=
  Toast "Error" "Please enter a search query" true.

Definition upload_ok_toast : Event :=
  Toast "Success" "Job description processed successfully" false.
Definition process_failed_toast : Event :=
  Toast "Error" "Failed to process job description" true.

(** * Properties *)

(** ** Running a hook by hand *)

Ltac run_hook :=
  unfold result, after, events, try_catch, request, toast, console_error,
    emit, confirm, invalidateQueries, throw, mbind, mret,
    Async_bind, Async_ret in *;
  cbn in *.

Ltac log_tail :=
  repeat rewrite <- app_assoc; cbn [app]; apply drop_app_length.

Lemma fault_free_cons (w : World) (t : Transport) (rest : list Transport) :
  fault_free w -> net w = t :: rest -> t = Deliver /\ Forall (fun t => t = Deliver) rest.
Proof.
  unfold fault_free. intros Hff Hnet. rewrite Hnet in Hff.
  inversion Hff; subst. split; [reflexivity | assumption].
Qed.

(** ** Filters against the columns they name *)

Lemma holds_eq_user_id_cv_match (u : string) (r : CvMatch.t) :
  holds (F_eq "user_id" u) r = bool_decide (CvMatch.user_id r = Some u).
Proof.
  unfold holds, column, CvMatch.relation. cbn.
  destruct (CvMatch.user_id r) as [v |]; cbn.
  - destruct (String.eqb_spec v u) as [-> | Hne].
    + symmetry. apply bool_decide_eq_true. reflexivity.
    + symmetry. apply bool_decide_eq_false. congruence.
  - symmetry. apply bool_decide_eq_false. congruence.
Qed.

Lemma holds_not_is_null_id_cv_match (r : CvMatch.t) :
  holds (F_not_is_null "id") r = true.
Proof. reflexivity. Qed.

Lemma delete_where_not_is_null_id (rows : list CvMatch.t) :
  delete_where (F_not_is_null "id") rows = [].
Proof.
  unfold delete_where. induction rows as [| r rows IH]; [reflexivity |].
  cbn [List.filter]. rewrite holds_not_is_null_id_cv_match. exact IH.
Qed.

Lemma filter_filter_negb {A : Type} (p : A -> bool) (l : list A) :
  List.filter p (List.filter (fun x => negb (p x)) l) = [].
Proof.
  induction l as [| x l IH]; [reflexivity |].
  cbn [List.filter]. destruct (p x) eqn:Hp; cbn [negb List.filter].
  - exact IH.
  - rewrite Hp. exact IH.
Qed.

Lemma filter_ext_bool {A : Type} (p q : A -> bool) (l : list A) :
  (forall x, p x = q x) -> List.filter p l = List.filter q l.
Proof.
  intros Hpq. induction l as [| x l IH]; [reflexivity |].
  cbn [List.filter]. rewrite Hpq, IH. reflexivity.
Qed.

Lemma matches_of_delete_eq (u : string) (rows : list CvMatch.t) :
  List.filter (fun r => bool_decide (CvMatch.user_id r = Some u))
    (delete_where (F_eq "user_id" u) rows) = [].
Proof.
  unfold delete_where.
  rewrite (filter_ext_bool _ (holds (F_eq "user_id" u))).
  - apply filter_filter_negb.
  - intros r. symmetry. apply holds_eq_user_id_cv_match.
Qed.

Lemma delete_where_idempotent {Row : Type} `{Relation Row}
    (f : Filter) (rows : list Row) :
  delete_where f (delete_where f rows) = delete_where f rows.
Proof.
  unfold delete_where. induction rows as [| r rows IH]; [reflexivity |].
  cbn [List.filter]. destruct (holds f r) eqn:Hr; cbn [negb].
  - exact IH.
  - cbn [List.filter]. rewrite Hr. cbn [negb]. f_equal. exact IH.
Qed.

(** The two ways a request can go. *)
Lemma request_delivered {A : Type} (relation : string) (stmt : Statement)
    (exec : Db -> Reply A * Db) (w : World) :
  delivers w = true ->
  request relation stmt exec w =
  (Returned (fst (exec (db w))),
   with_db (snd (exec (db w))) (sent relation stmt w)).
Proof.
  unfold delivers, request, sent. destruct w as [d s n o t g c l]. cbn.
  destruct n as [| [| e | e] rest]; try discriminate; intros _;
    destruct (exec d); reflexivity.
Qed.

Lemma request_failed {A : Type} (relation : string) (stmt : Statement)
    (exec : Db -> Reply A * Db) (w : World) :
  delivers w = false ->
  exists e : Err,
    request relation stmt exec w =
      (Returned (mkReply None (Some e)), sent relation stmt w)
    \/ request relation stmt exec w = (Thrown e, sent relation stmt w).
Proof.
  unfold delivers, request, sent. destruct w as [d s n o t g c l]. cbn.
  destruct n as [| [| e | e] rest]; try discriminate; intros _; exists e;
    [left | right]; reflexivity.
Qed.

Lemma fault_free_match {A : Type} (w : World) (x y : A) :
  fault_free w ->
  match net w with
  | [] | Deliver :: _ => x
  | Fail _ :: _ | Reject _ :: _ => y
  end = x.
Proof.
  intros Hff. destruct (net w) as [| t rest] eqn:Hn; [reflexivity |].
  destruct (fault_free_cons w t rest Hff Hn) as [-> _]. reflexivity.
Qed.

Lemma fault_free_delivers (w : World) : fault_free w -> delivers w = true.
Proof.
  unfold fault_free, delivers. intros Hff.
  destruct (net w) as [| t rest]; [reflexivity |].
  inversion Hff; subst. reflexivity.
Qed.

Lemma fault_free_next (w w1 : World) :
  net w1 = tail (net w) -> fault_free w -> fault_free w1.
Proof.
  unfold fault_free. intros -> Hff.
  destruct (net w) as [| t rest]; cbn; [constructor |].
  inversion Hff; assumption.
Qed.

(** ** [useShortlists]: clearing the matches *)

Lemma clear_filter_clears (u : string) (rows : list CvMatch.t) :
  List.filter (fun r => bool_decide (CvMatch.user_id r = Some u))
    (delete_where (useShortlists.clear_filter (Some u)) rows) = [].
Proof.
  unfold useShortlists.clear_filter. destruct (Js.truthy_string u).
  - apply matches_of_delete_eq.
  - rewrite delete_where_not_is_null_id. reflexivity.
Qed.

(** What one call does, for any scope and any behaviour of the transport. *)
Lemma handleClearMatches_run (userId : option string) (w : World) :
  let m := useShortlists.handleClearMatches userId in
  let query := useShortlists.clear_filter userId in
  match net w with
  | [] | Deliver :: _ =>
      result m w = Returned tt
      /\ db (after m w) =
         with_cv_match (delete_where query (cv_match (db w))) (db w)
      /\ net (after m w) = tail (net w)
      /\ events m w =
         [Request "cv_match" (Delete query); ClearMatchesCore; cleared_toast]
  | Fail _ :: rest | Reject _ :: rest =>
      result m w = Returned tt
      /\ db (after m w) = db w
      /\ net (after m w) = rest
      /\ events m w =
         [Request "cv_match" (Delete query);
          ConsoleError "Error clearing matches:"; clear_failed_toast]
  end.
Proof.
  cbv zeta. unfold useShortlists.handleClearMatches.
  destruct w as [d s n o t g c l]. destruct n as [| [| e | e] rest];
    run_hook; repeat split; log_tail.
Qed.

(** C1, as the code has it: without a user id the delete is sent with the
    filter "id is not null".  Delivered, it removes every row of [cv_match],
    whoever owns it, resets the matching state and reports success;
    an error is reported only when the transport fails, and then the
    relation is as it was. *)
Theorem handleClearMatches_without_user (w : World) :
  let m := useShortlists.handleClearMatches None in
  match net w with
  | [] | Deliver :: _ =>
      cv_match (db (after m w)) = []
      /\ events m w =
         [Request "cv_match" (Delete (F_not_is_null "id"));
          ClearMatchesCore; cleared_toast]
  | Fail _ :: _ | Reject _ :: _ =>
      db (after m w) = db w
      /\ events m w =
         [Request "cv_match" (Delete (F_not_is_null "id"));
          ConsoleError "Error clearing matches:"; clear_failed_toast]
  end.
Proof.
  cbv zeta. pose proof (handleClearMatches_run None w) as H. cbv zeta in H.
  destruct (net w) as [| [| e | e] rest]; cbn in H;
    destruct H as (_ & Hdb & _ & Hev); rewrite Hdb, Hev; split;
    try reflexivity; cbn; apply delete_where_not_is_null_id.
Qed.

(** C1, as stated, fails: with no user id and matches of two users in the
    relation, the call deletes the rows of both and surfaces no error. *)
Lemma handleClearMatches_without_user_deletes_all :
  let m := useShortlists.handleClearMatches None in
  cv_match (db Scenario.world) =
    [Scenario.match1; Scenario.match2; Scenario.match3]
  /\ cv_match (db (after m Scenario.world)) = []
  /\ events m Scenario.world =
     [Request "cv_match" (Delete (F_not_is_null "id"));
      ClearMatchesCore; cleared_toast].
Proof. vm_compute. repeat split. Qed.

(** C4: with a transport that delivers, two calls in a row for the same
    user leave that user without matches after the first and after the
    second; the second leaves the store as the first left it and ends
    with the success notification, not with an error. *)
Theorem handleClearMatches_twice (u : string) (w : World) :
  fault_free w ->
  let m := useShortlists.handleClearMatches (Some u) in
  let w1 := after m w in
  let w2 := after m w1 in
  useShortlists.matches_of u (db w1) = []
  /\ useShortlists.matches_of u (db w2) = []
  /\ db w2 = db w1
  /\ result m w1 = Returned tt
  /\ events m w1 =
     [Request "cv_match" (Delete (useShortlists.clear_filter (Some u)));
      ClearMatchesCore; cleared_toast].
Proof.
  intros Hff. cbv zeta.
  set (m := useShortlists.handleClearMatches (Some u)).
  pose proof (handleClearMatches_run (Some u) w) as H1. cbv zeta in H1.
  fold m in H1.
  assert (Hfirst :
            db (after m w) =
              with_cv_match
                (delete_where (useShortlists.clear_filter (Some u))
                   (cv_match (db w))) (db w)
            /\ net (after m w) = tail (net w)).
  { destruct (net w) as [| t rest] eqn:Hn.
    - destruct H1 as (_ & Hdb & Hnet & _). split; assumption.
    - destruct (fault_free_cons w t rest Hff Hn) as [-> _].
      destruct H1 as (_ & Hdb & Hnet & _). split; assumption. }
  destruct Hfirst as [Hdb1 Hnet1].
  assert (Hff1 : fault_free (after m w)).
  { unfold fault_free in *. rewrite Hnet1.
    destruct (net w) as [| t rest]; cbn; [constructor |].
    inversion Hff; assumption. }
  assert (Hempty1 : useShortlists.matches_of u (db (after m w)) = []).
  { unfold useShortlists.matches_of. rewrite Hdb1. cbn.
    apply clear_filter_clears. }
  pose proof (handleClearMatches_run (Some u) (after m w)) as H2.
  cbv zeta in H2. fold m in H2.
  assert (Hsecond :
            result m (after m w) = Returned tt
            /\ db (after m (after m w)) =
               with_cv_match
                 (delete_where (useShortlists.clear_filter (Some u))
                    (cv_match (db (after m w)))) (db (after m w))
            /\ events m (after m w) =
               [Request "cv_match"
                  (Delete (useShortlists.clear_filter (Some u)));
                ClearMatchesCore; cleared_toast]).
  { destruct (net (after m w)) as [| t rest] eqn:Hn.
    - destruct H2 as (Hr & Hdb & _ & Hev). repeat split; assumption.
    - destruct (fault_free_cons _ t rest Hff1 Hn) as [-> _].
      destruct H2 as (Hr & Hdb & _ & Hev). repeat split; assumption. }
  destruct Hsecond as (Hr2 & Hdb2 & Hev2).
  assert (Hsame : db (after m (after m w)) = db (after m w)).
  { rewrite Hdb2. rewrite Hdb1 at 1. cbn [cv_match with_cv_match].
    rewrite delete_where_idempotent. rewrite Hdb1.
    destruct (db w); reflexivity. }
  repeat split.
  - exact Hempty1.
  - unfold useShortlists.matches_of. rewrite Hsame. exact Hempty1.
  - exact Hsame.
  - exact Hr2.
  - exact Hev2.
Qed.

Lemma handleClearMatches_twice_witness :
  fault_free Scenario.world
  /\ useShortlists.matches_of "u1" (db Scenario.world)
     = [Scenario.match1; Scenario.match3]
  /\ useShortlists.matches_of "u1"
       (db (after (useShortlists.handleClearMatches (Some "u1"))
              (after (useShortlists.handleClearMatches (Some "u1"))
                 Scenario.world))) = [].
Proof.
  assert (Hff : fault_free Scenario.world) by constructor.
  split; [exact Hff |]. split; [reflexivity |].
  exact (proj1 (proj2 (handleClearMatches_twice "u1" Scenario.world Hff))).
Defined.

(** C8, as the code has it.  The reset is an effect, and an effect runs
    after the render that declared it has been committed.  For any state
    the hook finds, and any setter that stores the text it is given,
    mounting renders twice: first the text held before, then the empty
    text; the state the mount leaves holds the empty text, which is what
    every later render of it returns. *)
Theorem mount_resets_after_first_render
    (State : Type) (jobDescription : State -> string)
    (setJobDescription : string -> State -> State)
    (setJobDescription_stores :
       forall (text : string) (s : State),
         jobDescription (setJobDescription text s) = text)
    (s : State) :
  let m := useShortlists.mount State jobDescription setJobDescription s in
  fst m = [jobDescription s; EmptyString]
  /\ jobDescription (snd m) = EmptyString
  /\ useShortlists.render State jobDescription (snd m) = EmptyString.
Proof.
  cbv zeta. unfold useShortlists.mount, useShortlists.render,
    useShortlists.on_mount. cbn [fst snd].
  rewrite setJobDescription_stores. repeat split.
Qed.

Lemma mount_resets_after_first_render_witness :
  fst (useShortlists.mount string (fun s => s) (fun text _ => text)
         "Senior Engineer wanted")
  = ["Senior Engineer wanted"; EmptyString].
Proof.
  exact (proj1 (mount_resets_after_first_render string (fun s => s)
                  (fun text _ => text) (fun _ _ => eq_refl)
                  "Senior Engineer wanted")).
Defined.

(** C8, as stated, fails: a view opened while the text of a previous
    session is held returns that text from its first render; the text is
    empty only from the second render on. *)
Lemma mount_first_render_presents_old_text :
  let m :=
    useShortlists.mount string (fun s => s) (fun text _ => text)
      "Senior Engineer wanted" in
  hd EmptyString (fst m) = "Senior Engineer wanted"
  /\ hd EmptyString (fst m) <> EmptyString
  /\ List.last (fst m) "Senior Engineer wanted" = EmptyString.
Proof. cbv zeta. cbn. repeat split. discriminate. Qed.

(** ** [useJobDescriptions]: the list query *)

Lemma insert_desc_perm (r : JobDescription.t) (l : list JobDescription.t) :
  Permutation (useJobDescriptions.insert_desc r l) (r :: l).
Proof.
  induction l as [| x l IH]; cbn.
  - reflexivity.
  - destruct (_ <=? _)%Z.
    + reflexivity.
    + rewrite IH. apply perm_swap.
Qed.

Lemma order_desc_perm (l : list JobDescription.t) :
  Permutation (useJobDescriptions.order_desc l) l.
Proof.
  induction l as [| x l IH]; cbn.
  - reflexivity.
  - rewrite insert_desc_perm. constructor. exact IH.
Qed.

Lemma insert_desc_sorted (r : JobDescription.t) (l : list JobDescription.t) :
  StronglySorted newer_first l ->
  StronglySorted newer_first (useJobDescriptions.insert_desc r l).
Proof.
  induction 1 as [| x l Hsorted IH Hall]; cbn.
  - repeat constructor.
  - destruct (Z.leb_spec (JobDescription.created_at x)
                (JobDescription.created_at r)) as [Hle | Hlt].
    + constructor.
      * constructor; assumption.
      * constructor; [exact Hle |].
        eapply Forall_impl; [exact Hall |].
        intros y Hy. unfold newer_first in *. lia.
    + constructor; [exact IH |].
      rewrite (insert_desc_perm r l).
      constructor; [unfold newer_first; lia | exact Hall].
Qed.

Lemma order_desc_sorted (l : list JobDescription.t) :
  StronglySorted newer_first (useJobDescriptions.order_desc l).
Proof.
  induction l as [| x l IH]; cbn.
  - constructor.
  - apply insert_desc_sorted, IH.
Qed.

Lemma holds_eq_user_id_job (u : string) (r : JobDescription.t) :
  holds (F_eq "user_id" u) r = owned_by u r.
Proof.
  unfold holds, column, JobDescription.relation, owned_by. cbn.
  destruct (JobDescription.user_id r) as [v |]; cbn.
  - destruct (String.eqb_spec v u) as [-> | Hne].
    + symmetry. apply bool_decide_eq_true. reflexivity.
    + symmetry. apply bool_decide_eq_false. congruence.
  - symmetry. apply bool_decide_eq_false. congruence.
Qed.

Lemma holds_eq_id_job (i : string) (r : JobDescription.t) :
  holds (F_eq "id" i) r = String.eqb (JobDescription.id r) i.
Proof. reflexivity. Qed.

Lemma transform_id (v : JobDescriptionView.t) :
  useJobDescriptions.transform v = v.
Proof. destruct v as [[] ?]; reflexivity. Qed.

Lemma map_transform (rows : list JobDescriptionView.t) :
  List.map useJobDescriptions.transform rows = rows.
Proof.
  induction rows as [| v rows IH]; cbn; [reflexivity |].
  rewrite transform_id, IH. reflexivity.
Qed.

Lemma items_of_listing (u : string) (d : Db) :
  List.map JobDescriptionView.item (useJobDescriptions.listing u d) =
  useJobDescriptions.order_desc
    (List.filter (owned_by u) (job_descriptions d)).
Proof.
  unfold useJobDescriptions.listing, select_where.
  rewrite List.map_map. cbn. rewrite List.map_id.
  rewrite (filter_ext_bool _ (owned_by u)); [reflexivity |].
  intros r. apply holds_eq_user_id_job.
Qed.

(** The query function on a user id that passes its guard. *)
Lemma queryFn_run (u : string) (w : World) :
  Js.truthy_string u = true ->
  useJobDescriptions.queryFn (Some u) w =
  (match net w with
   | [] | Deliver :: _ => Returned (useJobDescriptions.listing u (db w))
   | Fail e :: _ | Reject e :: _ => Thrown e
   end,
   with_net (tail (net w))
     (with_log
        (log w ++
         [Request "job_descriptions" (useJobDescriptions.list_select u)])
        w)).
Proof.
  intros Hu. unfold useJobDescriptions.queryFn. rewrite Hu.
  destruct w as [d s n o t g c l]. destruct n as [| [| e | e] rest];
    run_hook; rewrite ?map_transform; reflexivity.
Qed.

(** One fetch of the list of a user id that passes the guard. *)
Lemma fetch_run (u : string) (w : World) :
  Js.truthy_string u = true ->
  useJobDescriptions.fetch u w =
  if delivers w then
    (Returned (Some (useJobDescriptions.listing u (db w))),
     with_queryCache (<[u := fresh_list u (db w)]> (queryCache w))
       (sent "job_descriptions" (useJobDescriptions.list_select u) w))
  else
    (Returned None,
     sent "job_descriptions" (useJobDescriptions.list_select u) w).
Proof.
  intros Hu. unfold useJobDescriptions.fetch. rewrite (queryFn_run u w Hu).
  unfold delivers, sent, fresh_list. destruct w as [d s n o t g c l].
  destruct n as [| [| e | e] rest]; reflexivity.
Qed.

(** A read that is not served from the cache. *)
Lemma jobDescriptions_fetch (u : string) (w : World) :
  Js.truthy_string u = true ->
  queryCache w !! u = None ->
  let m := useJobDescriptions.jobDescriptions (Some u) in
  result m w =
    Returned
      match net w with
      | [] | Deliver :: _ => useJobDescriptions.listing u (db w)
      | Fail _ :: _ | Reject _ :: _ => []
      end
  /\ db (after m w) = db w
  /\ events m w =
     [Request "job_descriptions" (useJobDescriptions.list_select u)].
Proof.
  intros Hu Hmiss. cbv zeta.
  unfold events, result, after, useJobDescriptions.jobDescriptions,
    useJobDescriptions.enabled.
  cbn [Js.truthy]. rewrite Hu, Hmiss. unfold mbind, Async_bind.
  rewrite (fetch_run u w Hu). unfold delivers, sent.
  destruct (net w) as [| [| e | e] rest]; cbn;
    repeat split; apply drop_app_length.
Qed.

(** C2: while [userId] is null the list is empty and nothing is sent:
    the call leaves the world as it found it, log included.  The same
    holds for the query function run on its own. *)
Theorem jobDescriptions_without_user (w : World) :
  let m := useJobDescriptions.jobDescriptions None in
  result m w = Returned []
  /\ after m w = w
  /\ events m w = []
  /\ useJobDescriptions.enabled None = false
  /\ useJobDescriptions.queryFn None w = (Returned [], w).
Proof.
  cbv zeta. unfold events, after, result. cbn.
  repeat split. apply drop_all.
Qed.

(** A read that is served from the cache. *)
Lemma jobDescriptions_hit (u : string) (w : World) (q : Query.t) :
  Js.truthy_string u = true ->
  queryCache w !! u = Some q ->
  useJobDescriptions.jobDescriptions (Some u) w
  = (Returned (Query.data q), w).
Proof.
  intros Hu Hhit.
  unfold useJobDescriptions.jobDescriptions, useJobDescriptions.enabled.
  cbn [Js.truthy]. rewrite Hu, Hhit. reflexivity.
Qed.

(** The guard is JavaScript truthiness, so the empty string is treated
    like null: no fetch, an empty list. *)
Lemma jobDescriptions_empty_user_id (w : World) :
  useJobDescriptions.jobDescriptions (Some EmptyString) w = (Returned [], w).
Proof. reflexivity. Qed.

(** C5: for a user id that passes the guard of the query, a read returns
    the job descriptions of that user and no others, each once, newest
    first, provided the read reaches the store over a transport that
    delivers, or is served from a cache that holds what the store holds. *)
Theorem jobDescriptions_own_newest_first (u : string) (w : World) :
  u <> EmptyString ->
  fault_free w ->
  (forall q : Query.t,
     queryCache w !! u = Some q ->
     Query.data q = useJobDescriptions.listing u (db w)) ->
  let m := useJobDescriptions.jobDescriptions (Some u) in
  exists rows : list JobDescriptionView.t,
    result m w = Returned rows
    /\ Permutation (List.map JobDescriptionView.item rows)
         (List.filter (owned_by u) (job_descriptions (db w)))
    /\ StronglySorted newer_first (List.map JobDescriptionView.item rows)
    /\ Forall
         (fun v =>
            JobDescription.user_id (JobDescriptionView.item v) = Some u)
         rows.
Proof.
  intros Hu Hff Hcache. cbv zeta.
  assert (Ht : Js.truthy_string u = true)
    by (destruct u; [congruence | reflexivity]).
  exists (useJobDescriptions.listing u (db w)).
  assert (Hperm :
            Permutation
              (List.map JobDescriptionView.item
                 (useJobDescriptions.listing u (db w)))
              (List.filter (owned_by u) (job_descriptions (db w)))).
  { rewrite items_of_listing. apply order_desc_perm. }
  split; [| split; [exact Hperm | split]].
  - destruct (queryCache w !! u) as [q |] eqn:Hlookup.
    + unfold result. rewrite (jobDescriptions_hit u w q Ht Hlookup).
      cbn. f_equal. apply Hcache. reflexivity.
    + destruct (jobDescriptions_fetch u w Ht Hlookup) as (Hres & _ & _).
      rewrite Hres. rewrite (fault_free_match w _ _ Hff). reflexivity.
  - rewrite items_of_listing. apply order_desc_sorted.
  - apply Forall_forall. intros v Hv.
    assert (Hin : In (JobDescriptionView.item v)
                    (List.filter (owned_by u) (job_descriptions (db w)))).
    { apply (Permutation_in _ Hperm). apply List.in_map.
      apply list_elem_of_In. exact Hv. }
    apply List.filter_In in Hin. destruct Hin as [_ Hown].
    unfold owned_by in Hown. apply bool_decide_eq_true in Hown. exact Hown.
Qed.

Lemma jobDescriptions_own_newest_first_witness :
  exists rows : list JobDescriptionView.t,
    result (useJobDescriptions.jobDescriptions (Some "u1")) Scenario.world
      = Returned rows
    /\ Permutation (List.map JobDescriptionView.item rows)
         [Scenario.jdA; Scenario.jdB]
    /\ StronglySorted newer_first (List.map JobDescriptionView.item rows)
    /\ Forall
         (fun v =>
            JobDescription.user_id (JobDescriptionView.item v) = Some "u1")
         rows.
Proof.
  apply (jobDescriptions_own_newest_first "u1" Scenario.world).
  - discriminate.
  - constructor.
  - intros q Hq. discriminate Hq.
Defined.

(** ** The query cache: refetching after an invalidation *)

(** One refetch, as a function on worlds. *)
Lemma refetch_run (u : string) (w : World) :
  useJobDescriptions.refetch u w =
  (Returned tt,
   if Js.truthy_string u then
     if delivers w then
       with_queryCache (<[u := fresh_list u (db w)]> (queryCache w))
         (sent "job_descriptions" (useJobDescriptions.list_select u) w)
     else sent "job_descriptions" (useJobDescriptions.list_select u) w
   else w).
Proof.
  unfold useJobDescriptions.refetch, useJobDescriptions.enabled.
  cbn [Js.truthy]. destruct (Js.truthy_string u) eqn:Hu; [| reflexivity].
  unfold mbind, Async_bind. rewrite (fetch_run u w Hu).
  destruct (delivers w); reflexivity.
Qed.

Lemma refetch_step (u : string) (w : World) :
  let w' := after (useJobDescriptions.refetch u) w in
  db w' = db w
  /\ session w' = session w
  /\ operator w' = operator w
  /\ log w' =
     log w ++
     (if Js.truthy_string u
      then [Request "job_descriptions" (useJobDescriptions.list_select u)]
      else [])
  /\ net w' = (if Js.truthy_string u then tail (net w) else net w)
  /\ queryCache w' =
     (if Js.truthy_string u && delivers w
      then <[u := fresh_list u (db w)]> (queryCache w)
      else queryCache w).
Proof.
  cbv zeta. unfold after. rewrite refetch_run. cbn [snd].
  destruct (Js.truthy_string u); [destruct (delivers w) |];
    destruct w as [d s n o t g c l]; cbn; rewrite ?app_nil_r;
    repeat split.
Qed.

Lemma refetch_each_cons (k : string) (keys : list string) (w : World) :
  refetch_each useJobDescriptions.refetch (k :: keys) w =
  refetch_each useJobDescriptions.refetch keys
    (after (useJobDescriptions.refetch k) w).
Proof.
  cbn [refetch_each]. unfold mbind, Async_bind, try_catch, after.
  rewrite refetch_run. reflexivity.
Qed.

(** The refetches never throw. *)
Lemma refetch_each_returns (keys : list string) (w : World) :
  refetch_each useJobDescriptions.refetch keys w =
  (Returned tt, after (refetch_each useJobDescriptions.refetch keys) w).
Proof.
  revert w. induction keys as [| k keys IH]; intros w; [reflexivity |].
  unfold after at 1. rewrite refetch_each_cons. rewrite IH at 1.
  reflexivity.
Qed.

(** They leave the store, the session and the operator alone. *)
Lemma refetch_each_frame (keys : list string) (w : World) :
  let w' := after (refetch_each useJobDescriptions.refetch keys) w in
  db w' = db w /\ session w' = session w /\ operator w' = operator w.
Proof.
  cbv zeta. revert w. induction keys as [| k keys IH]; intros w;
    [repeat split |].
  unfold after. rewrite refetch_each_cons. fold (after (refetch_each useJobDescriptions.refetch keys) (after (useJobDescriptions.refetch k) w)).
  destruct (IH (after (useJobDescriptions.refetch k) w)) as (Hd & Hs & Ho).
  destruct (refetch_step k w) as (Hd1 & Hs1 & Ho1 & _).
  rewrite Hd, Hs, Ho, Hd1, Hs1, Ho1. repeat split.
Qed.

(** They send one select for each user id that enables the query. *)
Lemma refetch_each_log (keys : list string) (w : World) :
  log (after (refetch_each useJobDescriptions.refetch keys) w) =
  log w ++
  List.map
    (fun u => Request "job_descriptions" (useJobDescriptions.list_select u))
    (List.filter Js.truthy_string keys).
Proof.
  revert w. induction keys as [| k keys IH]; intros w.
  - cbn. rewrite app_nil_r. reflexivity.
  - unfold after. rewrite refetch_each_cons.
    fold (after (refetch_each useJobDescriptions.refetch keys)
            (after (useJobDescriptions.refetch k) w)).
    rewrite IH. destruct (refetch_step k w) as (_ & _ & _ & Hl & _).
    rewrite Hl. cbn [List.filter].
    destruct (Js.truthy_string k); cbn [List.map];
      rewrite <- app_assoc; reflexivity.
Qed.

Lemma refetch_each_net (keys : list string) (w : World) :
  net (after (refetch_each useJobDescriptions.refetch keys) w) =
  drop (length (List.filter Js.truthy_string keys)) (net w).
Proof.
  revert w. induction keys as [| k keys IH]; intros w; [reflexivity |].
  unfold after. rewrite refetch_each_cons.
  fold (after (refetch_each useJobDescriptions.refetch keys)
          (after (useJobDescriptions.refetch k) w)).
  rewrite IH. destruct (refetch_step k w) as (_ & _ & _ & _ & Hn & _).
  rewrite Hn. cbn [List.filter].
  destruct (Js.truthy_string k); [| reflexivity].
  cbn [length]. destruct (net w); cbn [tail]; [rewrite !drop_nil |]; reflexivity.
Qed.

Lemma refetch_each_fault_free (keys : list string) (w : World) :
  fault_free w ->
  fault_free (after (refetch_each useJobDescriptions.refetch keys) w).
Proof.
  unfold fault_free. rewrite refetch_each_net. apply Forall_drop.
Qed.

(** What holds of every cached list, and of every list a fetch may bring,
    holds of every cached list afterwards. *)
Lemma refetch_each_cache (P : string -> Query.t -> Prop)
    (keys : list string) (w : World) :
  (forall k q, queryCache w !! k = Some q -> P k q) ->
  (forall k, In k keys -> Js.truthy_string k = true ->
             P k (fresh_list k (db w))) ->
  forall k q,
    queryCache (after (refetch_each useJobDescriptions.refetch keys) w) !! k
      = Some q ->
    P k q.
Proof.
  revert w. induction keys as [| x keys IH]; intros w Hold Hnew k q;
    [apply Hold |].
  unfold after. rewrite refetch_each_cons.
  fold (after (refetch_each useJobDescriptions.refetch keys)
          (after (useJobDescriptions.refetch x) w)).
  destruct (refetch_step x w) as (Hd & _ & _ & _ & _ & Hc).
  apply IH.
  - intros k' q'. rewrite Hc.
    destruct (Js.truthy_string x && delivers w) eqn:Hx; [| apply Hold].
    apply andb_true_iff in Hx. destruct Hx as [Hx _].
    destruct (decide (x = k')) as [<- | Hne].
    + rewrite lookup_insert_eq. intros [= <-].
      apply Hnew; [left; reflexivity | exact Hx].
    + rewrite lookup_insert_ne by exact Hne. apply Hold.
  - intros k' Hin Hk'. rewrite Hd. apply Hnew; [right; exact Hin | exact Hk'].
Qed.

(** A list that is not refetched stays as it is. *)
Lemma refetch_each_other (keys : list string) (w : World) (k : string) :
  ~ In k keys ->
  queryCache (after (refetch_each useJobDescriptions.refetch keys) w) !! k
  = queryCache w !! k.
Proof.
  revert w. induction keys as [| x keys IH]; intros w Hnot; [reflexivity |].
  unfold after. rewrite refetch_each_cons.
  fold (after (refetch_each useJobDescriptions.refetch keys)
          (after (useJobDescriptions.refetch x) w)).
  rewrite IH by (intros Hin; apply Hnot; right; exact Hin).
  destruct (refetch_step x w) as (_ & _ & _ & _ & _ & Hc). rewrite Hc.
  destruct (Js.truthy_string x && delivers w); [| reflexivity].
  apply lookup_insert_ne. intros ->. apply Hnot. left. reflexivity.
Qed.

(** Over a transport that delivers every list refetched is fresh. *)
Lemma refetch_each_delivered (keys : list string) (w : World) (k : string) :
  fault_free w ->
  In k keys ->
  Js.truthy_string k = true ->
  queryCache (after (refetch_each useJobDescriptions.refetch keys) w) !! k
  = Some (fresh_list k (db w)).
Proof.
  revert w. induction keys as [| x keys IH]; intros w Hff Hin Hk;
    [destruct Hin |].
  unfold after. rewrite refetch_each_cons.
  fold (after (refetch_each useJobDescriptions.refetch keys)
          (after (useJobDescriptions.refetch x) w)).
  destruct (refetch_step x w) as (Hd & _ & _ & _ & Hn & Hc).
  assert (Hff1 : fault_free (after (useJobDescriptions.refetch x) w)).
  { unfold fault_free. rewrite Hn.
    destruct (Js.truthy_string x); [| exact Hff].
    unfold fault_free in Hff. destruct (net w); [constructor |].
    inversion Hff; assumption. }
  destruct (in_dec String.string_dec k keys) as [Hlater | Hnot].
  - rewrite (IH _ Hff1 Hlater Hk), Hd. reflexivity.
  - destruct Hin as [-> | Hin]; [| contradiction].
    rewrite (refetch_each_other keys _ k Hnot), Hc, Hk.
    rewrite (fault_free_delivers w Hff). apply lookup_insert_eq.
Qed.

(** The keys of the cache are the user ids it holds a list for. *)
Lemma cached_keys_spec (w : World) (k : string) :
  In k (cached_keys w) <-> is_Some (queryCache w !! k).
Proof.
  unfold cached_keys. rewrite <- list_elem_of_In, list_elem_of_fmap. split.
  - intros ([k' q] & -> & Hin). apply elem_of_map_to_list in Hin.
    exists q. exact Hin.
  - intros [q Hq]. exists (k, q). split; [reflexivity |].
    apply elem_of_map_to_list. exact Hq.
Qed.

(** A list the cache holds is still held after the refetches. *)
Lemma refetch_each_keeps (keys : list string) (w : World) (k : string) :
  is_Some (queryCache w !! k) ->
  is_Some
    (queryCache (after (refetch_each useJobDescriptions.refetch keys) w)
       !! k).
Proof.
  revert w. induction keys as [| x keys IH]; intros w Hk; [exact Hk |].
  unfold after. rewrite refetch_each_cons.
  fold (after (refetch_each useJobDescriptions.refetch keys)
          (after (useJobDescriptions.refetch x) w)).
  apply IH. destruct (refetch_step x w) as (_ & _ & _ & _ & _ & Hc).
  rewrite Hc. destruct (Js.truthy_string x && delivers w); [| exact Hk].
  destruct (decide (x = k)) as [<- | Hne].
  - rewrite lookup_insert_eq. eexists. reflexivity.
  - rewrite lookup_insert_ne by exact Hne. exact Hk.
Qed.

(** The invalidation as a whole. *)
Lemma invalidateQueries_run (w : World) :
  invalidateQueries "jobDescriptions" useJobDescriptions.refetch w =
  (Returned tt, refetched w).
Proof.
  unfold invalidateQueries, invalidate_and_refetch, mark_invalidated, emit,
    mbind, Async_bind, refetched, invalidated, logged.
  rewrite refetch_each_returns. destruct w; reflexivity.
Qed.

Lemma refetched_frame (w : World) :
  db (refetched w) = db w
  /\ session (refetched w) = session w
  /\ operator (refetched w) = operator w.
Proof.
  unfold refetched.
  destruct (refetch_each_frame (cached_keys w) (invalidated w))
    as (Hd & Hs & Ho).
  rewrite Hd, Hs, Ho. destruct w; repeat split.
Qed.

Lemma refetched_log (w : World) :
  log (refetched w) =
  log w ++ InvalidateQueries "jobDescriptions" :: refetch_requests w.
Proof.
  unfold refetched. rewrite refetch_each_log.
  unfold refetch_requests. destruct w; cbn. rewrite <- app_assoc.
  reflexivity.
Qed.

Lemma refetched_net (w : World) :
  net (refetched w) = drop (length (refetch_requests w)) (net w).
Proof.
  unfold refetched. rewrite refetch_each_net.
  unfold refetch_requests. rewrite length_map. destruct w; reflexivity.
Qed.

Lemma refetched_fault_free (w : World) :
  fault_free w -> fault_free (refetched w).
Proof.
  unfold fault_free. rewrite refetched_net. apply Forall_drop.
Qed.

(** Every list cached afterwards is the list cached before, marked
    invalidated, or the list fetched from the store as it is now. *)
Lemma refetched_cache (w : World) (k : string) (q : Query.t) :
  queryCache (refetched w) !! k = Some q ->
  q = fresh_list k (db w)
  \/ exists q0 : Query.t,
       queryCache w !! k = Some q0 /\ q = Query.invalidate q0.
Proof.
  unfold refetched.
  apply (refetch_each_cache
           (fun k q =>
              q = fresh_list k (db w)
              \/ exists q0 : Query.t,
                   queryCache w !! k = Some q0 /\ q = Query.invalidate q0)).
  - intros k' q'. unfold invalidated. destruct w as [d s n o t g c l]. cbn.
    rewrite lookup_fmap. destruct (c !! k') as [q0 |]; cbn; [| discriminate].
    intros [= <-]. right. exists q0. split; reflexivity.
  - intros k' _ _. left. destruct w; reflexivity.
Qed.

(** No list appears that was not cached before. *)
Lemma refetched_none (w : World) (k : string) :
  queryCache (refetched w) !! k = None <-> queryCache w !! k = None.
Proof.
  unfold refetched. split.
  - intros Hnone. destruct (queryCache w !! k) as [q0 |] eqn:Hq;
      [| reflexivity].
    exfalso.
    assert (Hsome : is_Some (queryCache (invalidated w) !! k)).
    { unfold invalidated. destruct w as [d s n o t g c l]. cbn in *.
      rewrite lookup_fmap, Hq. eexists. reflexivity. }
    apply (refetch_each_keeps (cached_keys w)) in Hsome.
    rewrite Hnone in Hsome. destruct Hsome as [? [=]].
  - intros Hnone. rewrite refetch_each_other.
    + unfold invalidated. destruct w as [d s n o t g c l]. cbn in *.
      rewrite lookup_fmap, Hnone. reflexivity.
    + intros Hin. apply cached_keys_spec in Hin.
      rewrite Hnone in Hin. destruct Hin as [? [=]].
Qed.

(** Over a transport that delivers, every list of a user id that
    enables the query is fresh afterwards. *)
Lemma refetched_delivered (w : World) (k : string) (q0 : Query.t) :
  fault_free w ->
  queryCache w !! k = Some q0 ->
  Js.truthy_string k = true ->
  queryCache (refetched w) !! k = Some (fresh_list k (db w)).
Proof.
  intros Hff Hq Hk. unfold refetched.
  rewrite (refetch_each_delivered (cached_keys w) (invalidated w) k).
  - destruct w; reflexivity.
  - destruct w; exact Hff.
  - apply cached_keys_spec. rewrite Hq. eexists. reflexivity.
  - exact Hk.
Qed.

(** ** [useJobDescriptions]: update and delete *)

Section Handlers.

#[local] Arguments invalidateQueries : simpl never.

Lemma handleUpdate_run (jd : JobDescription.t) (w : World) :
  useJobDescriptions.handleUpdate jd w =
  if delivers w then
    (Returned Js.RTrue,
     refetched
       (with_db
          (with_job_descriptions
             (update_where (F_eq "id" (JobDescription.id jd))
                (useJobDescriptions.apply_updateData jd)
                (job_descriptions (db w)))
             (db w))
          (with_net (tail (net w))
             (with_log (log w ++ [update_request jd; update_ok_toast]) w))))
  else
    (Returned Js.RFalse,
     with_net (tail (net w))
       (with_log
          (log w ++
           [update_request jd; ConsoleError "Update error:";
            update_failed_toast])
          w)).
Proof.
  unfold useJobDescriptions.handleUpdate, delivers.
  destruct w as [d s n o t g c l]. destruct n as [| [| e | e] rest];
    unfold try_catch, request, toast, console_error, emit, mbind, mret,
      Async_bind, Async_ret;
    cbn; rewrite ?invalidateQueries_run; cbn;
    repeat rewrite <- app_assoc; reflexivity.
Qed.

Lemma handleDelete_run (jobId : string) (w : World) :
  useJobDescriptions.handleDelete jobId w =
  if confirms w then
    match net w with
    | [] | Deliver :: _ =>
        (Returned Js.RTrue,
         refetched
           (with_db
              (with_job_descriptions
                 (delete_where (F_eq "id" jobId) (job_descriptions (db w)))
                 (db w))
              (with_net (tail (net w))
                 (with_operator (tail (operator w))
                    (with_log
                       (log w ++
                        [delete_prompt; delete_request jobId;
                         delete_ok_toast])
                       w)))))
    | Fail _ :: rest =>
        (Returned Js.RUndefined,
         with_net rest
           (with_operator (tail (operator w))
              (with_log
                 (log w ++
                  [delete_prompt; delete_request jobId;
                   ConsoleError "Delete error:"; delete_failed_toast])
                 w)))
    | Reject _ :: rest =>
        (Returned Js.RFalse,
         with_net rest
           (with_operator (tail (operator w))
              (with_log
                 (log w ++
                  [delete_prompt; delete_request jobId;
                   ConsoleError "Delete error:"; delete_failed_toast])
                 w)))
    end
  else
    (Returned Js.RUndefined,
     with_operator (tail (operator w))
       (with_log (log w ++ [delete_prompt]) w)).
Proof.
  unfold useJobDescriptions.handleDelete, confirms.
  destruct w as [d s n o t g c l]. destruct o as [| [|] o'];
    [reflexivity | | reflexivity].
  destruct n as [| [| e | e] rest];
    unfold try_catch, request, toast, console_error, emit, confirm, mbind,
      mret, Async_bind, Async_ret;
    cbn; rewrite ?invalidateQueries_run; cbn;
    repeat rewrite <- app_assoc; reflexivity.
Qed.

End Handlers.




(** What a read shows once the lists have been invalidated and
    refetched: nothing; the list of the store as it is; or a list that
    was cached before, could not be refetched and is marked invalidated. *)
Lemma read_after_refetch (userId : option string) (w : World) :
  exists rows : list JobDescriptionView.t,
    result (useJobDescriptions.jobDescriptions userId) (refetched w)
      = Returned rows
    /\ (rows = []
        \/ (exists u : string,
              userId = Some u /\ rows = useJobDescriptions.listing u (db w))
        \/ exists (u : string) (q0 : Query.t),
             userId = Some u
             /\ queryCache w !! u = Some q0
             /\ queryCache (refetched w) !! u = Some (Query.invalidate q0)
             /\ rows = Query.data q0).
Proof.
  destruct (refetched_frame w) as (Hdb & _).
  destruct userId as [u |]; [| exists []; split; [reflexivity | left; reflexivity]].
  destruct (Js.truthy_string u) eqn:Hu.
  - destruct (queryCache (refetched w) !! u) as [q |] eqn:Hq.
    + exists (Query.data q). unfold result.
      rewrite (jobDescriptions_hit u _ q Hu Hq). split; [reflexivity |].
      destruct (refetched_cache w u q Hq) as [-> | (q0 & Hq0 & ->)].
      * right. left. exists u. split; reflexivity.
      * right. right. exists u, q0. repeat split; assumption.
    + destruct (jobDescriptions_fetch u (refetched w) Hu Hq) as (Hres & _).
      eexists. split; [exact Hres |]. rewrite Hdb.
      destruct (net (refetched w)) as [| [| e | e] rest];
        try (left; reflexivity);
        right; left; exists u; split; reflexivity.
  - exists []. split; [| left; reflexivity].
    unfold result, useJobDescriptions.jobDescriptions,
      useJobDescriptions.enabled. cbn [Js.truthy]. rewrite Hu. reflexivity.
Qed.

(** Over a transport that delivers it shows the list of the store. *)
Lemma read_after_refetch_delivered (u : string) (w : World) :
  fault_free w ->
  Js.truthy_string u = true ->
  result (useJobDescriptions.jobDescriptions (Some u)) (refetched w)
  = Returned (useJobDescriptions.listing u (db w)).
Proof.
  intros Hff Hu. destruct (refetched_frame w) as (Hdb & _).
  destruct (queryCache w !! u) as [q0 |] eqn:Hq0.
  - unfold result.
    rewrite (jobDescriptions_hit u _ _ Hu (refetched_delivered w u q0 Hff Hq0 Hu)).
    reflexivity.
  - assert (Hnone : queryCache (refetched w) !! u = None)
      by (apply refetched_none; exact Hq0).
    destruct (jobDescriptions_fetch u (refetched w) Hu Hnone) as (Hres & _).
    rewrite Hres, (fault_free_match _ _ _ (refetched_fault_free w Hff)), Hdb.
    reflexivity.
Qed.

Lemma listing_items_in_store (u : string) (d : Db)
    (v : JobDescriptionView.t) :
  In v (useJobDescriptions.listing u d) ->
  In (JobDescriptionView.item v) (job_descriptions d).
Proof.
  intros Hin.
  assert (Hitem : In (JobDescriptionView.item v)
                    (List.map JobDescriptionView.item
                       (useJobDescriptions.listing u d)))
    by (apply List.in_map; exact Hin).
  rewrite items_of_listing in Hitem.
  apply (Permutation_in _ (order_desc_perm _)) in Hitem.
  apply List.filter_In in Hitem. tauto.
Qed.


Lemma delete_where_id_absent (jobId : string)
    (rows : list JobDescription.t) (r : JobDescription.t) :
  In r (delete_where (F_eq "id" jobId) rows) ->
  In r rows /\ JobDescription.id r <> jobId.
Proof.
  unfold delete_where. intros Hin. apply List.filter_In in Hin.
  destruct Hin as [Hin Hkeep]. split; [exact Hin |].
  rewrite holds_eq_id_job in Hkeep.
  destruct (String.eqb_spec (JobDescription.id r) jobId); [discriminate |].
  assumption.
Qed.

Lemma delete_where_id_keeps (jobId : string)
    (rows : list JobDescription.t) (r : JobDescription.t) :
  In r rows -> JobDescription.id r <> jobId ->
  In r (delete_where (F_eq "id" jobId) rows).
Proof.
  unfold delete_where. intros Hin Hne. apply List.filter_In.
  split; [exact Hin |]. rewrite holds_eq_id_job.
  destruct (String.eqb_spec (JobDescription.id r) jobId);
    [contradiction | reflexivity].
Qed.

(** C7, as the code has it.  Declined at the prompt, [handleDelete] sends
    nothing, leaves store and cache as they are and resolves to
    [undefined].  Confirmed and delivered, it removes the rows with that
    id and no others, leaves the other relations alone, invalidates and
    refetches the cached lists and returns [true]; whoever reads the list
    next does not get the job, unless the list shown is one that was
    cached before, could not be refetched and is marked invalidated; over
    a transport that delivers nobody gets it.  Confirmed and not
    delivered, the store is as it was and the failure is logged and
    notified. *)
Theorem handleDelete_needs_confirmation (jobId : string) (w : World) :
  let m := useJobDescriptions.handleDelete jobId in
  let w' := after m w in
  if confirms w then
    if delivers w then
      result m w = Returned Js.RTrue
      /\ (forall r : JobDescription.t,
            In r (job_descriptions (db w')) <->
            In r (job_descriptions (db w)) /\ JobDescription.id r <> jobId)
      /\ same_other_relations (db w) (db w')
      /\ events m w =
         [delete_prompt; delete_request jobId; delete_ok_toast;
          InvalidateQueries "jobDescriptions"] ++ refetch_requests w
      /\ (forall userId : option string,
            exists rows : list JobDescriptionView.t,
              result (useJobDescriptions.jobDescriptions userId) w'
                = Returned rows
              /\ (Forall
                    (fun v =>
                       JobDescription.id (JobDescriptionView.item v)
                       <> jobId)
                    rows
                  \/ exists (u : string) (q0 : Query.t),
                       userId = Some u
                       /\ queryCache w !! u = Some q0
                       /\ queryCache w' !! u = Some (Query.invalidate q0)
                       /\ rows = Query.data q0))
      /\ (fault_free w ->
          forall (userId : option string)
                 (rows : list JobDescriptionView.t),
            result (useJobDescriptions.jobDescriptions userId) w'
              = Returned rows ->
            Forall
              (fun v =>
                 JobDescription.id (JobDescriptionView.item v) <> jobId)
              rows)
    else
      db w' = db w
      /\ events m w =
         [delete_prompt; delete_request jobId; ConsoleError "Delete error:";
          delete_failed_toast]
  else
    result m w = Returned Js.RUndefined
    /\ db w' = db w
    /\ queryCache w' = queryCache w
    /\ events m w = [delete_prompt].
Proof.
  cbv zeta. unfold events, result, after.
  rewrite (handleDelete_run jobId w).
  destruct (confirms w) eqn:Hc;
    [| cbn [fst snd]; repeat split; cbn; apply drop_app_length].
  assert (Habsent :
            forall (d : Db) (u : string),
              job_descriptions d
                = delete_where (F_eq "id" jobId) (job_descriptions (db w)) ->
              Forall
                (fun v =>
                   JobDescription.id (JobDescriptionView.item v) <> jobId)
                (useJobDescriptions.listing u d)).
  { intros d u Hd. apply Forall_forall. intros v Hv.
    apply list_elem_of_In, listing_items_in_store in Hv.
    rewrite Hd in Hv. apply delete_where_id_absent in Hv. tauto. }
  unfold delivers. destruct (net w) as [| [| e | e] rest] eqn:Hn;
    cbn [fst snd];
    try (split; [reflexivity | cbn; apply drop_app_length]).
  all: match goal with
       | |- context [refetched ?w0] => set (w1 := w0)
       end.
  all: destruct (refetched_frame w1) as (Hdb & _); rewrite Hdb.
  all: split; [reflexivity |].
  all: split;
    [intros r; cbn; split;
     [apply delete_where_id_absent
     | intros [Hin Hne]; apply delete_where_id_keeps; assumption] |].
  all: split; [repeat split |].
  all: split;
    [rewrite refetched_log; subst w1;
     cbn [log with_db with_net with_operator with_log];
     rewrite <- app_assoc; cbn [app]; apply drop_app_length |].
  all: split.
  all: try (intros userId;
            destruct (read_after_refetch userId w1)
              as (rows & Hres & Hrows);
            exists rows; split; [exact Hres |];
            destruct Hrows as [-> | [(u & _ & ->) | (u & q0 & Hu & Hq0 & Hq & ->)]];
            [left; constructor
            | left; apply Habsent; reflexivity
            | right; exists u, q0; repeat split; assumption]).
  all: intros Hff [u |] rows.
  all: try (cbn; intros [= <-]; constructor).
  all: destruct (Js.truthy_string u) eqn:Hu;
    [| unfold useJobDescriptions.jobDescriptions,
         useJobDescriptions.enabled; cbn [Js.truthy]; rewrite Hu; cbn;
       intros [= <-]; constructor].
  all: assert (Hff1 : fault_free w1)
         by (apply (fault_free_next w); [rewrite Hn; reflexivity | exact Hff]).
  all: pose proof (read_after_refetch_delivered u w1 Hff1 Hu) as Hread.
  all: unfold result in Hread; rewrite Hread.
  all: intros [= <-]; apply Habsent; reflexivity.
Qed.

(** C7, as stated, fails on the return value: declined at the prompt,
    the call resolves to [undefined], which is not a boolean.  (It sends
    nothing and leaves the store alone, as stated.) *)
Lemma handleDelete_declined_returns_undefined :
  let m := useJobDescriptions.handleDelete "JD-A" in
  result m Scenario.declining = Returned Js.RUndefined
  /\ Js.is_boolean Js.RUndefined = false
  /\ db (after m Scenario.declining) = db Scenario.declining
  /\ events m Scenario.declining = [delete_prompt].
Proof. vm_compute. repeat split. Qed.

(** The list a user sees can outlive the job: the list of u1 is on
    screen, the deletion of JD-A is confirmed and delivered, and the
    refetch that the invalidation starts is lost.  The call returns [true]
    and the row is gone, but the list still shows JD-A, marked
    invalidated. *)
Example handleDelete_lost_refetch_keeps_list :
  let m := useJobDescriptions.handleDelete "JD-A" in
  let w' := after m Scenario.listed_refetch_lost in
  result m Scenario.listed_refetch_lost = Returned Js.RTrue
  /\ List.map JobDescription.id (job_descriptions (db w'))
     = ["JD-B"; "JD-C"]
  /\ events m Scenario.listed_refetch_lost =
     [delete_prompt; delete_request "JD-A"; delete_ok_toast;
      InvalidateQueries "jobDescriptions";
      Request "job_descriptions" (useJobDescriptions.list_select "u1")]
  /\ match result (useJobDescriptions.jobDescriptions (Some "u1")) w' with
     | Returned rows => shown_ids rows = ["JD-B"; "JD-A"]
     | Thrown _ => False
     end
  /\ Query.isInvalidated <$> queryCache w' !! "u1" = Some true.
Proof. vm_compute. repeat split. Qed.

(** C3 at the failing input: the operator confirms the deletion of JD-A and
    the service answers with a non-null [error].  The error is logged and
    the destructive notification shown, but the call resolves to
    [undefined], not to [false]. *)
Theorem handleDelete_error_reply_returns_undefined :
  let m := useJobDescriptions.handleDelete "JD-A" in
  result m Scenario.confirming_refused = Returned Js.RUndefined
  /\ Js.is_boolean Js.RUndefined = false
  /\ events m Scenario.confirming_refused =
     [delete_prompt; delete_request "JD-A"; ConsoleError "Delete error:";
      delete_failed_toast]
  /\ db (after m Scenario.confirming_refused) = db Scenario.confirming_refused.
Proof. vm_compute. repeat split. Qed.

(** The rest of C3 holds: neither handler ever throws, [handleUpdate]
    always resolves to a boolean, and [handleDelete] resolves to [false]
    when the request is rejected. *)
Lemma handleUpdate_returns_boolean (jd : JobDescription.t) (w : World) :
  exists r : Js.ret,
    result (useJobDescriptions.handleUpdate jd) w = Returned r
    /\ Js.is_boolean r = true.
Proof.
  unfold result. rewrite handleUpdate_run.
  destruct (delivers w); eexists; split; reflexivity.
Qed.

Lemma handleDelete_never_throws (jobId : string) (w : World) :
  exists r : Js.ret,
    result (useJobDescriptions.handleDelete jobId) w = Returned r.
Proof.
  unfold result. rewrite handleDelete_run.
  destruct (confirms w); [| eexists; reflexivity].
  destruct (net w) as [| [| e | e] rest]; eexists; reflexivity.
Qed.

Lemma handleDelete_rejected_returns_false
    (jobId : string) (e : Err) (rest : list Transport) (w : World) :
  confirms w = true ->
  net w = Reject e :: rest ->
  result (useJobDescriptions.handleDelete jobId) w = Returned Js.RFalse.
Proof.
  intros Hc Hn. unfold result. rewrite handleDelete_run, Hc, Hn. reflexivity.
Qed.

(** ** [useJobDescriptions]: the cache stays in step with the store *)

Lemma cache_coherent_empty (w : World) :
  queryCache w = ∅ -> cache_coherent w.
Proof.
  intros Hempty u q Hlookup. rewrite Hempty, lookup_empty in Hlookup.
  discriminate.
Qed.

Lemma jobDescriptions_keeps_coherent (userId : option string) (w : World) :
  cache_coherent w ->
  cache_coherent (after (useJobDescriptions.jobDescriptions userId) w).
Proof.
  intros Hco. destruct userId as [u |]; [| exact Hco].
  destruct (Js.truthy_string u) eqn:Hu.
  - destruct (queryCache w !! u) as [q |] eqn:Hlookup.
    + unfold after. rewrite (jobDescriptions_hit u w q Hu Hlookup).
      exact Hco.
    + unfold after, useJobDescriptions.jobDescriptions,
        useJobDescriptions.enabled.
      cbn [Js.truthy]. rewrite Hu, Hlookup. unfold mbind, Async_bind.
      rewrite (fetch_run u w Hu).
      destruct (delivers w); cbn [snd];
        [| intros v q Hv; destruct w; cbn in *; apply Hco, Hv].
      intros v q Hv Hfresh.
      destruct w as [d s n o t g c l]. cbn in Hv, Hlookup |- *.
      destruct (decide (u = v)) as [<- | Hne].
      * rewrite lookup_insert_eq in Hv. injection Hv as <-. reflexivity.
      * rewrite lookup_insert_ne in Hv by exact Hne.
        apply (Hco v q Hv Hfresh).
  - unfold after, useJobDescriptions.jobDescriptions,
      useJobDescriptions.enabled.
    cbn [Js.truthy]. rewrite Hu. exact Hco.
Qed.

(** After an invalidation a list is either fresh from the store as it is
    or marked invalidated, whatever the cache held. *)
Lemma refetched_coherent (w : World) : cache_coherent (refetched w).
Proof.
  intros u q Hq Hfresh. destruct (refetched_frame w) as (Hdb & _).
  rewrite Hdb.
  destruct (refetched_cache w u q Hq) as [-> | (q0 & _ & ->)];
    [reflexivity | discriminate Hfresh].
Qed.

Lemma handleUpdate_keeps_coherent (jd : JobDescription.t) (w : World) :
  cache_coherent w ->
  cache_coherent (after (useJobDescriptions.handleUpdate jd) w).
Proof.
  intros Hco. unfold after. rewrite handleUpdate_run.
  destruct (delivers w); cbn [snd].
  - apply refetched_coherent.
  - exact Hco.
Qed.

Lemma handleDelete_keeps_coherent (jobId : string) (w : World) :
  cache_coherent w ->
  cache_coherent (after (useJobDescriptions.handleDelete jobId) w).
Proof.
  intros Hco. unfold after. rewrite handleDelete_run.
  destruct (confirms w); [| exact Hco].
  destruct (net w) as [| [| e | e] rest]; cbn [snd]; try exact Hco;
    apply refetched_coherent.
Qed.

(** ** [SearchTab]: patterns *)

Lemma append_nil_l (s : string) : EmptyString +:+ s = s.
Proof. reflexivity. Qed.

Lemma append_cons (c : ascii) (a b : string) :
  String c a +:+ b = String c (a +:+ b).
Proof. reflexivity. Qed.

Lemma append_empty_r (a : string) : a +:+ EmptyString = a.
Proof.
  induction a as [| x a IH]; [reflexivity |].
  rewrite append_cons, IH. reflexivity.
Qed.

Lemma lower_string_append (a b : string) :
  Like.lower_string (a +:+ b) = Like.lower_string a +:+ Like.lower_string b.
Proof.
  induction a as [| x a IH]; [reflexivity |].
  rewrite append_cons. cbn [Like.lower_string].
  rewrite append_cons, IH. reflexivity.
Qed.

Lemma is_meta_lower (c : ascii) : Like.is_meta (Like.lower c) = Like.is_meta c.
Proof.
  destruct c as [[] [] [] [] [] [] [] []]; vm_compute; reflexivity.
Qed.

Lemma has_meta_lower (t : string) :
  Like.has_meta (Like.lower_string t) = Like.has_meta t.
Proof.
  induction t as [| c t IH]; cbn; [reflexivity |].
  rewrite is_meta_lower, IH. reflexivity.
Qed.

(** A pattern that starts with [%] matches when the rest of the pattern
    matches some suffix. *)
Lemma like_percent (p s : string) :
  Like.like (String "%" p) s = true <->
  exists pre post : string, s = pre +:+ post /\ Like.like p post = true.
Proof.
  cbn. induction s as [| c s IH].
  - split.
    + intros H. exists EmptyString, EmptyString. split; [reflexivity |].
      rewrite orb_false_r in H. exact H.
    + intros (pre & post & Hs & Hp).
      destruct pre; [| discriminate]. rewrite append_nil_l in Hs.
      subst post. rewrite Hp. reflexivity.
  - split.
    + intros H. apply orb_true_iff in H. destruct H as [H | H].
      * exists EmptyString, (String c s). split; [reflexivity | exact H].
      * apply IH in H. destruct H as (pre & post & -> & Hp).
        exists (String c pre), post. split; [reflexivity | exact Hp].
    + intros (pre & post & Hs & Hp). apply orb_true_iff.
      destruct pre as [| x pre].
      * left. rewrite append_nil_l in Hs. subst post. exact Hp.
      * right. rewrite append_cons in Hs. injection Hs as -> ->. apply IH.
        exists pre, post. split; [reflexivity | exact Hp].
Qed.

(** A run of ordinary characters at the head of a pattern matches
    itself and nothing else. *)
Lemma like_literal (t p s : string) :
  Like.has_meta t = false ->
  Like.like (t +:+ p) s = true <->
  exists rest : string, s = t +:+ rest /\ Like.like p rest = true.
Proof.
  revert s. induction t as [| c t IH]; intros s Hmeta.
  - rewrite append_nil_l. split.
    + intros H. exists s. split; [reflexivity | exact H].
    + intros (rest & -> & H). exact H.
  - cbn in Hmeta. apply orb_false_iff in Hmeta. destruct Hmeta as [Hc Ht].
    unfold Like.is_meta in Hc.
    apply orb_false_iff in Hc. destruct Hc as [Hc Hesc].
    apply orb_false_iff in Hc. destruct Hc as [Hpct Hund].
    rewrite append_cons. cbn [Like.like]. rewrite Hpct, Hund, Hesc.
    destruct s as [| d s].
    + split; [discriminate | intros (rest & Hs & _); discriminate].
    + split.
      * intros H. apply andb_true_iff in H. destruct H as [Hcd H].
        apply Ascii.eqb_eq in Hcd. subst d.
        apply (IH s Ht) in H. destruct H as (rest & -> & H).
        exists rest. split; [reflexivity | exact H].
      * intros (rest & Hs & H). rewrite append_cons in Hs.
        injection Hs as -> ->.
        apply andb_true_iff. split; [apply Ascii.eqb_refl |].
        apply (IH _ Ht). exists rest. split; [reflexivity | exact H].
Qed.

Lemma like_percent_only (s : string) : Like.like "%" s = true.
Proof.
  apply like_percent. exists s, EmptyString. split; [| reflexivity].
  symmetry. apply append_empty_r.
Qed.

(** For a search term without pattern characters, the pattern the search
    builds selects the names that contain the term, case ignored. *)
Lemma ilike_search_pattern (searchTerm name : string) :
  Like.has_meta searchTerm = false ->
  Like.ilike (SearchTab.search_pattern searchTerm) name = true <->
  Like.infix_ci searchTerm name.
Proof.
  intros Hmeta. unfold Like.ilike, SearchTab.search_pattern, Like.infix_ci,
    Like.infix.
  rewrite !lower_string_append.
  change (Like.lower_string "%") with "%".
  rewrite append_cons, append_nil_l.
  rewrite like_percent.
  assert (Hl : Like.has_meta (Like.lower_string searchTerm) = false)
    by (rewrite has_meta_lower; exact Hmeta).
  split.
  - intros (pre & post & Hs & Hp).
    apply (like_literal _ _ _ Hl) in Hp. destruct Hp as (rest & -> & _).
    exists pre, rest. exact Hs.
  - intros (pre & post & Hs).
    exists pre, (Like.lower_string searchTerm +:+ post). split; [exact Hs |].
    apply (like_literal _ _ _ Hl). exists post.
    split; [reflexivity | apply like_percent_only].
Qed.

Lemma holds_ilike_name (p : string) (r : CvMetadata.t) :
  holds (F_ilike "name" p) r = true ->
  exists name : string,
    CvMetadata.name r = Some name /\ Like.ilike p name = true.
Proof.
  unfold holds, column, CvMetadata.relation. cbn.
  destruct (CvMetadata.name r) as [name |]; cbn; [| discriminate].
  intros H. exists name. split; [reflexivity | exact H].
Qed.

Lemma in_firstn {A : Type} (n : nat) (l : list A) (x : A) :
  In x (List.firstn n l) -> In x l.
Proof.
  revert l. induction n as [| n IH]; intros [| y l] Hin; cbn in *;
    try contradiction.
  destruct Hin as [-> | Hin]; [left; reflexivity | right; apply IH, Hin].
Qed.

Lemma exec_search_hits (searchTerm : string) (d : Db) (r : CvMetadata.t) :
  In r (List.firstn 10
          (select_where
             (F_ilike "name" (SearchTab.search_pattern searchTerm))
             (cv_metadata d))) ->
  search_hit searchTerm r.
Proof.
  intros Hin. apply in_firstn in Hin.
  unfold select_where in Hin. apply List.filter_In in Hin.
  destruct Hin as [_ Hholds].
  apply holds_ilike_name in Hholds. destruct Hholds as (name & Hname & Hlike).
  exists name. split; [exact Hname |]. split; [exact Hlike |].
  intros Hmeta. apply (ilike_search_pattern _ _ Hmeta). exact Hlike.
Qed.

(** C9, as the code has it.  An empty search term fails with "Please enter
    a search query" before anything is sent.  A non-empty term sends one
    select with the pattern [%term%] and a limit of ten; delivered, it
    returns at most ten records, each with a name that matches the pattern,
    and when the term has none of the pattern characters the name contains
    the term, case ignored; not delivered, it throws. *)
Theorem searchCandidates_spec (searchTerm : string) (w : World) :
  let m := SearchTab.searchCandidates searchTerm in
  if Js.truthy_string searchTerm then
    db (after m w) = db w
    /\ if delivers w then
         exists rows : list CvMetadata.t,
           result m w = Returned rows
           /\ (length rows <= 10)%nat
           /\ Forall (search_hit searchTerm) rows
           /\ events m w =
              [Request "cv_metadata" (SearchTab.search_select searchTerm)]
       else
         exists e : Err,
           result m w = Thrown e
           /\ hd_error (events m w) =
              Some (Request "cv_metadata"
                      (SearchTab.search_select searchTerm))
  else
    result m w = Thrown (JsError "Please enter a search query")
    /\ after m w = w
    /\ events m w = [].
Proof.
  cbv zeta. unfold events, result, after, SearchTab.searchCandidates.
  destruct (Js.truthy_string searchTerm); cbn [negb].
  - destruct w as [d s n o t g c l].
    unfold delivers. destruct n as [| [| e | e] rest]; run_hook.
    1, 2: split; [destruct d; reflexivity |].
    1, 2: eexists; split; [reflexivity |].
    1, 2: split; [apply firstn_le_length |].
    1, 2: split; [| apply drop_app_length].
    1, 2: apply Forall_forall; intros r Hr;
          apply list_elem_of_In in Hr;
          apply (exec_search_hits searchTerm d r Hr).
    all: split; [reflexivity |].
    all: exists e; split; [reflexivity |].
    all: repeat rewrite <- app_assoc; rewrite drop_app_length; reflexivity.
  - repeat split. cbn. apply drop_all.
Qed.

(** C9, as stated, fails: in a pattern the underscore stands for any one
    character, so the term "_" returns the candidates named Bob and Alice
    Tan, and "Bob" does not contain an underscore. *)
Lemma searchCandidates_underscore_is_a_wildcard :
  result (SearchTab.searchCandidates "_") Scenario.world
    = Returned [Scenario.bob; Scenario.alice]
  /\ CvMetadata.name Scenario.bob = Some "Bob"
  /\ ~ Like.infix_ci "_" "Bob".
Proof.
  split; [vm_compute; reflexivity |]. split; [reflexivity |].
  unfold Like.infix_ci, Like.infix. intros (pre & post & H).
  change (Like.lower_string "Bob") with "bob" in H.
  change (Like.lower_string "_") with "_" in H.
  destruct pre as [| a [| b [| c [| d pre]]]];
    repeat rewrite append_cons in H; repeat rewrite append_nil_l in H;
    discriminate H.
Qed.

(** ** [saveProfile] *)

Lemma count_user_app (u : string) (rows more : list EmployerProfile.t) :
  profileFormUtils.count_user u (rows ++ more) =
  (profileFormUtils.count_user u rows + profileFormUtils.count_user u more)%nat.
Proof.
  unfold profileFormUtils.count_user.
  rewrite List.filter_app, length_app. reflexivity.
Qed.

Lemma count_user_pos (u : string) (rows : list EmployerProfile.t) :
  (0 < profileFormUtils.count_user u rows)%nat ->
  exists r : EmployerProfile.t,
    In r rows /\ EmployerProfile.user_id r = Some u.
Proof.
  unfold profileFormUtils.count_user. intros Hpos.
  destruct (List.filter _ rows) as [| r rest] eqn:Hf; [cbn in Hpos; lia |].
  assert (Hin : In r (List.filter
                        (fun r => bool_decide (EmployerProfile.user_id r = Some u))
                        rows))
    by (rewrite Hf; left; reflexivity).
  apply List.filter_In in Hin. destruct Hin as [Hin Hu].
  apply bool_decide_eq_true in Hu. exists r. split; assumption.
Qed.

(** The check the database runs is the invariant. *)
Lemma unique_user_id_spec (rows : list EmployerProfile.t) :
  profileFormUtils.unique_user_id rows = true <-> one_profile_per_user rows.
Proof.
  unfold profileFormUtils.unique_user_id, one_profile_per_user. split.
  - intros Hall u.
    destruct (profileFormUtils.count_user u rows) as [| k] eqn:Hk; [lia |].
    destruct (count_user_pos u rows) as (r & Hin & Hu); [lia |].
    rewrite List.forallb_forall in Hall. specialize (Hall r Hin).
    rewrite Hu in Hall. apply Nat.leb_le in Hall. lia.
  - intros Hone. apply List.forallb_forall. intros r _.
    destruct (EmployerProfile.user_id r) as [u |]; [| reflexivity].
    apply Nat.leb_le, Hone.
Qed.

Lemma holds_eq_user_id_profile (u : string) (r : EmployerProfile.t) :
  holds (F_eq "user_id" u) r = bool_decide (EmployerProfile.user_id r = Some u).
Proof.
  unfold holds, column, EmployerProfile.relation. cbn.
  destruct (EmployerProfile.user_id r) as [v |]; cbn.
  - destruct (String.eqb_spec v u) as [-> | Hne].
    + symmetry. apply bool_decide_eq_true. reflexivity.
    + symmetry. apply bool_decide_eq_false. congruence.
  - symmetry. apply bool_decide_eq_false. congruence.
Qed.

Lemma select_user_id_profile (u : string) (rows : list EmployerProfile.t) :
  select_where (F_eq "user_id" u) rows =
  List.filter (fun r => bool_decide (EmployerProfile.user_id r = Some u)) rows.
Proof.
  unfold select_where. apply filter_ext_bool.
  intros r. apply holds_eq_user_id_profile.
Qed.

(** The row a delivered lookup hands back is a row of the user. *)
Lemma exec_maybeSingle_some (u : string) (d : Db) (r : EmployerProfile.t) :
  data (fst (profileFormUtils.exec_maybeSingle u d)) = Some r ->
  In r (employer_profiles d) /\ EmployerProfile.user_id r = Some u.
Proof.
  unfold profileFormUtils.exec_maybeSingle.
  destruct (select_where _ _) as [| x [| y rest]] eqn:Hsel; cbn;
    try discriminate.
  intros [= <-].
  assert (Hin : In x (select_where (F_eq "user_id" u) (employer_profiles d)))
    by (rewrite Hsel; left; reflexivity).
  rewrite select_user_id_profile in Hin. apply List.filter_In in Hin.
  destruct Hin as [Hin Hu]. apply bool_decide_eq_true in Hu.
  split; assumption.
Qed.

Lemma exec_maybeSingle_db (u : string) (d : Db) :
  snd (profileFormUtils.exec_maybeSingle u d) = d.
Proof.
  unfold profileFormUtils.exec_maybeSingle.
  destruct (select_where _ _) as [| x [| y rest]]; reflexivity.
Qed.

Lemma exec_single_db (u : string) (d : Db) :
  snd (profileFormUtils.exec_single u d) = d.
Proof.
  unfold profileFormUtils.exec_single.
  destruct (select_where _ _) as [| x [| y rest]]; reflexivity.
Qed.

(** An insert that passes the check was the first row of its user. *)
Lemma insert_passes_first (u id : string)
    (values : profileFormUtils.ProfileFormData) (timestamp : Z)
    (rows : list EmployerProfile.t) :
  profileFormUtils.unique_user_id
    (rows ++ [profileFormUtils.new_profile id u values timestamp]) = true ->
  profileFormUtils.count_user u rows = 0%nat.
Proof.
  intros Hcheck. apply unique_user_id_spec in Hcheck.
  specialize (Hcheck u). rewrite count_user_app in Hcheck.
  unfold profileFormUtils.count_user at 2 in Hcheck. cbn in Hcheck.
  rewrite bool_decide_eq_true_2 in Hcheck by reflexivity.
  cbn in Hcheck. lia.
Qed.

Ltac request_cases w :=
  let Hd := fresh "Hdelivers" in
  let e := fresh "e" in
  let Hreq := fresh "Hreq" in
  destruct (delivers w) eqn:Hd;
  [ rewrite (request_delivered _ _ _ w Hd)
  | match goal with
    | |- context [request ?rel ?stmt ?exec w] =>
        destruct (request_failed rel stmt exec w Hd) as (e & [Hreq | Hreq]);
        rewrite Hreq
    end ].

(** An update of the profile rows keyed by an id, sent from a world [w1]
    whose store is still that of [w]. *)
Lemma update_step_effect (user id : string)
    (values : profileFormUtils.ProfileFormData)
    (profile : option EmployerProfile.t) (w w1 : World) :
  db w1 = db w ->
  (profileFormUtils.profile_id profile = Some id
   \/ profileFormUtils.profile_id profile = None
      /\ exists existing : EmployerProfile.t,
           In existing (employer_profiles (db w))
           /\ EmployerProfile.user_id existing = Some user
           /\ EmployerProfile.id existing = id) ->
  let w' :=
    snd (request "employer_profiles" (profileFormUtils.update_stmt id)
           (profileFormUtils.exec_update id user values (now w)) w1) in
  profile_write user values profile w (employer_profiles (db w'))
  /\ (one_profile_per_user (employer_profiles (db w)) ->
      one_profile_per_user (employer_profiles (db w'))).
Proof.
  intros Hdb Hkey. cbv zeta.
  request_cases w1; cbn [snd];
    try (split; [apply NothingWritten |]; cbn; rewrite Hdb; tauto).
  unfold profileFormUtils.exec_update, profileFormUtils.commit.
  rewrite Hdb.
  destruct (profileFormUtils.unique_user_id _) eqn:Hcheck; cbn.
  - split; [| intros _; apply unique_user_id_spec, Hcheck].
    destruct Hkey as [Hid | (Hid & existing & Hin & Huser & <-)].
    + eapply UpdatedGiven; [exact Hid | reflexivity].
    + eapply UpdatedExisting;
        [exact Hid | exact Hin | exact Huser | reflexivity].
  - split; [apply NothingWritten; reflexivity | tauto].
Qed.

(** The insert, likewise. *)
Lemma insert_step_effect (user : string)
    (values : profileFormUtils.ProfileFormData)
    (profile : option EmployerProfile.t) (w w1 : World) :
  db w1 = db w ->
  uuid w1 = uuid w ->
  profileFormUtils.profile_id profile = None ->
  let w' :=
    snd (request "employer_profiles" profileFormUtils.insert_stmt
           (profileFormUtils.exec_insert (uuid w1) user values (now w)) w1) in
  profile_write user values profile w (employer_profiles (db w'))
  /\ (one_profile_per_user (employer_profiles (db w)) ->
      one_profile_per_user (employer_profiles (db w'))).
Proof.
  intros Hdb Huuid Hid. cbv zeta.
  request_cases w1; cbn [snd];
    try (split; [apply NothingWritten |]; cbn; rewrite Hdb; tauto).
  unfold profileFormUtils.exec_insert. rewrite Hdb, Huuid.
  destruct (profileFormUtils.unique_user_id _) eqn:Hcheck; cbn.
  - split; [| intros _; apply unique_user_id_spec, Hcheck].
    apply InsertedFirst; [exact Hid | | reflexivity].
    eapply insert_passes_first. exact Hcheck.
  - split; [apply NothingWritten; reflexivity | tauto].
Qed.

(** What the write step of [saveProfile] does to the relation. *)
Lemma write_profile_effect (user : string)
    (values : profileFormUtils.ProfileFormData)
    (profile : option EmployerProfile.t) (w : World) :
  let m := profileFormUtils.write_profile user values (now w) profile in
  profile_write user values profile w (employer_profiles (db (after m w)))
  /\ (one_profile_per_user (employer_profiles (db w)) ->
      one_profile_per_user (employer_profiles (db (after m w)))).
Proof.
  cbv zeta. unfold after, profileFormUtils.write_profile.
  destruct (profileFormUtils.profile_id profile) as [id |] eqn:Hid.
  - apply update_step_effect; [reflexivity | left; exact Hid].
  - unfold mbind, Async_bind.
    request_cases w; cbn [snd fst data].
    + rewrite exec_maybeSingle_db.
      destruct (data (fst (profileFormUtils.exec_maybeSingle user (db w))))
        as [existing |] eqn:Hlookup.
      * apply exec_maybeSingle_some in Hlookup.
        destruct Hlookup as [Hin Huser].
        apply update_step_effect; [destruct w; reflexivity |].
        right. split; [exact Hid |]. exists existing. auto.
      * apply insert_step_effect;
          [destruct w; reflexivity | destruct w; reflexivity | exact Hid].
    + apply insert_step_effect;
        [destruct w; reflexivity | destruct w; reflexivity | exact Hid].
    + split; [apply NothingWritten |]; cbn; tauto.
Qed.

Lemma getUser_keeps (w : World) :
  db (after profileFormUtils.getUser w) = db w
  /\ now (after profileFormUtils.getUser w) = now w
  /\ uuid (after profileFormUtils.getUser w) = uuid w.
Proof.
  unfold after, profileFormUtils.getUser. destruct w as [d s n o t g c l].
  cbn. destruct s as [u |]; [| repeat split].
  destruct n as [| [| e | e] rest]; repeat split.
Qed.

Lemma getUser_net (u : string) (w : World) :
  session w = Some u ->
  net (after profileFormUtils.getUser w) = tail (net w).
Proof.
  unfold after, profileFormUtils.getUser. destruct w as [d s n o t g c l].
  cbn. intros ->. destruct n as [| [| e | e] rest]; reflexivity.
Qed.

Section SaveProfile.

#[local] Arguments request : simpl never.
#[local] Arguments profileFormUtils.write_profile : simpl never.

(** [saveProfile] never throws, and it touches the store only in its
    write step, which runs once the identity service has named the
    user. *)
Lemma saveProfile_store (values : profileFormUtils.ProfileFormData)
    (profile : option EmployerProfile.t) (w : World) :
  let m := profileFormUtils.saveProfile values profile in
  (exists r : Reply EmployerProfile.t, result m w = Returned r)
  /\ match session w with
     | Some u =>
         if delivers w then
           db (after m w) =
           db (after
                 (profileFormUtils.write_profile u values (now w) profile)
                 (after profileFormUtils.getUser w))
         else db (after m w) = db w
     | None => db (after m w) = db w
     end.
Proof.
  cbv zeta.
  unfold result, after, profileFormUtils.saveProfile, try_catch, mbind,
    Async_bind, mret, Async_ret, throw, console_error, emit,
    profileFormUtils.timestamp_now, profileFormUtils.getUser, delivers.
  destruct w as [d s n o t g c l]. cbn.
  destruct s as [u |]; destruct n as [| [| e | e] rest]; cbn;
    try (split; [eexists; reflexivity | reflexivity]).
  all: match goal with
       | |- context [profileFormUtils.write_profile ?uu ?vv ?tt ?pp ?w1] =>
           destruct (profileFormUtils.write_profile uu vv tt pp w1)
             as [[a | e] w2]
       end; cbn.
  all: try (split; [eexists; reflexivity | reflexivity]).
  all: match goal with
       | a : Reply () |- _ => destruct (error a) as [e |]; cbn
       end;
    try (split; [eexists; reflexivity | reflexivity]).
  all: match goal with
       | w2 : World |- _ => destruct (delivers w2) eqn:Hd
       end;
    [ rewrite (request_delivered _ _ _ w2 Hd), exec_single_db;
      destruct (error (fst (profileFormUtils.exec_single u (db w2))));
      cbn;
      (split; [eexists; reflexivity |]);
      destruct w2; reflexivity
    | destruct (request_failed "employer_profiles"
                  (profileFormUtils.lookup_stmt u Single)
                  (profileFormUtils.exec_single u) w2 Hd)
        as (e & [Hreq | Hreq]); rewrite Hreq; cbn;
      (split; [eexists; reflexivity |]);
      destruct w2; reflexivity ].
Qed.

End SaveProfile.

Lemma profile_write_transport (u : string)
    (values : profileFormUtils.ProfileFormData)
    (profile : option EmployerProfile.t) (w1 w : World)
    (rows' : list EmployerProfile.t) :
  db w1 = db w -> now w1 = now w -> uuid w1 = uuid w ->
  profile_write u values profile w1 rows' ->
  profile_write u values profile w rows'.
Proof.
  intros Hdb Hnow Huuid Hw.
  destruct Hw as [Hrows | id Hid Hrows | existing Hid Hin Hu Hrows
                 | Hid Hcount Hrows];
    rewrite ?Hdb, ?Hnow, ?Huuid in *.
  - apply NothingWritten. exact Hrows.
  - eapply UpdatedGiven; eassumption.
  - eapply UpdatedExisting; eassumption.
  - apply InsertedFirst; assumption.
Qed.

(** *** On a transport that delivers *)

Lemma write_profile_delivered (u : string)
    (values : profileFormUtils.ProfileFormData)
    (profile : option EmployerProfile.t) (w : World) :
  fault_free w ->
  let m := profileFormUtils.write_profile u values (now w) profile in
  employer_profiles (db (after m w)) =
  if profileFormUtils.unique_user_id (attempted_write u values profile w)
  then attempted_write u values profile w
  else employer_profiles (db w).
Proof.
  intros Hff. cbv zeta.
  unfold after, profileFormUtils.write_profile, attempted_write.
  destruct (profileFormUtils.profile_id profile) as [id |].
  - rewrite (request_delivered _ _ _ w (fault_free_delivers w Hff)).
    cbn [snd]. unfold profileFormUtils.exec_update, profileFormUtils.commit.
    destruct (profileFormUtils.unique_user_id _); destruct w, db0;
      reflexivity.
  - unfold mbind, Async_bind.
    rewrite (request_delivered _ _ _ w (fault_free_delivers w Hff)).
    rewrite exec_maybeSingle_db.
    set (w1 := with_db (db w)
                 (sent "employer_profiles"
                    (profileFormUtils.lookup_stmt u MaybeSingle) w)).
    assert (Hd1 : delivers w1 = true).
    { apply fault_free_delivers. apply (fault_free_next w); [| exact Hff].
      destruct w; reflexivity. }
    destruct (data (fst (profileFormUtils.exec_maybeSingle u (db w))))
      as [existing |].
    + rewrite (request_delivered _ _ _ w1 Hd1). cbn [snd].
      unfold profileFormUtils.exec_update, profileFormUtils.commit.
      replace (db w1) with (db w) by (destruct w; reflexivity).
      destruct (profileFormUtils.unique_user_id _); destruct w, db0;
        reflexivity.
    + rewrite (request_delivered _ _ _ w1 Hd1). cbn [snd].
      unfold profileFormUtils.exec_insert.
      replace (db w1) with (db w) by (destruct w; reflexivity).
      replace (uuid w1) with (uuid w) by (destruct w; reflexivity).
      destruct (profileFormUtils.unique_user_id _); destruct w, db0;
        reflexivity.
Qed.

Lemma count_user_ext (u : string) (rows rows' : list EmployerProfile.t) :
  List.map EmployerProfile.user_id rows
    = List.map EmployerProfile.user_id rows' ->
  profileFormUtils.count_user u rows = profileFormUtils.count_user u rows'.
Proof.
  unfold profileFormUtils.count_user. revert rows'.
  induction rows as [| r rows IH]; intros [| r' rows'] Hmap;
    try discriminate; [reflexivity |].
  cbn in Hmap. injection Hmap as Hr Hrows. cbn [List.filter].
  rewrite Hr. destruct (bool_decide _); cbn [length]; rewrite (IH _ Hrows);
    reflexivity.
Qed.

(** Rewriting the rows of an id that only user [u] holds leaves every
    row with the owner it had. *)
Lemma update_keeps_owners (u id : string)
    (values : profileFormUtils.ProfileFormData) (timestamp : Z)
    (rows : list EmployerProfile.t) :
  owns_id u id rows ->
  List.map EmployerProfile.user_id
    (update_where (F_eq "id" id)
       (profileFormUtils.apply_profileData u values timestamp) rows)
  = List.map EmployerProfile.user_id rows.
Proof.
  unfold update_where. induction rows as [| r rows IH]; intros Hown;
    [reflexivity |].
  cbn [List.map]. rewrite IH.
  - f_equal. change (holds (F_eq "id" id) r)
      with (String.eqb (EmployerProfile.id r) id).
    destruct (String.eqb_spec (EmployerProfile.id r) id) as [Heq | Hne];
      [| reflexivity].
    cbn. symmetry. apply Hown; [left; reflexivity | exact Heq].
  - intros r' Hin. apply Hown. right. exact Hin.
Qed.

Lemma update_passes_check (u id : string)
    (values : profileFormUtils.ProfileFormData) (timestamp : Z)
    (rows : list EmployerProfile.t) :
  one_profile_per_user rows ->
  owns_id u id rows ->
  profileFormUtils.unique_user_id
    (update_where (F_eq "id" id)
       (profileFormUtils.apply_profileData u values timestamp) rows) = true.
Proof.
  intros Hone Hown. apply unique_user_id_spec. intros v.
  rewrite (count_user_ext v _ rows); [apply Hone |].
  apply update_keeps_owners, Hown.
Qed.

Lemma insert_passes_check (u id : string)
    (values : profileFormUtils.ProfileFormData) (timestamp : Z)
    (rows : list EmployerProfile.t) :
  one_profile_per_user rows ->
  profileFormUtils.count_user u rows = 0%nat ->
  profileFormUtils.unique_user_id
    (rows ++ [profileFormUtils.new_profile id u values timestamp]) = true.
Proof.
  intros Hone Hnone. apply unique_user_id_spec. intros v.
  rewrite count_user_app. unfold profileFormUtils.count_user at 2.
  cbn [List.filter profileFormUtils.new_profile EmployerProfile.user_id].
  destruct (bool_decide (Some u = Some v)) eqn:Huv; cbn [length].
  - apply bool_decide_eq_true in Huv. injection Huv as <-.
    rewrite Hnone. lia.
  - specialize (Hone v). lia.
Qed.

Lemma filter_single {A : Type} (p : A -> bool) (l : list A) (x : A) :
  (length (List.filter p l) <= 1)%nat -> In x l -> p x = true ->
  List.filter p l = [x].
Proof.
  intros Hlen Hin Hp.
  assert (Hx : In x (List.filter p l)) by (apply List.filter_In; auto).
  destruct (List.filter p l) as [| y [| z rest]]; cbn in *.
  - contradiction.
  - destruct Hx as [-> | []]. reflexivity.
  - lia.
Qed.

Lemma exec_maybeSingle_finds (u : string) (d : Db)
    (existing : EmployerProfile.t) :
  one_profile_per_user (employer_profiles d) ->
  In existing (employer_profiles d) ->
  EmployerProfile.user_id existing = Some u ->
  data (fst (profileFormUtils.exec_maybeSingle u d)) = Some existing.
Proof.
  intros Hone Hin Hu. unfold profileFormUtils.exec_maybeSingle.
  rewrite select_user_id_profile.
  rewrite (filter_single _ _ existing); [reflexivity | apply Hone | exact Hin |].
  apply bool_decide_eq_true. exact Hu.
Qed.

Lemma exec_maybeSingle_none (u : string) (d : Db) :
  profileFormUtils.count_user u (employer_profiles d) = 0%nat ->
  data (fst (profileFormUtils.exec_maybeSingle u d)) = None.
Proof.
  unfold profileFormUtils.exec_maybeSingle, profileFormUtils.count_user.
  rewrite select_user_id_profile. intros Hnone.
  destruct (List.filter _ _) as [| x rest]; [reflexivity | discriminate].
Qed.

(** On a transport that delivers, with user [u] signed in and at most one
    profile per user, [saveProfile] does write: given a profile id whose
    rows are the user's, it rewrites them in place; given none and a row
    of the user, it rewrites that row in place; given none and no row of
    the user, it appends the new row. *)
Lemma saveProfile_writes (u : string)
    (values : profileFormUtils.ProfileFormData)
    (profile : option EmployerProfile.t) (w : World) :
  fault_free w ->
  session w = Some u ->
  one_profile_per_user (employer_profiles (db w)) ->
  let m := profileFormUtils.saveProfile values profile in
  let rows := employer_profiles (db w) in
  let rows' := employer_profiles (db (after m w)) in
  let set := profileFormUtils.apply_profileData u values (now w) in
  (forall id : string,
     profileFormUtils.profile_id profile = Some id ->
     owns_id u id rows ->
     rows' = update_where (F_eq "id" id) set rows)
  /\ (forall existing : EmployerProfile.t,
        profileFormUtils.profile_id profile = None ->
        In existing rows ->
        EmployerProfile.user_id existing = Some u ->
        owns_id u (EmployerProfile.id existing) rows ->
        rows' = update_where (F_eq "id" (EmployerProfile.id existing)) set rows)
  /\ (profileFormUtils.profile_id profile = None ->
      profileFormUtils.count_user u rows = 0%nat ->
      rows' =
        rows ++
        [profileFormUtils.new_profile (uuid w (generated (db w))) u values
           (now w)]).
Proof.
  intros Hff Hsession Hone. cbv zeta.
  destruct (saveProfile_store values profile w) as [_ Hstore].
  rewrite Hsession, (fault_free_delivers w Hff) in Hstore.
  destruct (getUser_keeps w) as (Hdb & Hnow & Huuid).
  assert (Hff1 : fault_free (after profileFormUtils.getUser w)).
  { apply (fault_free_next w); [| exact Hff].
    apply (getUser_net u). exact Hsession. }
  rewrite Hstore, <- Hnow.
  rewrite (write_profile_delivered u values profile _ Hff1).
  unfold attempted_write. rewrite Hdb, Hnow, Huuid.
  repeat split.
  - intros id Hid Hown. rewrite Hid.
    rewrite (update_passes_check u id values (now w) _ Hone Hown).
    reflexivity.
  - intros existing Hid Hin Hu Hown. rewrite Hid.
    rewrite (exec_maybeSingle_finds u (db w) existing Hone Hin Hu).
    rewrite (update_passes_check u _ values (now w) _ Hone Hown).
    reflexivity.
  - intros Hid Hnone. rewrite Hid.
    rewrite (exec_maybeSingle_none u (db w) Hnone).
    rewrite (insert_passes_check u _ values (now w) _ Hone Hnone).
    reflexivity.
Qed.

Section LookupError.

#[local] Arguments select_where : simpl never.
#[local] Arguments profileFormUtils.unique_user_id : simpl never.

(** Whatever the store holds: when no profile id is passed and the lookup
    of the existing profile is answered with an error, the next request
    is the insert. *)
Lemma saveProfile_lookup_error_ignored (u : string)
    (values : profileFormUtils.ProfileFormData)
    (profile : option EmployerProfile.t) (e : Err) (rest : list Transport)
    (w : World) :
  session w = Some u ->
  profileFormUtils.profile_id profile = None ->
  net w = Deliver :: Fail e :: rest ->
  exists more : list Event,
    events (profileFormUtils.saveProfile values profile) w =
    [AuthGetUser;
     Request "employer_profiles"
       (profileFormUtils.lookup_stmt u MaybeSingle);
     Request "employer_profiles" profileFormUtils.insert_stmt] ++ more.
Proof.
  intros Hsession Hid Hnet.
  unfold events, after, profileFormUtils.saveProfile,
    profileFormUtils.write_profile,
    profileFormUtils.timestamp_now, profileFormUtils.getUser,
    profileFormUtils.exec_insert, profileFormUtils.exec_single.
  rewrite Hid.
  destruct w as [d s n o t g c l]. cbn in Hsession, Hnet. subst s n.
  destruct rest as [| [| e1 | e1] [| [| e2 | e2] rest']];
    run_hook;
    repeat match goal with
           | |- context [profileFormUtils.unique_user_id ?rows] =>
               destruct (profileFormUtils.unique_user_id rows); cbn
           | |- context [select_where ?f ?rows] =>
               destruct (select_where f rows) as [| ? [| ? ?]]; cbn
           end;
    eexists; repeat rewrite <- app_assoc; cbn [app];
    rewrite (drop_app_length l); reflexivity.
Qed.

End LookupError.

(** C10 at the failing input.  User u1 has a profile and saves without
    passing one.  With every request delivered the lookup finds the row,
    and the update of that row is sent: it is rewritten where it stands,
    with its id and the new values.  With the lookup answered by an
    error, only its data is read, never its error: the insert is sent
    although u1 has a row.  The unique constraint of the database rejects
    it, nothing is written, and what the user is told is the duplicate
    key, not the failed lookup. *)
Theorem saveProfile_inserts_after_failed_lookup :
  let m := profileFormUtils.saveProfile Scenario.values None in
  profileFormUtils.count_user "u1"
    (employer_profiles (db Scenario.world)) = 1%nat
  /\ db Scenario.world_lookup_lost = db Scenario.world
  /\ (events m Scenario.world =
      [AuthGetUser;
       Request "employer_profiles"
         (profileFormUtils.lookup_stmt "u1" MaybeSingle);
       Request "employer_profiles" (profileFormUtils.update_stmt "p1");
       Request "employer_profiles"
         (profileFormUtils.lookup_stmt "u1" Single)]
      /\ List.map
           (fun r =>
              (EmployerProfile.id r, EmployerProfile.user_id r,
               EmployerProfile.company_name r))
           (employer_profiles (db (after m Scenario.world)))
         = [("p1", Some "u1", "Acme Pte Ltd")])
  /\ events m Scenario.world_lookup_lost =
     [AuthGetUser;
      Request "employer_profiles"
        (profileFormUtils.lookup_stmt "u1" MaybeSingle);
      Request "employer_profiles" profileFormUtils.insert_stmt;
      ConsoleError "Error saving profile:";
      ConsoleError "Error in saveProfile:"]
  /\ result m Scenario.world_lookup_lost
     = Returned (mkReply None (Some (PostgresError "23505")))
  /\ employer_profiles (db (after m Scenario.world_lookup_lost))
     = [Scenario.profile1].
Proof. vm_compute. repeat split. Qed.

(** User u2 has none: a row is inserted after the one of u1. *)
Example saveProfile_inserts_first :
  let m := profileFormUtils.saveProfile Scenario.values None in
  List.map EmployerProfile.user_id
    (employer_profiles (db (after m Scenario.world_u2)))
    = [Some "u1"; Some "u2"]
  /\ events m Scenario.world_u2 =
     [AuthGetUser;
      Request "employer_profiles"
        (profileFormUtils.lookup_stmt "u2" MaybeSingle);
      Request "employer_profiles" profileFormUtils.insert_stmt;
      Request "employer_profiles" (profileFormUtils.lookup_stmt "u2" Single)].
Proof. vm_compute. repeat split. Qed.

(** * Further properties of the hooks *)

(** ** [useShortlists]: a scoped clear *)

Lemma delete_where_user_id_cv_match (u : string) (rows : list CvMatch.t) :
  delete_where (F_eq "user_id" u) rows = List.filter (not_of u) rows.
Proof.
  unfold delete_where, not_of. apply filter_ext_bool.
  intros r. rewrite holds_eq_user_id_cv_match. reflexivity.
Qed.

(** X1: with a user id that passes the guard, [handleClearMatches] removes
    that user's matches and nothing else: delivered, the relation keeps the
    matches of everybody else, in their order; not delivered, it keeps
    everything.  The other relations and the query cache are untouched
    either way. *)
Theorem handleClearMatches_keeps_other_users (u : string) (w : World) :
  Js.truthy_string u = true ->
  let m := useShortlists.handleClearMatches (Some u) in
  cv_match (db (after m w)) =
    (if delivers w then List.filter (not_of u) (cv_match (db w))
     else cv_match (db w))
  /\ job_descriptions (db (after m w)) = job_descriptions (db w)
  /\ employer_profiles (db (after m w)) = employer_profiles (db w)
  /\ cv_metadata (db (after m w)) = cv_metadata (db w).
Proof.
  intros Hu. cbv zeta.
  pose proof (handleClearMatches_run (Some u) w) as H. cbv zeta in H.
  unfold useShortlists.clear_filter in H. rewrite Hu in H.
  unfold delivers.
  destruct (net w) as [| [| e | e] rest];
    destruct H as (_ & Hdb & _ & _); rewrite Hdb; cbn;
    rewrite ?delete_where_user_id_cv_match; repeat split.
Qed.

Lemma handleClearMatches_keeps_other_users_witness :
  cv_match
    (db (after (useShortlists.handleClearMatches (Some "u1")) Scenario.world))
  = [Scenario.match2].
Proof.
  exact (proj1 (handleClearMatches_keeps_other_users "u1" Scenario.world
                  eq_refl)).
Defined.

(** ** [useJobDescriptions]: from the session to the list *)

Lemma fetchUserId_run (w : World) :
  useJobDescriptionsAuth.fetchUserId None w =
  match net w with
  | [] => (Returned (session w), w)
  | Deliver :: rest => (Returned (session w), with_net rest w)
  | Fail e :: rest =>
      (Returned None,
       with_log (log w ++ [ConsoleError "Error fetching user session:"])
         (with_net rest w))
  | Reject e :: rest => (Thrown e, with_net rest w)
  end.
Proof.
  unfold useJobDescriptionsAuth.fetchUserId,
    useJobDescriptionsAuth.getSession.
  destruct w as [d s n o t g c l].
  destruct n as [| [| e | e] rest]; run_hook;
    try destruct s; reflexivity.
Qed.

(** X2: the [userId] the hook ends up with is the user of the session when
    the identity service answers, and null when it fails or there is no
    session; resolving it never touches the store.  While it is null the
    list is empty and no request is sent. *)
Theorem mount_resolves_userId (w : World) :
  let userId := useJobDescriptionsAuth.userId_after_mount w in
  let w' := after (useJobDescriptionsAuth.fetchUserId None) w in
  userId = (if delivers w then session w else None)
  /\ db w' = db w
  /\ queryCache w' = queryCache w
  /\ (userId = None ->
      useJobDescriptions.jobDescriptions userId w' = (Returned [], w')).
Proof.
  cbv zeta. unfold useJobDescriptionsAuth.userId_after_mount, result, after,
    delivers.
  rewrite fetchUserId_run.
  destruct (net w) as [| [| e | e] rest]; cbn; repeat split;
    intros ->; reflexivity.
Qed.

(** ** [useJobDescriptions]: update, then list *)

Lemma insert_desc_map (f : JobDescription.t -> JobDescription.t)
    (r : JobDescription.t) (l : list JobDescription.t) :
  (forall x, JobDescription.created_at (f x) = JobDescription.created_at x) ->
  useJobDescriptions.insert_desc (f r) (List.map f l) =
  List.map f (useJobDescriptions.insert_desc r l).
Proof.
  intros Hf. induction l as [| x l IH]; [reflexivity |].
  cbn. rewrite !Hf. destruct (_ <=? _)%Z; cbn; [reflexivity |].
  rewrite IH. reflexivity.
Qed.

Lemma order_desc_map (f : JobDescription.t -> JobDescription.t)
    (l : list JobDescription.t) :
  (forall x, JobDescription.created_at (f x) = JobDescription.created_at x) ->
  useJobDescriptions.order_desc (List.map f l) =
  List.map f (useJobDescriptions.order_desc l).
Proof.
  intros Hf. unfold useJobDescriptions.order_desc.
  induction l as [| x l IH]; [reflexivity |].
  cbn [List.map List.fold_right]. rewrite IH. apply insert_desc_map, Hf.
Qed.

Lemma filter_map_commute {A : Type} (p : A -> bool) (f : A -> A)
    (l : list A) :
  (forall x, p (f x) = p x) ->
  List.filter p (List.map f l) = List.map f (List.filter p l).
Proof.
  intros Hp. induction l as [| x l IH]; [reflexivity |].
  cbn. rewrite Hp. destruct (p x); cbn; rewrite IH; reflexivity.
Qed.

(** The rewrite [handleUpdate] asks for, as a function on rows. *)
Lemma update_where_as_map (jd : JobDescription.t)
    (rows : list JobDescription.t) :
  update_where (F_eq "id" (JobDescription.id jd))
    (useJobDescriptions.apply_updateData jd) rows =
  List.map
    (fun r =>
       if String.eqb (JobDescription.id r) (JobDescription.id jd)
       then useJobDescriptions.apply_updateData jd r else r)
    rows.
Proof. reflexivity. Qed.

Lemma items_after_update (u : string) (jd : JobDescription.t)
    (rows : list JobDescription.t) :
  useJobDescriptions.order_desc
    (List.filter (owned_by u)
       (update_where (F_eq "id" (JobDescription.id jd))
          (useJobDescriptions.apply_updateData jd) rows)) =
  List.map
    (fun r =>
       if String.eqb (JobDescription.id r) (JobDescription.id jd)
       then useJobDescriptions.apply_updateData jd r else r)
    (useJobDescriptions.order_desc (List.filter (owned_by u) rows)).
Proof.
  rewrite update_where_as_map.
  rewrite filter_map_commute.
  - apply order_desc_map. intros x. destruct (String.eqb _ _); reflexivity.
  - intros x. unfold owned_by. destruct (String.eqb _ _); reflexivity.
Qed.

(** X3: an update that is delivered shows in the next list of every
    non-empty user id over a delivering transport: the list has the same
    job descriptions in the same order as the store held for that user
    before the update, and those with the id that was updated carry the six
    columns that were sent. *)
Theorem update_then_list (u : string) (jd : JobDescription.t) (w : World) :
  u <> EmptyString ->
  fault_free w ->
  let w1 := after (useJobDescriptions.handleUpdate jd) w in
  exists rows : list JobDescriptionView.t,
    result (useJobDescriptions.jobDescriptions (Some u)) w1 = Returned rows
    /\ shown_ids rows = shown_ids (useJobDescriptions.listing u (db w))
    /\ Forall (fun v => update_written jd (JobDescriptionView.item v)) rows.
Proof.
  intros Hu Hff. cbv zeta.
  assert (Ht : Js.truthy_string u = true)
    by (destruct u; [congruence | reflexivity]).
  unfold after. rewrite handleUpdate_run, (fault_free_delivers w Hff).
  cbn [snd].
  match goal with
  | |- context [refetched ?w0] => set (w1 := w0)
  end.
  assert (Hff1 : fault_free w1).
  { apply (fault_free_next w); [reflexivity | exact Hff]. }
  exists (useJobDescriptions.listing u (db w1)).
  split; [apply read_after_refetch_delivered; assumption |].
  assert (Hitems :
            List.map JobDescriptionView.item
              (useJobDescriptions.listing u (db w1)) =
            List.map
              (fun r =>
                 if String.eqb (JobDescription.id r) (JobDescription.id jd)
                 then useJobDescriptions.apply_updateData jd r else r)
              (List.map JobDescriptionView.item
                 (useJobDescriptions.listing u (db w)))).
  { rewrite !items_of_listing. subst w1. cbn. apply items_after_update. }
  split.
  - unfold shown_ids.
    rewrite <- (List.map_map JobDescriptionView.item JobDescription.id).
    rewrite <- (List.map_map JobDescriptionView.item JobDescription.id
                  (useJobDescriptions.listing u (db w))).
    rewrite Hitems, List.map_map. apply List.map_ext.
    intros r. destruct (String.eqb _ _); reflexivity.
  - apply Forall_forall. intros v Hv.
    apply list_elem_of_In in Hv.
    apply (List.in_map JobDescriptionView.item) in Hv.
    rewrite Hitems in Hv. apply List.in_map_iff in Hv.
    destruct Hv as (r & Hr & _). rewrite <- Hr. intros Hid.
    destruct (String.eqb_spec (JobDescription.id r) (JobDescription.id jd))
      as [Heq | Hne].
    + repeat split.
    + contradiction.
Qed.

Lemma update_then_list_witness :
  exists rows : list JobDescriptionView.t,
    result (useJobDescriptions.jobDescriptions (Some "u1"))
      (after (useJobDescriptions.handleUpdate Scenario.jdA) Scenario.world)
      = Returned rows
    /\ shown_ids rows = ["JD-B"; "JD-A"].
Proof.
  destruct (update_then_list "u1" Scenario.jdA Scenario.world)
    as (rows & Hres & Hids & _).
  - discriminate.
  - constructor.
  - exists rows. split; [exact Hres | exact Hids].
Defined.

(** ** [useJobDescriptions]: an id that no row has *)

Lemma delete_where_no_job (id : string) (rows : list JobDescription.t) :
  (forall r, In r rows -> JobDescription.id r <> id) ->
  delete_where (F_eq "id" id) rows = rows.
Proof.
  unfold delete_where. induction rows as [| r rows IH]; intros Hno;
    [reflexivity |].
  cbn [List.filter]. rewrite holds_eq_id_job.
  destruct (String.eqb_spec (JobDescription.id r) id) as [Heq | Hne].
  - exfalso. apply (Hno r); [left; reflexivity | exact Heq].
  - cbn. f_equal. apply IH. intros x Hx. apply Hno. right. exact Hx.
Qed.

Lemma update_where_no_job (jd : JobDescription.t)
    (rows : list JobDescription.t) :
  (forall r, In r rows -> JobDescription.id r <> JobDescription.id jd) ->
  update_where (F_eq "id" (JobDescription.id jd))
    (useJobDescriptions.apply_updateData jd) rows = rows.
Proof.
  unfold update_where. induction rows as [| r rows IH]; intros Hno;
    [reflexivity |].
  cbn [List.map]. rewrite holds_eq_id_job.
  destruct (String.eqb_spec (JobDescription.id r) (JobDescription.id jd))
    as [Heq | Hne].
  - exfalso. apply (Hno r); [left; reflexivity | exact Heq].
  - f_equal. apply IH. intros x Hx. apply Hno. right. exact Hx.
Qed.

(** X4: neither handler notices an id that matches nothing.  Delivered,
    an update or a confirmed delete of an id that no job description has
    leaves the relation as it was and still returns [true], shows the
    success notification and invalidates the cached lists, which are
    refetched. *)
Theorem missing_id_reports_success
    (jd : JobDescription.t) (jobId : string) (w : World) :
  delivers w = true ->
  (no_job_with (JobDescription.id jd) (db w) ->
   let m := useJobDescriptions.handleUpdate jd in
   result m w = Returned Js.RTrue
   /\ job_descriptions (db (after m w)) = job_descriptions (db w)
   /\ events m w =
      [update_request jd; update_ok_toast;
       InvalidateQueries "jobDescriptions"] ++ refetch_requests w)
  /\ (no_job_with jobId (db w) ->
      confirms w = true ->
      let m := useJobDescriptions.handleDelete jobId in
      result m w = Returned Js.RTrue
      /\ job_descriptions (db (after m w)) = job_descriptions (db w)
      /\ events m w =
         [delete_prompt; delete_request jobId; delete_ok_toast;
          InvalidateQueries "jobDescriptions"] ++ refetch_requests w).
Proof.
  intros Hd. split.
  - intros Hno. cbv zeta. unfold events, result, after.
    rewrite handleUpdate_run, Hd. cbn [fst snd].
    match goal with
    | |- context [refetched ?w0] => set (w1 := w0)
    end.
    destruct (refetched_frame w1) as (Hdb & _). rewrite Hdb.
    split; [reflexivity |]. split.
    + cbn. apply update_where_no_job, Hno.
    + rewrite refetched_log. subst w1. cbn [log with_db with_net with_log].
      rewrite <- app_assoc. cbn [app]. apply drop_app_length.
  - intros Hno Hc. cbv zeta. unfold events, result, after.
    rewrite handleDelete_run, Hc. unfold delivers in Hd.
    destruct (net w) as [| [| e | e] rest]; try discriminate; cbn [fst snd].
    all: match goal with
         | |- context [refetched ?w0] => set (w1 := w0)
         end.
    all: destruct (refetched_frame w1) as (Hdb & _); rewrite Hdb.
    all: split; [reflexivity |].
    all: split; [cbn; apply delete_where_no_job, Hno |].
    all: rewrite refetched_log; subst w1;
      cbn [log with_db with_net with_operator with_log];
      rewrite <- app_assoc; cbn [app]; apply drop_app_length.
Qed.

Lemma missing_id_reports_success_witness :
  result (useJobDescriptions.handleDelete "JD-Z") Scenario.confirming
    = Returned Js.RTrue
  /\ job_descriptions
       (db (after (useJobDescriptions.handleDelete "JD-Z")
              Scenario.confirming))
     = [Scenario.jdA; Scenario.jdB; Scenario.jdC].
Proof.
  destruct (missing_id_reports_success Scenario.jdA "JD-Z"
              Scenario.confirming eq_refl) as [_ Hdelete].
  destruct Hdelete as (Hres & Hrows & _).
  - intros r Hin.
    destruct Hin as [<- | [<- | [<- | []]]]; discriminate.
  - reflexivity.
  - split; [exact Hres | exact Hrows].
Defined.

(** ** [useJobDescriptions]: the cache and the store *)

(** X5: the three operations of the hook keep the query cache in step
    with the store: if every cached list that is not marked invalidated is
    what the store would answer now, the same holds after a read, an
    update or a delete, whatever the user id, the operator and the
    transport do.  (A list whose refetch fails keeps its old data and
    stays marked.) *)
Theorem operations_keep_cache_coherent
    (userId : option string) (jd : JobDescription.t) (jobId : string)
    (w : World) :
  cache_coherent w ->
  cache_coherent (after (useJobDescriptions.jobDescriptions userId) w)
  /\ cache_coherent (after (useJobDescriptions.handleUpdate jd) w)
  /\ cache_coherent (after (useJobDescriptions.handleDelete jobId) w).
Proof.
  intros Hco. split; [| split].
  - apply jobDescriptions_keeps_coherent, Hco.
  - apply handleUpdate_keeps_coherent, Hco.
  - apply handleDelete_keeps_coherent, Hco.
Qed.

Lemma operations_keep_cache_coherent_witness :
  cache_coherent
    (after (useJobDescriptions.handleUpdate Scenario.jdA)
       (after (useJobDescriptions.jobDescriptions (Some "u1"))
          Scenario.world)).
Proof.
  assert (H0 : cache_coherent Scenario.world)
    by (apply cache_coherent_empty; reflexivity).
  pose proof (proj1 (operations_keep_cache_coherent (Some "u1") Scenario.jdA
                       "JD-A" Scenario.world H0)) as H1.
  exact (proj1 (proj2 (operations_keep_cache_coherent (Some "u1")
                         Scenario.jdA "JD-A" _ H1))).
Defined.

(** X6: neither handler lets a failure of the transport escape: for
    every behaviour of the transport and of the operator, [handleUpdate]
    resolves to [true] or [false], and [handleDelete] resolves (to
    [true], [false] or [undefined]) rather than rejecting; and whenever
    either returns anything but [true], the store and the cached lists are
    as they were. *)
Theorem handlers_contain_failures
    (jd : JobDescription.t) (jobId : string) (w : World) :
  (exists r : Js.ret,
     result (useJobDescriptions.handleUpdate jd) w = Returned r
     /\ Js.is_boolean r = true
     /\ (r <> Js.RTrue ->
         db (after (useJobDescriptions.handleUpdate jd) w) = db w
         /\ queryCache (after (useJobDescriptions.handleUpdate jd) w)
            = queryCache w))
  /\ (exists r : Js.ret,
        result (useJobDescriptions.handleDelete jobId) w = Returned r
        /\ (r <> Js.RTrue ->
            db (after (useJobDescriptions.handleDelete jobId) w) = db w
            /\ queryCache (after (useJobDescriptions.handleDelete jobId) w)
               = queryCache w)).
Proof.
  split.
  - unfold result, after. rewrite handleUpdate_run.
    destruct (delivers w); eexists; (split; [reflexivity |]);
      (split; [reflexivity |]); intros Hr;
      [contradiction | split; reflexivity].
  - unfold result, after. rewrite handleDelete_run.
    destruct (confirms w);
      [destruct (net w) as [| [| e | e] rest] |];
      eexists; (split; [reflexivity |]); intros Hr;
      try contradiction; split; reflexivity.
Qed.

(** ** [useEmployerProfile]: the list of profiles *)

Lemma not_older_total (a b : option Z) :
  useEmployerProfile.not_older a b = false ->
  useEmployerProfile.not_older b a = true.
Proof.
  destruct a as [x |], b as [y |]; cbn; try discriminate; try reflexivity.
  intros H. apply Z.leb_gt in H. apply Z.leb_le. lia.
Qed.

Lemma not_older_trans (a b c : option Z) :
  useEmployerProfile.not_older a b = true ->
  useEmployerProfile.not_older b c = true ->
  useEmployerProfile.not_older a c = true.
Proof.
  destruct a as [x |], b as [y |], c as [z |]; cbn;
    try discriminate; try reflexivity.
  intros H1 H2. apply Z.leb_le in H1, H2. apply Z.leb_le. lia.
Qed.

Lemma profile_insert_desc_perm (r : EmployerProfile.t)
    (l : list EmployerProfile.t) :
  Permutation (useEmployerProfile.insert_desc r l) (r :: l).
Proof.
  induction l as [| x l IH]; cbn.
  - reflexivity.
  - destruct (useEmployerProfile.not_older _ _).
    + reflexivity.
    + rewrite IH. apply perm_swap.
Qed.

Lemma profile_order_desc_perm (l : list EmployerProfile.t) :
  Permutation (useEmployerProfile.order_desc l) l.
Proof.
  induction l as [| x l IH]; cbn.
  - reflexivity.
  - rewrite profile_insert_desc_perm. constructor. exact IH.
Qed.

Lemma profile_insert_desc_sorted (r : EmployerProfile.t)
    (l : list EmployerProfile.t) :
  StronglySorted stored_newer_first l ->
  StronglySorted stored_newer_first (useEmployerProfile.insert_desc r l).
Proof.
  induction 1 as [| x l Hsorted IH Hall]; cbn.
  - repeat constructor.
  - destruct (useEmployerProfile.not_older (EmployerProfile.created_at r)
                (EmployerProfile.created_at x)) eqn:Hrx.
    + constructor.
      * constructor; assumption.
      * constructor; [exact Hrx |].
        eapply Forall_impl; [exact Hall |].
        intros y Hy. unfold stored_newer_first in *.
        eapply not_older_trans; eassumption.
    + constructor; [exact IH |].
      rewrite (profile_insert_desc_perm r l).
      constructor; [apply not_older_total, Hrx | exact Hall].
Qed.

Lemma profile_order_desc_sorted (l : list EmployerProfile.t) :
  StronglySorted stored_newer_first (useEmployerProfile.order_desc l).
Proof.
  induction l as [| x l IH]; cbn.
  - constructor.
  - apply profile_insert_desc_sorted, IH.
Qed.

Lemma transform_shown_order (today : Z) (a b : EmployerProfile.t) :
  (forall t, EmployerProfile.created_at b = Some t -> (t <= today)%Z) ->
  stored_newer_first a b ->
  shown_newer_first (useEmployerProfile.transform today a)
    (useEmployerProfile.transform today b).
Proof.
  unfold stored_newer_first, shown_newer_first. cbn.
  destruct (EmployerProfile.created_at a) as [x |],
           (EmployerProfile.created_at b) as [y |]; cbn;
    intros Hpast H; try discriminate.
  - apply Z.leb_le, H.
  - apply Hpast. reflexivity.
  - lia.
Qed.

Lemma sorted_map_transform (today : Z) (l : list EmployerProfile.t) :
  none_created_after today l ->
  StronglySorted stored_newer_first l ->
  StronglySorted shown_newer_first
    (List.map (useEmployerProfile.transform today) l).
Proof.
  intros Hpast Hsorted.
  induction Hsorted as [| x l Hsorted IH Hall]; cbn; constructor.
  - apply IH. intros r t Hin. apply Hpast. right. exact Hin.
  - apply Forall_forall. intros y' Hy'.
    apply list_elem_of_In, List.in_map_iff in Hy'.
    destruct Hy' as (y & <- & Hy).
    apply transform_shown_order.
    + intros t. apply Hpast. right. exact Hy.
    + rewrite Forall_forall in Hall. apply Hall.
      apply list_elem_of_In. exact Hy.
Qed.

(** X7: the list of employer profiles is not scoped to a user.  Delivered,
    it returns every row of the relation, of whichever user, once, each
    with a creation and an update time (a missing one is shown as now);
    not delivered, the query function throws.  Provided no stored creation
    time lies in the future, the rows come newest first by the creation
    time they show. *)
Theorem employer_profiles_listing (w : World) :
  let m := useEmployerProfile.queryFn in
  db (after m w) = db w
  /\ if delivers w then
       exists rows : list EmployerProfile.t,
         result m w = Returned rows
         /\ Permutation rows
              (List.map (useEmployerProfile.transform (now w))
                 (employer_profiles (db w)))
         /\ Permutation (List.map EmployerProfile.user_id rows)
              (List.map EmployerProfile.user_id (employer_profiles (db w)))
         /\ Forall
              (fun r =>
                 EmployerProfile.created_at r <> None
                 /\ EmployerProfile.updated_at r <> None)
              rows
         /\ (none_created_after (now w) (employer_profiles (db w)) ->
             StronglySorted shown_newer_first rows)
     else exists e : Err, result m w = Thrown e.
Proof.
  cbv zeta.
  unfold result, after, useEmployerProfile.queryFn, mbind, Async_bind,
    delivers.
  destruct w as [d s n o t g c l].
  destruct n as [| [| e | e] rest]; run_hook.
  3, 4: split; [reflexivity | exists e; reflexivity].
  all: split; [destruct d; reflexivity |].
  all: eexists; split; [reflexivity |].
  all: assert (Hperm :
                 Permutation
                   (List.map (useEmployerProfile.transform t)
                      (useEmployerProfile.order_desc (employer_profiles d)))
                   (List.map (useEmployerProfile.transform t)
                      (employer_profiles d)))
         by (apply Permutation_map, profile_order_desc_perm).
  all: split; [exact Hperm |].
  all: split;
         [rewrite (Permutation_map EmployerProfile.user_id Hperm);
          rewrite List.map_map; reflexivity |].
  all: split;
         [apply Forall_forall; intros r Hr;
          apply list_elem_of_In, List.in_map_iff in Hr;
          destruct Hr as (r0 & <- & _); cbn; split; discriminate |].
  all: intros Hpast.
  all: apply sorted_map_transform; [| apply profile_order_desc_sorted].
  all: intros r x Hin; apply Hpast;
         apply (Permutation_in _ (profile_order_desc_perm _)); exact Hin.
Qed.

Lemma employer_profiles_listing_witness :
  exists rows : list EmployerProfile.t,
    result useEmployerProfile.queryFn Scenario.world = Returned rows
    /\ Permutation rows
         (List.map (useEmployerProfile.transform (now Scenario.world))
            (employer_profiles (db Scenario.world)))
    /\ StronglySorted shown_newer_first rows.
Proof.
  assert (Hpast : none_created_after (now Scenario.world)
                    (employer_profiles (db Scenario.world))).
  { intros r t [<- | []] [= <-]. vm_compute. discriminate. }
  destruct (proj2 (employer_profiles_listing Scenario.world))
    as (rows & Hres & Hperm & _ & _ & Hsorted).
  exists rows. split; [exact Hres |]. split; [exact Hperm |].
  exact (Hsorted Hpast).
Defined.

(** ** [ProfileForm]: the submit handler *)

Section FormProperties.
Variable UiState : Type.
Variable onCancel : UiState -> UiState.
Variable instanceof_Error : Err -> bool.
Variable default_alternate_contact : option EmployerProfile.AlternateContact.
Variable default_is_verified : bool.
Variable default_is_approved : bool.
Variable default_profile_completion : Z.

Let write :=
  ProfileForm.write default_alternate_contact default_is_verified
    default_is_approved default_profile_completion.
Let onSubmit :=
  ProfileForm.onSubmit UiState onCancel instanceof_Error
    default_alternate_contact default_is_verified default_is_approved
    default_profile_completion.
Let intended :=
  form_write default_alternate_contact default_is_verified
    default_is_approved default_profile_completion.

(** The write step: it logs no notification; when it returns, a user is
    signed in and the relation is what was asked for; when it throws, the
    store is as it was. *)
Lemma form_write_run (values : profileFormUtils.ProfileFormData)
    (profile : option EmployerProfile.t) (w : World) :
  exists pre : list Event,
    log (after (write values profile) w) = log w ++ pre
    /\ forallb quiet pre = true
    /\ queryCache (after (write values profile) w) = queryCache w
    /\ match result (write values profile) w with
       | Returned _ =>
           exists u : string,
             session w = Some u
             /\ employer_profiles (db (after (write values profile) w))
                = intended u values profile w
       | Thrown _ => db (after (write values profile) w) = db w
       end.
Proof.
  subst write intended. unfold ProfileForm.write, form_write, result, after,
    profileFormUtils.timestamp_now, profileFormUtils.getUser,
    ProfileForm.exec_update, ProfileForm.exec_insert, profileFormUtils.commit.
  destruct w as [d s n o t g c l].
  destruct (profileFormUtils.profile_id profile) as [id |];
    destruct s as [u |];
    destruct n as [| [| e1 | e1] [| [| e2 | e2] rest]];
    run_hook;
    repeat match goal with
           | |- context [profileFormUtils.unique_user_id ?rows] =>
               destruct (profileFormUtils.unique_user_id rows); cbn
           end;
    eexists; (split; [repeat rewrite <- app_assoc; reflexivity |]);
    (split; [reflexivity |]); (split; [reflexivity |]);
    try (destruct d; reflexivity);
    try (exists u; split; destruct d; reflexivity).
Qed.

Lemma onSubmit_run (values : profileFormUtils.ProfileFormData)
    (profile : option EmployerProfile.t) (ui : UiState) (w : World) :
  onSubmit values profile ui w =
  match write values profile w with
  | (Returned _, w1) =>
      (Returned (onCancel ui),
       with_log
         (log w1 ++
          [InvalidateQueries "employerProfiles";
           ProfileForm.success_toast profile])
         w1)
  | (Thrown e, w1) =>
      (Returned ui,
       with_log
         (log w1 ++
          [ConsoleError "Detailed error:";
           Toast "Error" (ProfileForm.describe instanceof_Error e) true])
         w1)
  end.
Proof.
  subst onSubmit write. unfold ProfileForm.onSubmit.
  unfold try_catch, mbind, Async_bind.
  destruct (ProfileForm.write _ _ _ _ values profile w) as [[[] | e] w1];
    run_hook; repeat rewrite <- app_assoc; reflexivity.
Qed.


Lemma second_profile_fails_check (u : string) (new : EmployerProfile.t)
    (rows : list EmployerProfile.t) :
  EmployerProfile.user_id new = Some u ->
  (exists r : EmployerProfile.t,
     In r rows /\ EmployerProfile.user_id r = Some u) ->
  profileFormUtils.unique_user_id (rows ++ [new]) = false.
Proof.
  intros Hnew (r & Hin & Hr).
  destruct (profileFormUtils.unique_user_id (rows ++ [new])) eqn:Hcheck;
    [| reflexivity].
  exfalso. apply unique_user_id_spec in Hcheck. specialize (Hcheck u).
  rewrite count_user_app in Hcheck.
  assert (Hrows : (1 <= profileFormUtils.count_user u rows)%nat).
  { unfold profileFormUtils.count_user.
    assert (Hf : In r (List.filter
                         (fun r => bool_decide
                                     (EmployerProfile.user_id r = Some u))
                         rows)).
    { apply List.filter_In. split; [exact Hin |].
      apply bool_decide_eq_true. exact Hr. }
    destruct (List.filter _ rows); [contradiction | cbn; lia]. }
  unfold profileFormUtils.count_user at 2 in Hcheck. cbn in Hcheck.
  rewrite bool_decide_eq_true_2 in Hcheck by exact Hnew.
  cbn in Hcheck. lia.
Qed.

(** X9: the form does not look for an existing profile.  Submitted without
    a profile by a user who already has one, over a transport that
    delivers, it sends an insert, which the unique constraint rejects:
    nothing is written, the form stays open, and the error is notified. *)
Theorem onSubmit_second_profile_rejected (u : string)
    (values : profileFormUtils.ProfileFormData)
    (profile : option EmployerProfile.t) (ui : UiState) (w : World) :
  fault_free w ->
  session w = Some u ->
  profileFormUtils.profile_id profile = None ->
  (exists r : EmployerProfile.t,
     In r (employer_profiles (db w))
     /\ EmployerProfile.user_id r = Some u) ->
  let m := onSubmit values profile ui in
  result m w = Returned ui
  /\ db (after m w) = db w
  /\ events m w =
     [AuthGetUser; Request "employer_profiles" ProfileForm.insert_stmt;
      ConsoleError "Insert error:"; ConsoleError "Detailed error:";
      Toast "Error"
        (ProfileForm.describe instanceof_Error (PostgresError "23505"))
        true].
Proof.
  intros Hff Hsession Hid Hrow. cbv zeta.
  unfold events, result, after. rewrite onSubmit_run.
  subst write. unfold ProfileForm.write, profileFormUtils.timestamp_now,
    profileFormUtils.getUser, ProfileForm.exec_insert.
  rewrite Hid.
  destruct w as [d s n o t g c l]. cbn in Hsession, Hrow. subst s.
  assert (Hcheck :
            forall id,
              profileFormUtils.unique_user_id
                (employer_profiles d ++
                 [ProfileForm.new_profile default_alternate_contact
                    default_is_verified default_is_approved
                    default_profile_completion id u values t]) = false).
  { intros id. apply (second_profile_fails_check u); [reflexivity |].
    exact Hrow. }
  unfold fault_free in Hff. cbn in Hff.
  destruct n as [| t1 [| t2 rest]];
    repeat match goal with
           | H : Forall _ (_ :: _) |- _ => inversion H; clear H; subst
           end;
    run_hook; rewrite Hcheck; cbn;
    (split; [reflexivity |]); (split; [reflexivity |]);
    repeat rewrite <- app_assoc; apply drop_app_length.
Qed.

Lemma update_keeps_standing (id user : string)
    (values : profileFormUtils.ProfileFormData) (timestamp : Z)
    (rows : list EmployerProfile.t) :
  Forall2 same_standing rows
    (update_where (F_eq "id" id)
       (ProfileForm.apply_profileData user values timestamp) rows).
Proof.
  unfold update_where. induction rows as [| r rows IH]; cbn [List.map];
    constructor; [| exact IH].
  destruct (holds (F_eq "id" id) r); repeat split.
Qed.

Lemma same_standing_refl (rows : list EmployerProfile.t) :
  Forall2 same_standing rows rows.
Proof.
  induction rows as [| r rows IH]; constructor; [repeat split | exact IH].
Qed.

(** X10: an update through the form leaves the standing of every
    profile alone: whatever the transport does, when the form is submitted
    with a profile that has an id, each row keeps its id, its verification
    and approval flags, its completion and its creation time. *)
Theorem onSubmit_update_keeps_standing (id : string)
    (values : profileFormUtils.ProfileFormData)
    (profile : option EmployerProfile.t) (ui : UiState) (w : World) :
  profileFormUtils.profile_id profile = Some id ->
  Forall2 same_standing (employer_profiles (db w))
    (employer_profiles (db (after (onSubmit values profile ui) w))).
Proof.
  intros Hid. unfold after. rewrite onSubmit_run.
  destruct (form_write_run values profile w) as (_ & _ & _ & _ & Hres).
  unfold result, after in Hres.
  destruct (write values profile w) as [[[] | e] w1]; cbn [fst snd] in *.
  - destruct Hres as (u & _ & Hrows). cbn. rewrite Hrows.
    subst intended. unfold form_write. rewrite Hid.
    apply update_keeps_standing.
  - cbn. rewrite Hres. apply same_standing_refl.
Qed.
End FormProperties.

Lemma onSubmit_second_profile_rejected_witness :
  db (after
        (ProfileForm.onSubmit bool (fun _ => false) (fun _ => false)
           None false false 0%Z Scenario.values None true)
        Scenario.world)
  = db Scenario.world.
Proof.
  refine (proj1 (proj2
            (onSubmit_second_profile_rejected bool (fun _ => false)
               (fun _ => false) None false false 0%Z "u1" Scenario.values
               None true Scenario.world _ eq_refl eq_refl _))).
  - constructor.
  - exists Scenario.profile1. split; [left |]; reflexivity.
Defined.

Lemma onSubmit_update_keeps_standing_witness :
  Forall2 same_standing (employer_profiles (db Scenario.world))
    (employer_profiles
       (db (after
              (ProfileForm.onSubmit bool (fun _ => false) (fun _ => false)
                 None false false 0%Z Scenario.values
                 (Some Scenario.profile1) true)
              Scenario.world))).
Proof.
  exact (onSubmit_update_keeps_standing bool (fun _ => false)
           (fun _ => false) None false false 0%Z "p1" Scenario.values
           (Some Scenario.profile1) true Scenario.world eq_refl).
Defined.

(** ** [saveProfile]: what it writes and what it returns *)

Lemma written_rows_reset (u : string)
    (values : profileFormUtils.ProfileFormData)
    (profile : option EmployerProfile.t) (w : World)
    (rows' : list EmployerProfile.t) (r' : EmployerProfile.t) :
  profile_write u values profile w rows' ->
  In r' rows' ->
  In r' (employer_profiles (db w)) \/ reset_standing r'.
Proof.
  intros Hw Hin.
  destruct Hw as [-> | id _ -> | existing _ _ _ -> | _ _ ->].
  - left. exact Hin.
  - unfold update_where in Hin. apply List.in_map_iff in Hin.
    destruct Hin as (r & <- & Hr).
    destruct (holds _ r); [right; repeat split | left; exact Hr].
  - unfold update_where in Hin. apply List.in_map_iff in Hin.
    destruct Hin as (r & <- & Hr).
    destruct (holds _ r); [right; repeat split | left; exact Hr].
  - apply List.in_app_iff in Hin. destruct Hin as [Hin | [<- | []]].
    + left. exact Hin.
    + right. repeat split.
Qed.

(** X11: saving a profile resets its standing.  Whatever the transport
    does, every row that [saveProfile] leaves in the relation is either a
    row that was there before, untouched, or unverified, unapproved and
    marked complete: a verified profile that is saved again loses its
    verification. *)
Theorem saveProfile_resets_standing
    (values : profileFormUtils.ProfileFormData)
    (profile : option EmployerProfile.t) (w : World)
    (r' : EmployerProfile.t) :
  In r'
    (employer_profiles
       (db (after (profileFormUtils.saveProfile values profile) w))) ->
  In r' (employer_profiles (db w)) \/ reset_standing r'.
Proof.
  intros Hin.
  destruct (saveProfile_store values profile w) as [_ Hstore].
  destruct (getUser_keeps w) as (Hdb & Hnow & Huuid).
  destruct (session w) as [u |];
    [destruct (delivers w) |];
    try (rewrite Hstore in Hin; left; exact Hin).
  rewrite Hstore, <- Hnow in Hin.
  destruct (write_profile_effect u values profile
              (after profileFormUtils.getUser w)) as [Hw _].
  apply (profile_write_transport u values profile _ w _ Hdb Hnow Huuid) in Hw.
  exact (written_rows_reset u values profile w _ r' Hw Hin).
Qed.

Lemma saveProfile_resets_standing_witness :
  reset_standing
    (profileFormUtils.apply_profileData "u2" Scenario.values 100
       Scenario.profile2).
Proof.
  destruct (saveProfile_resets_standing Scenario.values None
              Scenario.world_verified
              (profileFormUtils.apply_profileData "u2" Scenario.values 100
                 Scenario.profile2)) as [Hold | Hreset].
  - left. reflexivity.
  - destruct Hold as [Heq | []]. discriminate Heq.
  - exact Hreset.
Defined.

Lemma exec_single_some (u : string) (d : Db) (r : EmployerProfile.t) :
  data (fst (profileFormUtils.exec_single u d)) = Some r ->
  select_where (F_eq "user_id" u) (employer_profiles d) = [r].
Proof.
  unfold profileFormUtils.exec_single.
  destruct (select_where _ _) as [| x [| y rest]]; cbn; try discriminate.
  intros [= <-]. reflexivity.
Qed.

Section SaveProfileReply.

#[local] Arguments request : simpl never.
#[local] Arguments profileFormUtils.write_profile : simpl never.

(** A profile in the reply comes from the final lookup, run on the store
    as [saveProfile] leaves it. *)
Lemma saveProfile_reply (values : profileFormUtils.ProfileFormData)
    (profile : option EmployerProfile.t) (w : World)
    (reply : Reply EmployerProfile.t) (r : EmployerProfile.t) :
  let m := profileFormUtils.saveProfile values profile in
  result m w = Returned reply ->
  data reply = Some r ->
  error reply = None
  /\ exists u : string,
       session w = Some u
       /\ data (fst (profileFormUtils.exec_single u (db (after m w))))
          = Some r.
Proof.
  cbv zeta.
  unfold result, after, profileFormUtils.saveProfile, try_catch, mbind,
    Async_bind, mret, Async_ret, throw, console_error, emit,
    profileFormUtils.timestamp_now, profileFormUtils.getUser.
  destruct w as [d s n o t g c l]. cbn.
  destruct s as [u |]; destruct n as [| [| e | e] rest]; cbn;
    try (intros [= <-]; discriminate).
  all: match goal with
       | |- context [profileFormUtils.write_profile ?uu ?vv ?tt ?pp ?w1] =>
           destruct (profileFormUtils.write_profile uu vv tt pp w1)
             as [[a | e] w2]
       end; cbn.
  all: try (intros [= <-]; discriminate).
  all: match goal with
       | a : Reply () |- _ => destruct (error a) as [e |]; cbn
       end;
    try (intros [= <-]; discriminate).
  all: match goal with
       | w2 : World |- _ => destruct (delivers w2) eqn:Hd
       end;
    [ rewrite (request_delivered _ _ _ w2 Hd), exec_single_db;
      destruct (error (fst (profileFormUtils.exec_single u (db w2))));
      cbn; intros [= <-]; try discriminate;
      cbn; intros Hdata; (split; [reflexivity |]);
      exists u; (split; [reflexivity |]);
      destruct w2; exact Hdata
    | destruct (request_failed "employer_profiles"
                  (profileFormUtils.lookup_stmt u Single)
                  (profileFormUtils.exec_single u) w2 Hd)
        as (e & [Hreq | Hreq]); rewrite Hreq; cbn;
      intros [= <-]; discriminate ].
Qed.

End SaveProfileReply.

(** X12: a profile that [saveProfile] returns is real.  Whenever the
    reply carries a profile, for any behaviour of the transport, it
    carries no error, a user is signed in, and the profile is the one and
    only row of that user in the relation as [saveProfile] leaves it. *)
Theorem saveProfile_returns_the_users_row
    (values : profileFormUtils.ProfileFormData)
    (profile : option EmployerProfile.t) (w : World)
    (reply : Reply EmployerProfile.t) (r : EmployerProfile.t) :
  let m := profileFormUtils.saveProfile values profile in
  result m w = Returned reply ->
  data reply = Some r ->
  error reply = None
  /\ exists u : string,
       session w = Some u
       /\ EmployerProfile.user_id r = Some u
       /\ In r (employer_profiles (db (after m w)))
       /\ profileFormUtils.count_user u
            (employer_profiles (db (after m w))) = 1%nat.
Proof.
  cbv zeta. intros Hres Hdata.
  destruct (saveProfile_reply values profile w reply r Hres Hdata)
    as (Herr & u & Hsession & Hsingle).
  split; [exact Herr |]. exists u. split; [exact Hsession |].
  apply exec_single_some in Hsingle.
  assert (Hin : In r (select_where (F_eq "user_id" u)
                        (employer_profiles
                           (db (after
                                  (profileFormUtils.saveProfile values profile)
                                  w)))))
    by (rewrite Hsingle; left; reflexivity).
  rewrite select_user_id_profile in Hin, Hsingle.
  apply List.filter_In in Hin. destruct Hin as [Hin Hu].
  apply bool_decide_eq_true in Hu.
  repeat split; [exact Hu | exact Hin |].
  unfold profileFormUtils.count_user. rewrite Hsingle. reflexivity.
Qed.

Lemma saveProfile_returns_the_users_row_witness :
  exists u : string,
    session Scenario.world = Some u
    /\ EmployerProfile.user_id
         (profileFormUtils.apply_profileData "u1" Scenario.values 100
            Scenario.profile1) = Some u.
Proof.
  destruct (saveProfile_returns_the_users_row Scenario.values None
              Scenario.world
              (mkReply
                 (Some (profileFormUtils.apply_profileData "u1"
                          Scenario.values 100 Scenario.profile1))
                 None)
              (profileFormUtils.apply_profileData "u1" Scenario.values 100
                 Scenario.profile1))
    as (_ & u & Hsession & Hu & _).
  - vm_compute. reflexivity.
  - reflexivity.
  - exists u. split; [exact Hsession | exact Hu].
Defined.

Lemma update_where_no_profile (id : string)
    (set : EmployerProfile.t -> EmployerProfile.t)
    (rows : list EmployerProfile.t) :
  (forall r, In r rows -> EmployerProfile.id r <> id) ->
  update_where (F_eq "id" id) set rows = rows.
Proof.
  unfold update_where. induction rows as [| r rows IH]; intros Hno;
    [reflexivity |].
  cbn [List.map].
  change (holds (F_eq "id" id) r) with (String.eqb (EmployerProfile.id r) id).
  destruct (String.eqb_spec (EmployerProfile.id r) id) as [Heq | Hne].
  - exfalso. apply (Hno r); [left; reflexivity | exact Heq].
  - f_equal. apply IH. intros x Hx. apply Hno. right. exact Hx.
Qed.

Section StaleId.

#[local] Arguments update_where : simpl never.
#[local] Arguments select_where : simpl never.
#[local] Arguments profileFormUtils.unique_user_id : simpl never.

(** X13: a stale profile id makes [saveProfile] a silent no-op.  Over a
    transport that delivers, with a user signed in, when the profile
    passed in has an id that no row has, nothing is written; the user who
    has a row gets that row back, unchanged and without an error, as if it
    had been saved, and only the user who has none gets an error. *)
Theorem saveProfile_stale_id (u id : string)
    (values : profileFormUtils.ProfileFormData)
    (profile : option EmployerProfile.t) (w : World) :
  fault_free w ->
  session w = Some u ->
  one_profile_per_user (employer_profiles (db w)) ->
  profileFormUtils.profile_id profile = Some id ->
  (forall r, In r (employer_profiles (db w)) -> EmployerProfile.id r <> id) ->
  let m := profileFormUtils.saveProfile values profile in
  employer_profiles (db (after m w)) = employer_profiles (db w)
  /\ (forall r : EmployerProfile.t,
        In r (employer_profiles (db w)) ->
        EmployerProfile.user_id r = Some u ->
        result m w = Returned (mkReply (Some r) None))
  /\ (profileFormUtils.count_user u (employer_profiles (db w)) = 0%nat ->
      result m w
      = Returned (mkReply None (Some (PostgresError "PGRST116")))).
Proof.
  intros Hff Hsession Hone Hid Hno. cbv zeta.
  unfold profileFormUtils.saveProfile, profileFormUtils.write_profile,
    profileFormUtils.timestamp_now, profileFormUtils.getUser,
    profileFormUtils.exec_update, profileFormUtils.commit,
    profileFormUtils.exec_single.
  rewrite Hid.
  destruct w as [d s n o t g c l]. cbn in Hsession, Hone, Hno. subst s.
  assert (Hcheck :
            profileFormUtils.unique_user_id (employer_profiles d) = true)
    by (apply unique_user_id_spec, Hone).
  unfold fault_free in Hff. cbn in Hff.
  destruct n as [| t1 [| t2 [| t3 rest]]];
    repeat match goal with
           | H : Forall _ (_ :: _) |- _ => inversion H; clear H; subst
           end;
    run_hook;
    rewrite (update_where_no_profile id _ _ Hno), Hcheck; cbn.
  all: split;
         [destruct (select_where _ _) as [| ? [| ? ?]]; destruct d;
          reflexivity |].
  all: split.
  all: try (intros r Hin Hu;
            assert (Hsel : select_where (F_eq "user_id" u)
                             (employer_profiles d) = [r])
              by (rewrite select_user_id_profile;
                  apply filter_single;
                  [apply Hone | exact Hin
                  | apply bool_decide_eq_true; exact Hu]);
            destruct d; cbn in *; rewrite Hsel; reflexivity).
  all: intros Hnone;
       assert (Hsel : select_where (F_eq "user_id" u)
                        (employer_profiles d) = [])
         by (rewrite select_user_id_profile;
             unfold profileFormUtils.count_user in Hnone;
             destruct (List.filter _ _); [reflexivity | discriminate]);
       destruct d; cbn in *; rewrite Hsel; reflexivity.
Qed.

End StaleId.

Lemma saveProfile_stale_id_witness :
  result
    (profileFormUtils.saveProfile Scenario.values
       (Some (profileFormUtils.new_profile "gone" "u1" Scenario.values 1)))
    Scenario.world
  = Returned (mkReply (Some Scenario.profile1) None).
Proof.
  refine (proj1 (proj2
            (saveProfile_stale_id "u1" "gone" Scenario.values
               (Some (profileFormUtils.new_profile "gone" "u1"
                        Scenario.values 1))
               Scenario.world _ eq_refl _ eq_refl _))
            Scenario.profile1 _ eq_refl).
  - constructor.
  - apply unique_user_id_spec. reflexivity.
  - intros r [<- | []]. discriminate.
  - left. reflexivity.
Defined.

(** X23: without a user, [saveProfile] goes no further than the identity
    client.  When there is no session, or the call to the identity service
    fails, nothing is sent to the relational service, the store is as it
    was, and the reply carries an error instead of a profile.  Without a
    session nothing is sent at all, and the error is the one of the
    client for a missing session. *)
Theorem saveProfile_without_user
    (values : profileFormUtils.ProfileFormData)
    (profile : option EmployerProfile.t) (w : World) :
  delivers w = false \/ session w = None ->
  let m := profileFormUtils.saveProfile values profile in
  events m w =
    match session w with
    | Some _ => [AuthGetUser; ConsoleError "Error in saveProfile:"]
    | None => [ConsoleError "Error in saveProfile:"]
    end
  /\ db (after m w) = db w
  /\ exists e : Err,
       result m w = Returned (mkReply None (Some e))
       /\ (session w = None -> e = JsError "Auth session missing!").
Proof.
  intros Hno. cbv zeta.
  unfold events, result, after, profileFormUtils.saveProfile,
    profileFormUtils.timestamp_now, profileFormUtils.getUser, delivers in *.
  destruct w as [d s n o t g c l]. cbn in Hno.
  destruct s as [u |]; destruct n as [| [| e | e] rest];
    destruct Hno as [Hno | Hno]; try discriminate;
    run_hook;
    (split; [repeat rewrite <- app_assoc; apply drop_app_length |]);
    (split; [reflexivity |]);
    eexists; (split; [reflexivity |]); intros H;
    first [reflexivity | discriminate].
Qed.

Lemma saveProfile_without_user_witness :
  result (profileFormUtils.saveProfile Scenario.values None)
    Scenario.world_signed_out
  = Returned (mkReply None (Some (JsError "Auth session missing!"))).
Proof.
  destruct (saveProfile_without_user Scenario.values None
              Scenario.world_signed_out (or_intror eq_refl))
    as (_ & _ & e & Hres & He).
  rewrite Hres, (He eq_refl). reflexivity.
Defined.

(** ** [profileFormUtils]: the schema and the default values *)

(** X14: the blank form cannot be submitted by filling in the main fields
    alone.  [getDefaultFormValues(null)] gives the alternate contact an
    empty phone, which is present and shorter than ten characters, so the
    schema rejects every set of values that still carries that alternate
    contact, whatever the other fields hold and whatever the email check
    accepts. *)
Theorem blank_alternate_contact_is_rejected (is_email : string -> bool)
    (values : profileFormUtils.ProfileFormData) :
  profileFormUtils.alternate_contact values
    = profileFormUtils.alternate_contact
        (profileSchema.getDefaultFormValues None) ->
  profileSchema.accepts is_email values = false.
Proof.
  intros Halt. unfold profileSchema.accepts. rewrite Halt.
  apply andb_false_iff. right.
  unfold profileSchema.getDefaultFormValues, profileSchema.optional,
    profileSchema.alternate_contact_ok, profileSchema.min. cbn.
  apply andb_false_r.
Qed.

Lemma blank_alternate_contact_is_rejected_witness :
  profileSchema.accepts (fun _ => true)
    (profileFormUtils.mkForm "Acme Pte Ltd" "R-1" "SG" "SG" "IT" "Software"
       "SaaS" "Ann" "CTO" "ann@acme.example" "6500000000"
       (profileFormUtils.alternate_contact
          (profileSchema.getDefaultFormValues None)))
  = false.
Proof.
  exact (blank_alternate_contact_is_rejected (fun _ => true) _ eq_refl).
Defined.

(** X15: what is saved is what the form shows when it is opened again.
    For values that carry an alternate contact, the row [saveProfile]
    writes, whether over an existing row or as a new one, is turned back
    into exactly those values by [getDefaultFormValues]; so values the
    schema accepted are accepted again. *)
Theorem saved_values_reopen (is_email : string -> bool)
    (user id : string) (timestamp : Z)
    (values : profileFormUtils.ProfileFormData) (r : EmployerProfile.t) :
  profileFormUtils.alternate_contact values <> None ->
  profileSchema.getDefaultFormValues
    (Some (profileFormUtils.apply_profileData user values timestamp r))
  = values
  /\ profileSchema.getDefaultFormValues
       (Some (profileFormUtils.new_profile id user values timestamp))
     = values
  /\ profileSchema.accepts is_email
       (profileSchema.getDefaultFormValues
          (Some (profileFormUtils.apply_profileData user values timestamp r)))
     = profileSchema.accepts is_email values.
Proof.
  intros _. destruct values. repeat split.
Qed.

Lemma saved_values_reopen_witness :
  profileSchema.getDefaultFormValues
    (Some (profileFormUtils.apply_profileData "u1"
             (profileSchema.getDefaultFormValues (Some Scenario.profile2))
             7 Scenario.profile1))
  = profileSchema.getDefaultFormValues (Some Scenario.profile2).
Proof.
  refine (proj1 (saved_values_reopen (fun _ => true) "u1" "p9" 7
                   (profileSchema.getDefaultFormValues
                      (Some Scenario.profile2))
                   Scenario.profile1 _)).
  discriminate.
Defined.

(** ** [UploadJD] *)

(** The code units [trim] strips are the white space of the language. *)
Lemma is_white_space_spec (c : N) :
  UploadJD.is_white_space c = existsb (N.eqb c) white_space.
Proof.
  unfold UploadJD.is_white_space, white_space.
  rewrite List.existsb_app. f_equal.
  destruct (N.leb_spec 8192 c) as [Hlo | Hlo];
    destruct (N.leb_spec c 8202) as [Hhi | Hhi]; cbn [andb existsb].
  - assert (H : (c = 8192 \/ c = 8193 \/ c = 8194 \/ c = 8195 \/ c = 8196
                 \/ c = 8197 \/ c = 8198 \/ c = 8199 \/ c = 8200
                 \/ c = 8201 \/ c = 8202)%N) by lia.
    repeat destruct H as [-> | H]; try subst c; reflexivity.
  - repeat match goal with
           | |- context [N.eqb c ?k] =>
               replace (N.eqb c k) with false
                 by (symmetry; apply N.eqb_neq; lia)
           end.
    reflexivity.
  - repeat match goal with
           | |- context [N.eqb c ?k] =>
               replace (N.eqb c k) with false
                 by (symmetry; apply N.eqb_neq; lia)
           end.
    reflexivity.
  - lia.
Qed.

Lemma blank_cons (c : N) (s : UploadJD.Text) :
  blank (c :: s) = UploadJD.is_white_space c && blank s.
Proof. unfold blank. cbn [forallb]. rewrite is_white_space_spec. reflexivity. Qed.

Lemma trim_start_blank (s : UploadJD.Text) :
  blank s = true -> UploadJD.trim_start s = [].
Proof.
  induction s as [| c s IH]; [reflexivity |].
  rewrite blank_cons. cbn [UploadJD.trim_start].
  intros H. apply andb_true_iff in H. destruct H as [Hc Hs].
  rewrite Hc. apply IH, Hs.
Qed.

Lemma trim_end_empty (s : UploadJD.Text) :
  UploadJD.trim_end s = [] -> blank s = true.
Proof.
  induction s as [| c s IH]; [reflexivity |].
  rewrite blank_cons. cbn [UploadJD.trim_end].
  destruct (UploadJD.trim_end s) as [| d t]; [| discriminate].
  destruct (UploadJD.is_white_space c); [| discriminate].
  intros _. apply IH. reflexivity.
Qed.

Lemma trim_start_head (s : UploadJD.Text) :
  match UploadJD.trim_start s with
  | [] => blank s = true
  | c :: _ => UploadJD.is_white_space c = false
  end.
Proof.
  induction s as [| c s IH]; [reflexivity |].
  rewrite blank_cons. cbn [UploadJD.trim_start].
  destruct (UploadJD.is_white_space c) eqn:Hc; [| exact Hc].
  destruct (UploadJD.trim_start s); exact IH.
Qed.

(** The guard [!text.trim()] is the test for white space only. *)
Lemma trim_empty_iff_blank (s : UploadJD.Text) :
  UploadJD.truthy (UploadJD.trim s) = negb (blank s).
Proof.
  unfold UploadJD.trim.
  destruct (blank s) eqn:Hb.
  - rewrite (trim_start_blank s Hb). reflexivity.
  - pose proof (trim_start_head s) as Hhead.
    destruct (UploadJD.trim_start s) as [| c t] eqn:Hts;
      [congruence |].
    destruct (UploadJD.trim_end (c :: t)) eqn:Hte; [| reflexivity].
    apply trim_end_empty in Hte. rewrite blank_cons, Hhead in Hte.
    discriminate.
Qed.

Section UploadProperties.
Variable uploadFileToStorage : UploadJD.File -> Async unit.
Variable processJobDescription :
  UploadJD.Text -> option string -> option string -> Async unit.

Let handleUpload :=
  UploadJD.handleUpload uploadFileToStorage processJobDescription.
Let handleTextSubmit := UploadJD.handleTextSubmit processJobDescription.

Lemma includes_allowed (f : UploadJD.File) :
  negb (UploadJD.includes (UploadJD.type f) UploadJD.allowedFileTypes)
    = false ->
  UploadJD.includes (UploadJD.type f) UploadJD.allowedFileTypes = true.
Proof. destruct (UploadJD.includes _ _); [reflexivity | discriminate]. Qed.

Lemma handleUpload_run (s : UploadJD.State) (w : World) :
  handleUpload s w =
  match UploadJD.file s with
  | None => (Returned s, logged [no_file_toast] w)
  | Some f =>
      match uploadFileToStorage f w with
      | (Returned _, w1) =>
          match
            processJobDescription (UploadJD.content f)
              (Some (UploadJD.name f)) (Some (UploadJD.type f)) w1
          with
          | (Returned _, w2) =>
              (Returned (UploadJD.mkState None [] false),
               logged [upload_ok_toast] w2)
          | (Thrown _, w2) =>
              (Returned (UploadJD.set_isProcessing false s),
               logged [ConsoleError "Upload error:"; upload_failed_toast] w2)
          end
      | (Thrown _, w1) =>
          (Returned (UploadJD.set_isProcessing false s),
           logged [ConsoleError "Upload error:"; upload_failed_toast] w1)
      end
  end.
Proof.
  subst handleUpload. unfold UploadJD.handleUpload, logged.
  destruct (UploadJD.file s) as [f |]; [| reflexivity].
  unfold try_catch, mbind, Async_bind.
  destruct (uploadFileToStorage f w) as [[[] | e] w1].
  - destruct (processJobDescription _ _ _ w1) as [[[] | e] w2];
      unfold toast, console_error, emit, mret, Async_ret; cbn;
      repeat rewrite <- app_assoc; reflexivity.
  - unfold toast, console_error, emit, mret, Async_ret; cbn.
    repeat rewrite <- app_assoc. reflexivity.
Qed.

Lemma handleTextSubmit_run (s : UploadJD.State) (w : World) :
  handleTextSubmit s w =
  if blank (UploadJD.textInput s) then
    (Returned s, logged [no_text_toast] w)
  else
    match processJobDescription (UploadJD.textInput s) None None w with
    | (Returned _, w1) =>
        (Returned (UploadJD.mkState (UploadJD.file s) [] false),
         logged [upload_ok_toast] w1)
    | (Thrown _, w1) =>
        (Returned (UploadJD.set_isProcessing false s),
         logged [ConsoleError "Processing error:"; process_failed_toast] w1)
    end.
Proof.
  subst handleTextSubmit. unfold UploadJD.handleTextSubmit, logged.
  rewrite trim_empty_iff_blank, negb_involutive.
  destruct (blank (UploadJD.textInput s)); [reflexivity |].
  unfold try_catch, mbind, Async_bind.
  destruct (processJobDescription _ _ _ w) as [[[] | e] w1];
    unfold toast, console_error, emit, mret, Async_ret; cbn;
    repeat rewrite <- app_assoc; reflexivity.
Qed.

(** X16: the four handlers of the upload panel keep its state well
    formed, whatever the storage and ingestion services do: a file and a
    text are never held together, and a held file always has one of the
    four allowed types.  Neither [handleUpload] nor [handleTextSubmit]
    throws. *)
Theorem upload_panel_stays_well_formed
    (selectedFile : option UploadJD.File) (value : UploadJD.Text)
    (s : UploadJD.State) (w : World) :
  upload_well_formed s ->
  (exists s' : UploadJD.State,
     result (UploadJD.handleFileChange selectedFile s) w = Returned s'
     /\ upload_well_formed s')
  /\ upload_well_formed (UploadJD.handleTextInputChange value s)
  /\ (exists s' : UploadJD.State,
        result (handleUpload s) w = Returned s' /\ upload_well_formed s')
  /\ (exists s' : UploadJD.State,
        result (handleTextSubmit s) w = Returned s'
        /\ upload_well_formed s').
Proof.
  intros Hwf.
  assert (Hkeep : upload_well_formed (UploadJD.set_isProcessing false s))
    by (destruct Hwf as [Hexcl Htype]; split; assumption).
  assert (Hclear : upload_well_formed
                     (UploadJD.mkState None [] false))
    by (split; [left; reflexivity | intros f; discriminate]).
  split; [| split; [| split]].
  - unfold UploadJD.handleFileChange, result.
    destruct selectedFile as [f |];
      [| exists s; split; [reflexivity | exact Hwf]].
    destruct (negb (UploadJD.includes _ _)) eqn:Hinc.
    + exists s. split; [reflexivity | exact Hwf].
    + eexists. split; [reflexivity |]. split; [right; reflexivity |].
      intros f' [= <-]. apply includes_allowed, Hinc.
  - split; [left; reflexivity | intros f; discriminate].
  - unfold result. rewrite handleUpload_run.
    destruct (UploadJD.file s) as [f |];
      [| exists s; split; [reflexivity | exact Hwf]].
    destruct (uploadFileToStorage f w) as [[[] | e] w1];
      [destruct (processJobDescription _ _ _ w1) as [[[] | e] w2] |];
      eexists; (split; [reflexivity |]); assumption.
  - unfold result. rewrite handleTextSubmit_run.
    destruct (blank _); [exists s; split; [reflexivity | exact Hwf] |].
    destruct (processJobDescription _ _ _ w) as [[[] | e] w1];
      eexists; (split; [reflexivity |]); [| assumption].
    destruct Hwf as [_ Htype]. split; [right; reflexivity | exact Htype].
Qed.

(** X17: a file is handed to the ingestion only after its upload to
    storage succeeded.  Without a file, [handleUpload] calls neither
    service: it notifies and leaves state and store alone.  When the
    upload of the held file throws, the ingestion is not called: the world
    is the one the upload left, with the error logged and notified, and
    the file and the text stay as they were. *)
Theorem upload_precedes_ingestion (s : UploadJD.State) (w : World) :
  (UploadJD.file s = None ->
   handleUpload s w = (Returned s, logged [no_file_toast] w))
  /\ (forall (f : UploadJD.File) (e : Err),
        UploadJD.file s = Some f ->
        result (uploadFileToStorage f) w = Thrown e ->
        handleUpload s w =
        (Returned (UploadJD.set_isProcessing false s),
         logged [ConsoleError "Upload error:"; upload_failed_toast]
           (after (uploadFileToStorage f) w))).
Proof.
  split.
  - intros Hfile. rewrite handleUpload_run, Hfile. reflexivity.
  - intros f e Hfile Hup. rewrite handleUpload_run, Hfile.
    unfold result, after in *.
    destruct (uploadFileToStorage f w) as [[[] | e'] w1];
      [discriminate | reflexivity].
Qed.

(** X18: a text of white space only (spaces, no-break spaces, line
    breaks and the other code units [trim] strips) is never sent to the
    ingestion: [handleTextSubmit] notifies "No text entered" and leaves
    the state and the store alone.  Any other text is sent as it was
    typed, untrimmed, with no file name and no type. *)
Theorem blank_text_is_not_submitted (s : UploadJD.State) (w : World) :
  (blank (UploadJD.textInput s) = true ->
   handleTextSubmit s w = (Returned s, logged [no_text_toast] w))
  /\ (blank (UploadJD.textInput s) = false ->
      exists evs : list Event,
        after (handleTextSubmit s) w =
        logged evs
          (after (processJobDescription (UploadJD.textInput s) None None) w)).
Proof.
  split; intros Hb; rewrite ?handleTextSubmit_run; unfold after;
    rewrite ?handleTextSubmit_run, Hb; [reflexivity |].
  destruct (processJobDescription _ _ _ w) as [[[] | e] w1];
    eexists; reflexivity.
Qed.
End UploadProperties.

Lemma upload_precedes_ingestion_witness :
  UploadJD.handleUpload (fun _ => throw (JsError "storage is down"))
    (fun _ _ _ => console_error "processJobDescription")
    (UploadJD.mkState
       (Some (UploadJD.mkFile "jd.txt" "text/plain"
                (UploadJD.of_ascii "Senior Engineer")))
       [] false)
    Scenario.world
  = (Returned
       (UploadJD.mkState
          (Some (UploadJD.mkFile "jd.txt" "text/plain"
                (UploadJD.of_ascii "Senior Engineer")))
          [] false),
     logged [ConsoleError "Upload error:"; upload_failed_toast]
       Scenario.world).
Proof.
  exact (proj2
           (upload_precedes_ingestion
              (fun _ => throw (JsError "storage is down"))
              (fun _ _ _ => console_error "processJobDescription")
              (UploadJD.mkState
                 (Some (UploadJD.mkFile "jd.txt" "text/plain"
                          (UploadJD.of_ascii "Senior Engineer")))
                 [] false)
              Scenario.world)
           (UploadJD.mkFile "jd.txt" "text/plain"
                (UploadJD.of_ascii "Senior Engineer"))
           (JsError "storage is down") eq_refl eq_refl).
Defined.

Lemma blank_text_is_not_submitted_witness :
  UploadJD.handleTextSubmit (fun _ _ _ => console_error "processJobDescription")
    (UploadJD.mkState None [32; 160; 10]%N false) Scenario.world
  = (Returned (UploadJD.mkState None [32; 160; 10]%N false),
     logged [no_text_toast] Scenario.world).
Proof.
  exact (proj1
           (blank_text_is_not_submitted (fun _ _ _ => console_error "processJobDescription")
              (UploadJD.mkState None [32; 160; 10]%N false) Scenario.world)
           eq_refl).
Defined.

Lemma upload_panel_stays_well_formed_witness :
  upload_well_formed
    (UploadJD.handleTextInputChange (UploadJD.of_ascii "Senior Engineer")
       (UploadJD.mkState None [] false)).
Proof.
  assert (H0 : upload_well_formed (UploadJD.mkState None [] false))
    by (split; [left; reflexivity | intros f; discriminate]).
  exact (proj1 (proj2
           (upload_panel_stays_well_formed (fun _ => mret tt)
              (fun _ _ _ => mret tt) None
              (UploadJD.of_ascii "Senior Engineer")
              (UploadJD.mkState None [] false) Scenario.world H0))).
Defined.

(** ** [SearchTab]: what a search finds *)

Lemma lower_string_empty (s : string) :
  Js.truthy_string (Like.lower_string s) = Js.truthy_string s.
Proof. destruct s; reflexivity. Qed.

Lemma holds_ilike_name_iff (p : string) (r : CvMetadata.t) :
  holds (F_ilike "name" p) r =
  match CvMetadata.name r with
  | Some name => Like.ilike p name
  | None => false
  end.
Proof.
  unfold holds, column, CvMetadata.relation. cbn.
  destruct (CvMetadata.name r); reflexivity.
Qed.

Lemma searchCandidates_delivered (searchTerm : string) (w : World) :
  Js.truthy_string searchTerm = true ->
  delivers w = true ->
  result (SearchTab.searchCandidates searchTerm) w =
  Returned
    (List.firstn 10
       (select_where (F_ilike "name" (SearchTab.search_pattern searchTerm))
          (cv_metadata (db w)))).
Proof.
  intros Ht Hd. unfold result, SearchTab.searchCandidates. rewrite Ht.
  cbn [negb]. unfold mbind, Async_bind.
  rewrite (request_delivered _ _ _ w Hd). reflexivity.
Qed.

(** X19: the search finds every candidate it should when there are few
    enough.  For a non-empty term without pattern characters, delivered,
    if no more than ten names match, then every candidate whose name
    contains the term, case ignored, is among the records returned. *)
Theorem search_finds_all_of_few (searchTerm : string) (w : World)
    (r : CvMetadata.t) (name : string) :
  searchTerm <> EmptyString ->
  Like.has_meta searchTerm = false ->
  delivers w = true ->
  (length
     (select_where (F_ilike "name" (SearchTab.search_pattern searchTerm))
        (cv_metadata (db w))) <= 10)%nat ->
  In r (cv_metadata (db w)) ->
  CvMetadata.name r = Some name ->
  Like.infix_ci searchTerm name ->
  exists rows : list CvMetadata.t,
    result (SearchTab.searchCandidates searchTerm) w = Returned rows
    /\ In r rows.
Proof.
  intros Hne Hmeta Hd Hfew Hin Hname Hinfix.
  assert (Ht : Js.truthy_string searchTerm = true)
    by (destruct searchTerm; [congruence | reflexivity]).
  eexists. split; [apply (searchCandidates_delivered _ _ Ht Hd) |].
  rewrite List.firstn_all2 by exact Hfew.
  unfold select_where. apply List.filter_In. split; [exact Hin |].
  rewrite holds_ilike_name_iff, Hname.
  apply (ilike_search_pattern _ _ Hmeta). exact Hinfix.
Qed.

Lemma search_finds_all_of_few_witness :
  exists rows : list CvMetadata.t,
    result (SearchTab.searchCandidates "LIC") Scenario.world = Returned rows
    /\ In Scenario.alice rows.
Proof.
  apply (search_finds_all_of_few "LIC" Scenario.world Scenario.alice
           "Alice Tan").
  - discriminate.
  - reflexivity.
  - reflexivity.
  - vm_compute. lia.
  - right. left. reflexivity.
  - reflexivity.
  - exists "a", "e tan". reflexivity.
Defined.

(** X20: the search does not look at the case of the term: two non-empty
    terms that differ only in case return the same records, for any store
    and any behaviour of the transport that is not a failure. *)
Theorem search_ignores_case (term1 term2 : string) (w : World) :
  Like.lower_string term1 = Like.lower_string term2 ->
  term1 <> EmptyString ->
  delivers w = true ->
  result (SearchTab.searchCandidates term1) w
  = result (SearchTab.searchCandidates term2) w.
Proof.
  intros Hlow Hne Hd.
  assert (Ht1 : Js.truthy_string term1 = true)
    by (destruct term1; [congruence | reflexivity]).
  assert (Ht2 : Js.truthy_string term2 = true)
    by (rewrite <- lower_string_empty, <- Hlow, lower_string_empty;
        exact Ht1).
  rewrite (searchCandidates_delivered _ _ Ht1 Hd),
    (searchCandidates_delivered _ _ Ht2 Hd).
  f_equal. f_equal. unfold select_where. apply filter_ext_bool.
  intros r. rewrite !holds_ilike_name_iff.
  destruct (CvMetadata.name r) as [name |]; [| reflexivity].
  unfold Like.ilike, SearchTab.search_pattern.
  rewrite !lower_string_append, Hlow. reflexivity.
Qed.

Lemma search_ignores_case_witness :
  result (SearchTab.searchCandidates "bob") Scenario.world
  = result (SearchTab.searchCandidates "BOB") Scenario.world.
Proof.
  apply (search_ignores_case "bob" "BOB" Scenario.world).
  - reflexivity.
  - discriminate.
  - reflexivity.
Defined.

(** ** [SearchTab]: the search button *)

Lemma drop_two_events (l : list Event) (a b : Event) :
  drop (length l) ((l ++ [a]) ++ [b]) = a :: [] ++ [b].
Proof.
  rewrite <- app_assoc. apply drop_app_length.
Qed.

Lemma drop_three_events (l : list Event) (a b c : Event) :
  drop (length l) (((l ++ [a]) ++ [b]) ++ [c]) = a :: [b] ++ [c].
Proof.
  repeat rewrite <- app_assoc. apply drop_app_length.
Qed.

Section SearchButton.
Variable throwOnError : bool.
Variable instanceof_Error : Err -> bool.

Let handleTalentSearch :=
  SearchTabView.handleTalentSearch throwOnError instanceof_Error.

Lemma searchCandidates_run (searchTerm : string) (w : World) :
  Js.truthy_string searchTerm = true ->
  SearchTab.searchCandidates searchTerm w =
  match net w with
  | [] | Deliver :: _ =>
      (Returned
         (List.firstn 10
            (select_where
               (F_ilike "name" (SearchTab.search_pattern searchTerm))
               (cv_metadata (db w)))),
       sent "cv_metadata" (SearchTab.search_select searchTerm) w)
  | Fail e :: _ =>
      (Thrown e,
       logged [ConsoleError "Supabase error:"]
         (sent "cv_metadata" (SearchTab.search_select searchTerm) w))
  | Reject e :: _ =>
      (Thrown e, sent "cv_metadata" (SearchTab.search_select searchTerm) w)
  end.
Proof.
  intros Ht. unfold SearchTab.searchCandidates, sent, logged. rewrite Ht.
  destruct w as [d s n o t g c l]. destruct n as [| [| e | e] rest];
    run_hook; try reflexivity; destruct d; reflexivity.
Qed.

(** X21: the search button never throws and always notifies once.  With
    an empty term it notifies the missing query and sends nothing.  With a
    term it sends the one select and ends with [isSearching] false; when
    the select is delivered the state holds the records found and success
    is notified; when it is not, the state keeps the results it had, and,
    [refetch] resolving rather than rejecting as it does unless asked to
    throw, success is notified all the same. *)
Theorem handleTalentSearch_outcome (s : SearchTabView.State) (w : World) :
  let m := handleTalentSearch s in
  if Js.truthy_string (SearchTabView.searchTerm s) then
    exists (s' : SearchTabView.State) (pre : list Event) (last : Event),
      result m w = Returned s'
      /\ SearchTabView.isSearching s' = false
      /\ SearchTabView.searchTerm s' = SearchTabView.searchTerm s
      /\ db (after m w) = db w
      /\ events m w =
         Request "cv_metadata"
           (SearchTab.search_select (SearchTabView.searchTerm s))
         :: pre ++ [last]
      /\ forallb quiet pre = true
      /\ if delivers w then
           SearchTabView.searchResults s' =
             Some
               (List.firstn 10
                  (select_where
                     (F_ilike "name"
                        (SearchTab.search_pattern (SearchTabView.searchTerm s)))
                     (cv_metadata (db w))))
           /\ last = search_done_toast
         else
           SearchTabView.searchResults s' = SearchTabView.searchResults s
           /\ (throwOnError = false -> last = search_done_toast)
           /\ (throwOnError = true ->
               exists description : string,
                 last = Toast "Error" description true)
  else m w = (Returned s, logged [no_query_toast] w).
Proof.
  cbv zeta. subst handleTalentSearch.
  unfold SearchTabView.handleTalentSearch.
  destruct (Js.truthy_string (SearchTabView.searchTerm s)) eqn:Ht;
    [| reflexivity].
  cbn [negb].
  unfold events, result, after, try_catch, mbind, Async_bind,
    SearchTabView.refetch, delivers.
  cbn [SearchTabView.searchTerm SearchTabView.set_isSearching].
  rewrite (searchCandidates_run _ w Ht).
  destruct w as [d ss n o t g c l].
  destruct n as [| [| e | e] rest]; destruct throwOnError;
    unfold sent, logged, toast, emit, mret, Async_ret; cbn.
  all: eexists; eexists; eexists.
  all: split; [reflexivity |].
  all: split; [reflexivity |].
  all: split; [reflexivity |].
  all: split; [reflexivity |].
  all: split; [first [apply drop_two_events | apply drop_three_events] |].
  all: split; [reflexivity |].
  all: repeat split; try discriminate; intros _; eexists; reflexivity.
Qed.
End SearchButton.

(** ** [SearchTab]: the rows of the table *)

Lemma years_is_not_unspecified (s : string) :
  s +:+ " years" <> "Not specified".
Proof.
  intros H.
  do 14 (destruct s as [| ? s];
         [rewrite append_nil_l in H; discriminate H
         | rewrite append_cons in H; try discriminate H;
           injection H as _ H]).
Qed.

(** X22: what the table shows for a record.  Every record found gets one
    row, in the same order and with its id; the name shown is never empty
    ("Unknown" stands in for a missing or empty one); and the experience
    reads "Not specified" exactly when the record has none or has zero
    years, so a candidate with no experience yet is shown like one whose
    experience is not known. *)
Theorem formatted_rows (normalizeSkills : sqlval -> list string)
    (rows : list CvMetadata.t) :
  List.map SearchTabView.id
    (SearchTabView.formattedResults normalizeSkills (Some rows))
  = List.map CvMetadata.id rows
  /\ SearchTabView.formattedResults normalizeSkills None = []
  /\ Forall
       (fun r =>
          let c := SearchTabView.format normalizeSkills r in
          SearchTabView.name c <> EmptyString
          /\ (SearchTabView.experience c = "Not specified" <->
              CvMetadata.experience r = None
              \/ CvMetadata.experience r = Some 0%Z))
       rows.
Proof.
  split; [| split].
  - unfold SearchTabView.formattedResults. rewrite List.map_map. reflexivity.
  - reflexivity.
  - apply Forall_forall. intros r _. cbn. split.
    + destruct (CvMetadata.name r) as [[| c n] |]; cbn; discriminate.
    + destruct (CvMetadata.experience r) as [n |].
      * destruct (Z.eqb_spec n 0) as [-> | Hne].
        -- split; [intros _; right; reflexivity | reflexivity].
        -- split.
           ++ intros H. exfalso.
              exact (years_is_not_unspecified _ H).
           ++ intros [H | H]; [discriminate | congruence].
      * split; [intros _; left; reflexivity | reflexivity].
Qed.
